(** * Diesel: kernel-thread emulation, mutexes and the fiber system

    A shallow embedding of the Diesel concurrency runtime
    (src/common.h, src/platform/*/kthread.h, src/platform/*/ksync.h and
    src/fiber.h) together with the properties its specification states.

    Conventions of the embedding:
    - a C pointer is an address in [Z]; [NULL] is [0];
    - every heap object lives in a finite map from addresses to records;
      dereferencing an address that is not mapped is undefined behaviour
      and is rendered as [None] (as [Undefined] in code that loops);
    - [int] is a 32-bit signed integer, kept in [Z]; the one place where the
      code can overflow it ([sleep_ticks--]) is rendered as [None];
    - [size_t] counters (table count, capacity, indices) are [nat]: they are
      bounded by the number of live objects and never wrap;
    - [DIESEL_MEM_ALLOC] / [DIESEL_MEM_REALLOC] are configuration hooks; their
      answers are read from an oracle (the list of the addresses the allocator
      is going to return, [NULL] for a failed request);
    - a function pointer is represented by the code it points to. *)

From Stdlib Require Import ZArith Lia.
From stdpp Require Import base option list gmap.

Abbreviation ptr := Z.
Definition NULL : ptr := 0%Z.
Definition INT_MIN : Z := (- 2 ^ 31)%Z.

Definition is_null (p : ptr) : bool := (p =? NULL)%Z.

(** ** src/common.h *)

Inductive ThreadPriority :=
  | THREAD_PRIORITY_LOW
  | THREAD_PRIORITY_DEFAULT
  | THREAD_PRIORITY_HIGH.

(** The values of the enumeration constants. *)
Definition prio_val (p : ThreadPriority) : Z :=
  match p with
  | THREAD_PRIORITY_LOW => 0
  | THREAD_PRIORITY_DEFAULT => 1
  | THREAD_PRIORITY_HIGH => 2
  end%Z.

Global Instance ThreadPriority_eq_dec : EqDecision ThreadPriority.
Proof. solve_decision. Defined.

(** The integer type behind [enum ThreadPriority] is chosen by the C
    implementation: [int], or an unsigned type when no enumerator is
    negative.  The scheduler stores [THREAD_PRIORITY_LOW - 1] in a variable of
    the enumerated type, so the choice is part of the model. *)
Inductive EnumRepr := EnumInt | EnumUnsigned.

Definition enum_conv (r : EnumRepr) (z : Z) : Z :=
  match r with
  | EnumInt => z
  | EnumUnsigned => z mod 2 ^ 32
  end%Z.

(** [struct KThreadContext] and [struct FiberContext]. *)
Record Context := mkContext {
  ID : Z;
  user_data : ptr;
}.

(** ** src/platform/emulated/kthread.h: data *)

Inductive KThreadState :=
  | KTHREAD_READY
  | KTHREAD_RUNNING
  | KTHREAD_SLEEPING
  | KTHREAD_DONE.

Global Instance KThreadState_eq_dec : EqDecision KThreadState.
Proof. solve_decision. Defined.

(** What a worker body can do to the scheduler is call its interface.  A user
    worker is the sequence of the interface calls it makes before it
    returns (workers that re-enter [KThreadTick] or [JoinKThread] are outside
    this model). *)
Inductive KOp :=
  | OpYield
  | OpSleep (ticks : Z)
  | OpSetPriority (thread : ptr) (priority : ThreadPriority)
  | OpStart (thread : ptr)
  | OpDestroy (thread : ptr).

(** [KThreadWorker]: the function a thread runs, either the fiber scheduler
    loop of src/fiber.h or a user function. *)
Inductive KThreadWorker :=
  | Worker_FiberSchedulerLoop
  | Worker_User (body : list KOp).

Record KThread := mkKThread {
  ctx : Context;
  worker : KThreadWorker;
  state : KThreadState;
  sleep_ticks : Z;
  exit_code : Z;
  joined : bool;
  priority : ThreadPriority;
}.

Definition set_state (s : KThreadState) (k : KThread) : KThread :=
  mkKThread (ctx k) (worker k) s (sleep_ticks k) (exit_code k) (joined k) (priority k).
Definition set_sleep_ticks (n : Z) (k : KThread) : KThread :=
  mkKThread (ctx k) (worker k) (state k) n (exit_code k) (joined k) (priority k).
Definition set_joined (b : bool) (k : KThread) : KThread :=
  mkKThread (ctx k) (worker k) (state k) (sleep_ticks k) (exit_code k) b (priority k).
Definition set_priority (p : ThreadPriority) (k : KThread) : KThread :=
  mkKThread (ctx k) (worker k) (state k) (sleep_ticks k) (exit_code k) (joined k) p.

(** [struct KThreadScheduler].  [threads] holds the [count] slots in use of
    the array; the slots between [count] and [capacity] are not modelled, and
    reading one of them is [None]. *)
Record KThreadScheduler := mkKThreadScheduler {
  threads : list ptr;
  capacity : nat;
  current_index : nat;
}.

Definition count (s : KThreadScheduler) : nat := length (threads s).

(** The state the emulated backend works on: the heap of thread objects, the
    global [g_scheduler], the static [next_id] of [CreateKThread], and a
    record of the workers invoked so far (the addresses of their threads, in
    invocation order), which the code does not have. *)
Record KWorld := mkKWorld {
  kheap : gmap Z KThread;
  g_scheduler : KThreadScheduler;
  next_id : Z;
  klog : list ptr;
}.

Definition set_kheap (h : gmap Z KThread) (w : KWorld) : KWorld :=
  mkKWorld h (g_scheduler w) (next_id w) (klog w).
Definition set_threads (ts : list ptr) (w : KWorld) : KWorld :=
  mkKWorld (kheap w)
    (mkKThreadScheduler ts (capacity (g_scheduler w)) (current_index (g_scheduler w)))
    (next_id w) (klog w).
Definition set_capacity (c : nat) (w : KWorld) : KWorld :=
  mkKWorld (kheap w)
    (mkKThreadScheduler (threads (g_scheduler w)) c (current_index (g_scheduler w)))
    (next_id w) (klog w).
Definition set_current_index (i : nat) (w : KWorld) : KWorld :=
  mkKWorld (kheap w)
    (mkKThreadScheduler (threads (g_scheduler w)) (capacity (g_scheduler w)) i)
    (next_id w) (klog w).
Definition set_next_id (n : Z) (w : KWorld) : KWorld :=
  mkKWorld (kheap w) (g_scheduler w) n (klog w).
Definition log_invocation (t : ptr) (w : KWorld) : KWorld :=
  mkKWorld (kheap w) (g_scheduler w) (next_id w) (klog w ++ [t]).

(** [*t = f( *t )] on the thread heap, undefined for a null or dangling [t]. *)
Definition update_thread (t : ptr) (f : KThread → KThread) (w : KWorld) : option KWorld :=
  if is_null t then None
  else k ← kheap w !! t; Some (set_kheap (<[t := f k]> (kheap w)) w).

(** The allocator oracle. *)
Definition Alloc := list ptr.

Definition malloc (a : Alloc) : ptr * Alloc :=
  match a with
  | [] => (NULL, [])
  | p :: a' => (p, a')
  end.

(** ** src/platform/emulated/kthread.h: operations that run no worker *)

Module Emulated.

(** [while (new_capacity < min_capacity) new_capacity *= 2;] *)
Fixpoint grow_capacity (fuel new_capacity min_capacity : nat) : nat :=
  match fuel with
  | O => new_capacity
  | S fuel' =>
      if new_capacity <? min_capacity
      then grow_capacity fuel' (new_capacity * 2) min_capacity
      else new_capacity
  end.

(** The table grows by doubling; [DIESEL_MEM_REALLOC] takes one answer of the
    allocator, and a null answer leaves the table as it is. *)
Definition ensure_capacity (min_capacity : nat) (a : Alloc) (w : KWorld)
  : bool * Alloc * KWorld :=
  if min_capacity <=? capacity (g_scheduler w) then (true, a, w)
  else
    let new_capacity :=
      if capacity (g_scheduler w) =? 0 then 4 else capacity (g_scheduler w) * 2 in
    let new_capacity := grow_capacity min_capacity new_capacity min_capacity in
    let '(new_threads, a') := malloc a in
    if is_null new_threads then (false, a', w)
    else (true, a', set_capacity new_capacity w).

(** The new thread is Ready, not joined, of Default priority, and goes to
    the end of the table; its ID is the value of the static counter. *)
Definition CreateKThread (worker : KThreadWorker) (user_ptr : ptr) (a : Alloc) (w : KWorld)
  : ptr * Alloc * KWorld :=
  let '(ok, a1, w1) := ensure_capacity (count (g_scheduler w) + 1) a w in
  if negb ok then (NULL, a1, w1)
  else
    let '(t, a2) := malloc a1 in
    if is_null t then (NULL, a2, w1)
    else
      let k := mkKThread (mkContext (next_id w1) user_ptr) worker
                 KTHREAD_READY 0 0 false THREAD_PRIORITY_DEFAULT in
      let w2 := set_next_id ((next_id w1 + 1) mod 2 ^ 64)%Z w1 in
      let w3 := set_kheap (<[t := k]> (kheap w2)) w2 in
      (t, a2, set_threads (threads (g_scheduler w3) ++ [t]) w3).

Definition SetKThreadPriority (thread : ptr) (priority : ThreadPriority) (w : KWorld)
  : option (bool * KWorld) :=
  if is_null thread then Some (false, w)
  else w' ← update_thread thread (set_priority priority) w; Some (true, w').

Definition StartKThread (thread : ptr) (w : KWorld) : option (bool * KWorld) :=
  if is_null thread then Some (false, w)
  else
    k ← kheap w !! thread;
    if bool_decide (state k = KTHREAD_READY)
    then w' ← update_thread thread (set_state KTHREAD_RUNNING) w; Some (true, w')
    else Some (false, w).

(** [YieldKThread] and [SleepKThread] act on the entry under the cursor
    [current_index]. *)
Definition YieldKThread (w : KWorld) : option KWorld :=
  if count (g_scheduler w) =? 0 then Some w
  else
    t ← threads (g_scheduler w) !! current_index (g_scheduler w);
    if is_null t then Some w
    else
      k ← kheap w !! t;
      if bool_decide (state k = KTHREAD_RUNNING)
      then update_thread t (set_state KTHREAD_READY) w
      else Some w.

Definition SleepKThread (ticks : Z) (w : KWorld) : option KWorld :=
  if count (g_scheduler w) =? 0 then Some w
  else
    t ← threads (g_scheduler w) !! current_index (g_scheduler w);
    if is_null t then Some w
    else
      update_thread t (λ k, set_state KTHREAD_SLEEPING (set_sleep_ticks ticks k)) w.

(** [DestroyKThread] marks the entry Done and frees nothing; the tick
    reclaims the entries that are Done and not joined. *)
Definition DestroyKThread (thread : ptr) (w : KWorld) : option (bool * KWorld) :=
  if is_null thread then Some (false, w)
  else w' ← update_thread thread (set_state KTHREAD_DONE) w; Some (true, w').

(** The body of a user worker, one interface call after the other. *)
Definition run_op (op : KOp) (w : KWorld) : option KWorld :=
  match op with
  | OpYield => YieldKThread w
  | OpSleep ticks => SleepKThread ticks w
  | OpSetPriority t p => snd <$> SetKThreadPriority t p w
  | OpStart t => snd <$> StartKThread t w
  | OpDestroy t => snd <$> DestroyKThread t w
  end.

Fixpoint run_ops (body : list KOp) (w : KWorld) : option KWorld :=
  match body with
  | [] => Some w
  | op :: body' => w' ← run_op op w; run_ops body' w'
  end.

End Emulated.

(** ** Results of code that loops

    A loop of the source takes a bound on the number of its iterations.
    [Timeout] says the bound was reached, [Undefined] that the code ran into
    undefined behaviour; a call that is [Timeout] for every bound does not
    return. *)

Inductive Res (A : Type) :=
  | Ok (a : A)
  | Undefined
  | Timeout.
Arguments Ok {A} a.
Arguments Undefined {A}.
Arguments Timeout {A}.

Global Instance Res_ret : MRet Res := λ A a, Ok a.
Global Instance Res_bind : MBind Res := λ A B f m,
  match m with
  | Ok a => f a
  | Undefined => Undefined
  | Timeout => Timeout
  end.

Definition defined {A} (o : option A) : Res A :=
  match o with
  | Some a => Ok a
  | None => Undefined
  end.

(** ** src/fiber.h: data *)

(** The body of a fiber, as the interface calls it makes. *)
Inductive FOp :=
  | FYield
  | FSleep (ms : Z)
  | FRun (f : ptr)
  | FSetPriority (f : ptr) (priority : ThreadPriority).

Definition FiberWorker := list FOp.

Record Fiber := mkFiber {
  f_ctx : Context;
  f_worker : FiberWorker;
  f_priority : ThreadPriority;
  finished : bool;
  next : ptr;
}.

Definition set_next (n : ptr) (k : Fiber) : Fiber :=
  mkFiber (f_ctx k) (f_worker k) (f_priority k) (finished k) n.
Definition set_finished (b : bool) (k : Fiber) : Fiber :=
  mkFiber (f_ctx k) (f_worker k) (f_priority k) b (next k).
Definition set_f_priority (p : ThreadPriority) (k : Fiber) : Fiber :=
  mkFiber (f_ctx k) (f_worker k) p (finished k) (next k).

(** [struct FiberSystem].  [workers] is [None] for a null array pointer and
    the array otherwise. *)
Record FiberSystem := mkFiberSystem {
  run_queue : ptr;
  workers : option (list ptr);
  worker_count : Z;
  running : bool;
}.

(** The fiber side of the state: the heap of fibers, the global
    [g_fiber_system], and a record of the fiber bodies invoked so far. *)
Record FWorld := mkFWorld {
  fheap : gmap Z Fiber;
  g_fiber_system : FiberSystem;
  flog : list ptr;
}.

Definition set_fheap (h : gmap Z Fiber) (fw : FWorld) : FWorld :=
  mkFWorld h (g_fiber_system fw) (flog fw).
Definition set_run_queue (q : ptr) (fw : FWorld) : FWorld :=
  mkFWorld (fheap fw)
    (mkFiberSystem q (workers (g_fiber_system fw)) (worker_count (g_fiber_system fw))
       (running (g_fiber_system fw)))
    (flog fw).
Definition set_workers (ws : option (list ptr)) (fw : FWorld) : FWorld :=
  mkFWorld (fheap fw)
    (mkFiberSystem (run_queue (g_fiber_system fw)) ws (worker_count (g_fiber_system fw))
       (running (g_fiber_system fw)))
    (flog fw).
Definition set_worker_count (n : Z) (fw : FWorld) : FWorld :=
  mkFWorld (fheap fw)
    (mkFiberSystem (run_queue (g_fiber_system fw)) (workers (g_fiber_system fw)) n
       (running (g_fiber_system fw)))
    (flog fw).
Definition set_running (b : bool) (fw : FWorld) : FWorld :=
  mkFWorld (fheap fw)
    (mkFiberSystem (run_queue (g_fiber_system fw)) (workers (g_fiber_system fw))
       (worker_count (g_fiber_system fw)) b)
    (flog fw).
Definition log_fiber (f : ptr) (fw : FWorld) : FWorld :=
  mkFWorld (fheap fw) (g_fiber_system fw) (flog fw ++ [f]).

(** [f->field], undefined for a null or dangling [f]. *)
Definition deref_fiber (f : ptr) (fw : FWorld) : option Fiber :=
  if is_null f then None else fheap fw !! f.

Definition update_fiber (f : ptr) (g : Fiber → Fiber) (fw : FWorld) : option FWorld :=
  k ← deref_fiber f fw;
  Some (set_fheap (<[f := g k]> (fheap fw)) fw).

(** The whole state: both sides. *)
Record World := mkWorld {
  kw : KWorld;
  fw : FWorld;
}.

Definition set_kw (k : KWorld) (w : World) : World := mkWorld k (fw w).
Definition set_fw (f : FWorld) (w : World) : World := mkWorld (kw w) f.

(** ** src/fiber.h: the run queue and the fiber operations *)

Module Fiber.

(** [FiberDatLoad(&g_fiber_system.run_queue)] *)
Definition FiberDatLoad_run_queue (fw : FWorld) : ptr :=
  run_queue (g_fiber_system fw).

(** [__sync_bool_compare_and_swap(&g_fiber_system.run_queue, expected, desired)] *)
Definition cas_run_queue (expected desired : ptr) (fw : FWorld) : bool * FWorld :=
  if (run_queue (g_fiber_system fw) =? expected)%Z
  then (true, set_run_queue desired fw)
  else (false, fw).

(** [PopFiber] and [PushFiber]: one pass of the [do ... while] loop for each
    unit of [fuel]; a pass whose compare-and-swap fails is followed by
    another. *)
Fixpoint PopFiber (fuel : nat) (fw : FWorld) : Res (ptr * FWorld) :=
  match fuel with
  | O => Timeout
  | S fuel' =>
      let f := FiberDatLoad_run_queue fw in
      if is_null f then Ok (NULL, fw)
      else
        k ← defined (deref_fiber f fw);
        let '(swapped, fw') := cas_run_queue f (next k) fw in
        if swapped then Ok (f, fw') else PopFiber fuel' fw'
  end.

Fixpoint PushFiber (fuel : nat) (f : ptr) (fw : FWorld) : Res FWorld :=
  match fuel with
  | O => Timeout
  | S fuel' =>
      let head := FiberDatLoad_run_queue fw in
      fw1 ← defined (update_fiber f (set_next head) fw);
      let '(swapped, fw2) := cas_run_queue head f fw1 in
      if swapped then Ok fw2 else PushFiber fuel' f fw2
  end.

Definition CreateNewFiber (fuel : nat) (worker : FiberWorker) (user_data : ptr)
    (a : Alloc) (fw : FWorld) : Res (ptr * Alloc * FWorld) :=
  let '(f, a') := malloc a in
  if is_null f then Ok (NULL, a', fw)
  else
    let k := mkFiber (mkContext f user_data) worker THREAD_PRIORITY_DEFAULT false NULL in
    fw' ← PushFiber fuel f (set_fheap (<[f := k]> (fheap fw)) fw);
    Ok (f, a', fw').

Definition SetFiberPriority (f : ptr) (priority : ThreadPriority) (fw : FWorld)
  : option FWorld :=
  if is_null f then Some fw else update_fiber f (set_f_priority priority) fw.

Definition RunFiber (fuel : nat) (f : ptr) (fw : FWorld) : Res FWorld :=
  if is_null f then Ok fw
  else
    k ← defined (deref_fiber f fw);
    if finished k then Ok fw else PushFiber fuel f fw.

Definition YieldFiber (w : World) : option World :=
  k ← Emulated.YieldKThread (kw w); Some (set_kw k w).

Definition SleepFiber (ms : Z) (w : World) : option World :=
  k ← Emulated.SleepKThread ms (kw w); Some (set_kw k w).

Definition DestroyFiber (f : ptr) (fw : FWorld) : option FWorld :=
  if is_null f then Some fw
  else _ ← fheap fw !! f; Some (set_fheap (delete f (fheap fw)) fw).

(** The loop of [JoinFiber]: [while (!f->finished) YieldFiber();] *)
Fixpoint join_fiber_loop (fuel : nat) (f : ptr) (w : World) : Res World :=
  match fuel with
  | O => Timeout
  | S fuel' =>
      k ← defined (deref_fiber f (fw w));
      if finished k then Ok w
      else w' ← defined (YieldFiber w); join_fiber_loop fuel' f w'
  end.

Definition JoinFiber (fuel : nat) (f : ptr) (w : World) : Res World :=
  if is_null f then Ok w else join_fiber_loop fuel f w.

(** [f->worker(&f->ctx)]: the body of a fiber. *)
Definition run_fop (fuel : nat) (op : FOp) (w : World) : Res World :=
  match op with
  | FYield => defined (YieldFiber w)
  | FSleep ms => defined (SleepFiber ms w)
  | FRun f => f' ← RunFiber fuel f (fw w); Ok (set_fw f' w)
  | FSetPriority f p => f' ← defined (SetFiberPriority f p (fw w)); Ok (set_fw f' w)
  end.

Fixpoint run_fops (fuel : nat) (body : list FOp) (w : World) : Res World :=
  match body with
  | [] => Ok w
  | op :: body' => w' ← run_fop fuel op w; run_fops fuel body' w'
  end.

Fixpoint FiberSchedulerLoop (fuel : nat) (w : World) : Res World :=
  match fuel with
  | O => Timeout
  | S fuel' =>
      if running (g_fiber_system (fw w)) then
        '(f, fw1) ← PopFiber (S fuel') (fw w);
        let w1 := set_fw fw1 w in
        if is_null f then
          k ← defined (Emulated.SleepKThread 1 (kw w1));
          FiberSchedulerLoop fuel' (set_kw k w1)
        else
          fb ← defined (deref_fiber f (fw w1));
          if finished fb then FiberSchedulerLoop fuel' w1
          else
            w2 ← run_fops (S fuel') (f_worker fb) (set_fw (log_fiber f (fw w1)) w1);
            fw3 ← defined (update_fiber f (set_finished true) (fw w2));
            FiberSchedulerLoop fuel' (set_fw fw3 w2)
      else Ok w
  end.

End Fiber.

(** ** src/platform/emulated/kthread.h: the scheduling tick and [JoinKThread];
       src/fiber.h: [InitFiberSys] and [ShutdownFiberSys] *)

Module Scheduler.

Section WithEnumRepr.

(** How the implementation represents [enum ThreadPriority]. *)
Variable r : EnumRepr.

(** Lines 136-139: a sleeping entry counts one tick down and wakes at zero. *)
Definition age_sleeper (k : KThread) : option KThread :=
  if bool_decide (state k = KTHREAD_SLEEPING) then
    if (sleep_ticks k =? INT_MIN)%Z then None
    else
      let k' := set_sleep_ticks (sleep_ticks k - 1)%Z k in
      Some (if (sleep_ticks k' <=? 0)%Z then set_state KTHREAD_READY k' else k')
  else Some k.

(** Lines 132-145: the loop that ages the sleepers and looks for the best
    ready entry; [i] is the index of the head of [ts]. *)
Fixpoint tick_scan (h : gmap Z KThread) (ts : list ptr) (i : nat)
    (best_index : option nat) (best_prio : Z)
  : option (gmap Z KThread * option nat * Z) :=
  match ts with
  | [] => Some (h, best_index, best_prio)
  | t :: ts' =>
      if is_null t then tick_scan h ts' (S i) best_index best_prio
      else
        k ← h !! t;
        k1 ← age_sleeper k;
        let h1 := <[t := k1]> h in
        if bool_decide (state k1 = KTHREAD_READY) && (best_prio <? prio_val (priority k1))%Z
        then tick_scan h1 ts' (S i) (Some i) (prio_val (priority k1))
        else tick_scan h1 ts' (S i) best_index best_prio
  end.

(** [ThreadPriority best_prio = THREAD_PRIORITY_LOW - 1] *)
Definition initial_best_prio : Z :=
  enum_conv r (prio_val THREAD_PRIORITY_LOW - 1)%Z.

(** [t->worker(&t->ctx)] *)
Definition call_worker (fuel : nat) (wk : KThreadWorker) (w : World) : Res World :=
  match wk with
  | Worker_User body => k ← defined (Emulated.run_ops body (kw w)); Ok (set_kw k w)
  | Worker_FiberSchedulerLoop => Fiber.FiberSchedulerLoop fuel w
  end.

(** Lines 152-153: the state the tick leaves on the entry it ran. *)
Definition state_after_worker (s : KThreadState) : KThreadState :=
  if bool_decide (s = KTHREAD_RUNNING) then KTHREAD_READY
  else if bool_decide (s ≠ KTHREAD_SLEEPING) then KTHREAD_DONE
  else s.

(** Lines 147-154, for [best_index != SIZE_MAX]. *)
Definition tick_run (fuel : nat) (best_index : nat) (w : World) : Res World :=
  let w1 := set_kw (set_current_index best_index (kw w)) w in
  t ← defined (threads (g_scheduler (kw w1)) !! best_index);
  k1 ← defined (update_thread t (set_state KTHREAD_RUNNING) (kw w1));
  k ← defined (kheap k1 !! t);
  w2 ← call_worker fuel (worker k) (set_kw (log_invocation t k1) w1);
  k2 ← defined (update_thread t (λ k, set_state (state_after_worker (state k)) k) (kw w2));
  Ok (set_kw k2 w2).

(** Lines 157-167: free the entries that are done and not joined, and close
    the gaps they leave in the table. *)
Fixpoint tick_cleanup (h : gmap Z KThread) (ts : list ptr)
  : option (gmap Z KThread * list ptr) :=
  match ts with
  | [] => Some (h, [])
  | t :: ts' =>
      if is_null t then '(h', l) ← tick_cleanup h ts'; Some (h', t :: l)
      else
        k ← h !! t;
        if bool_decide (state k = KTHREAD_DONE) && negb (joined k)
        then tick_cleanup (delete t h) ts'
        else '(h', l) ← tick_cleanup h ts'; Some (h', t :: l)
  end.

Definition KThreadTick (fuel : nat) (w : World) : Res World :=
  if count (g_scheduler (kw w)) =? 0 then Ok w
  else
    '(h1, best_index, _) ←
      defined (tick_scan (kheap (kw w)) (threads (g_scheduler (kw w))) 0 None
                 initial_best_prio);
    let w1 := set_kw (set_kheap h1 (kw w)) w in
    w2 ← match best_index with
          | Some i => tick_run fuel i w1
          | None => Ok w1
          end;
    '(h3, ts3) ← defined (tick_cleanup (kheap (kw w2)) (threads (g_scheduler (kw w2))));
    Ok (set_kw (set_threads ts3 (set_kheap h3 (kw w2))) w2).

(** The loop of [JoinKThread]: [while (thread->state != KTHREAD_DONE) KThreadTick();] *)
Fixpoint join_loop (fuel : nat) (thread : ptr) (w : World) : Res (Z * World) :=
  match fuel with
  | O => Timeout
  | S fuel' =>
      k ← defined (kheap (kw w) !! thread);
      if bool_decide (state k = KTHREAD_DONE) then Ok (exit_code k, w)
      else w' ← KThreadTick fuel' w; join_loop fuel' thread w'
  end.

Definition JoinKThread (fuel : nat) (thread : ptr) (w : World) : Res (Z * World) :=
  if is_null thread then Ok ((-1)%Z, w)
  else
    k ← defined (update_thread thread (set_joined true) (kw w));
    join_loop fuel thread (set_kw k w).

(** The loop of [InitFiberSys]; [i] is the loop variable and [n] the number
    of iterations left. *)
Fixpoint init_workers (n i : nat) (priority : ThreadPriority) (a : Alloc) (w : World)
  : Res (Alloc * World) :=
  match n with
  | O => Ok (a, w)
  | S n' =>
      let '(t, a1, k1) := Emulated.CreateKThread Worker_FiberSchedulerLoop NULL a (kw w) in
      ws ← defined (workers (g_fiber_system (fw w)));
      let w1 := mkWorld k1 (set_workers (Some (<[i := t]> ws)) (fw w)) in
      '(_, k2) ← defined (Emulated.SetKThreadPriority t priority (kw w1));
      '(_, k3) ← defined (Emulated.StartKThread t k2);
      init_workers n' (S i) priority a1 (set_kw k3 w1)
  end.

(** The array of handles comes from the allocator; its slots (shown as null
    here) are written in index order by the loop before anything reads
    them.  No allocation result is tested. *)
Definition InitFiberSys (worker_threads : Z) (priority : ThreadPriority)
    (a : Alloc) (w : World) : Res (Alloc * World) :=
  let n := if (worker_threads >? 0)%Z then worker_threads else 4%Z in
  let f1 := set_worker_count n (fw w) in
  let '(p, a1) := malloc a in
  let f2 :=
    set_workers (if is_null p then None else Some (replicate (Z.to_nat n) NULL)) f1 in
  let f3 := set_running true (set_run_queue NULL f2) in
  init_workers (Z.to_nat n) 0 priority a1 (set_fw f3 w).

(** The loop of [ShutdownFiberSys]. *)
Fixpoint shutdown_workers (fuel : nat) (n i : nat) (w : World) : Res World :=
  match n with
  | O => Ok w
  | S n' =>
      ws ← defined (workers (g_fiber_system (fw w)));
      t ← defined (ws !! i);
      '(_, w1) ← JoinKThread fuel t w;
      '(_, k2) ← defined (Emulated.DestroyKThread t (kw w1));
      shutdown_workers fuel n' (S i) (set_kw k2 w1)
  end.

(** The array of handles is freed and its pointer set to null; the queue
    head is set to null with the fibers it leads to left as they are. *)
Definition ShutdownFiberSys (fuel : nat) (w : World) : Res World :=
  let w0 := set_fw (set_running false (fw w)) w in
  w1 ← shutdown_workers fuel (Z.to_nat (worker_count (g_fiber_system (fw w0)))) 0 w0;
  Ok (set_fw (set_run_queue NULL (set_workers None (fw w1))) w1).

End WithEnumRepr.

End Scheduler.

(** ** src/platform/unix/kthread.h

    The POSIX backend hands the work to the operating system.  The calls it
    makes are parameters of the model: each is a function on an abstract
    state [OS] of the operating system. *)

Module Unix.

Section WithOS.

Variable OS : Type.
Variable pthread_join : Z → OS → Z * OS.
Variable pthread_cond_destroy : ptr → OS → OS.
Variable pthread_mutex_destroy : ptr → OS → OS.
Variable pthread_mutex_lock : ptr → OS → OS.
Variable pthread_mutex_unlock : ptr → OS → OS.
Variable pthread_cond_signal : ptr → OS → OS.
Variable pthread_getschedparam : Z → OS → Z * Z * Z.
Variable sched_get_priority_min : Z → Z.
Variable sched_get_priority_max : Z → Z.
Variable pthread_setschedparam : Z → Z → Z → OS → Z * OS.

(** [struct KThread]; [start_mtx] and [start_cv] live in the state of the
    operating system, under the address of the thread object. *)
Record KThread := mkKThread {
  thread : Z;
  started : bool;
  finished : bool;
  worker : KThreadWorker;
  ctx : ptr;
}.

Definition set_started (b : bool) (k : KThread) : KThread :=
  mkKThread (thread k) b (finished k) (worker k) (ctx k).

(** The heap of thread objects, the heap of their contexts, and the
    operating system. *)
Record UWorld := mkUWorld {
  uthreads : gmap Z KThread;
  uctxs : gmap Z Context;
  os : OS;
}.

Definition set_os (o : OS) (w : UWorld) : UWorld :=
  mkUWorld (uthreads w) (uctxs w) o.

(** [DIESEL_MEM_FREE(p)] on a heap: undefined unless [p] is a live object. *)
Definition free {A} (p : ptr) (h : gmap Z A) : option (gmap Z A) :=
  _ ← h !! p; Some (delete p h).

Definition DestroyKThread (t : ptr) (w : UWorld) : option (bool * UWorld) :=
  if is_null t then Some (false, w)
  else
    k ← uthreads w !! t;
    let '(_, o1) := pthread_join (thread k) (os w) in
    let o2 := pthread_cond_destroy t o1 in
    let o3 := pthread_mutex_destroy t o2 in
    cs ← (if is_null (ctx k) then Some (uctxs w) else free (ctx k) (uctxs w));
    ts ← free t (uthreads w);
    Some (true, mkUWorld ts cs o3).

Definition SetKThreadPriority (t : ptr) (priority : ThreadPriority) (w : UWorld)
  : option (bool * UWorld) :=
  if is_null t then Some (false, w)
  else
    k ← uthreads w !! t;
    let '(res, policy, _) := pthread_getschedparam (thread k) (os w) in
    if negb (res =? 0)%Z then Some (false, w)
    else
      let min := sched_get_priority_min policy in
      let max := sched_get_priority_max policy in
      let prio :=
        match priority with
        | THREAD_PRIORITY_LOW => min
        | THREAD_PRIORITY_DEFAULT => ((min + max) ÷ 2)%Z
        | THREAD_PRIORITY_HIGH => max
        end in
      let '(res', o') := pthread_setschedparam (thread k) policy prio (os w) in
      Some ((res' =? 0)%Z, set_os o' w).

Definition StartKThread (t : ptr) (w : UWorld) : option (bool * UWorld) :=
  if is_null t then Some (false, w)
  else
    k ← uthreads w !! t;
    let o1 := pthread_mutex_lock t (os w) in
    let ts := <[t := set_started true k]> (uthreads w) in
    let o2 := pthread_cond_signal t o1 in
    let o3 := pthread_mutex_unlock t o2 in
    Some (true, mkUWorld ts (uctxs w) o3).

Definition JoinKThread (t : ptr) (w : UWorld) : option (Z * UWorld) :=
  if is_null t then Some ((-1)%Z, w)
  else
    k ← uthreads w !! t;
    let '(res, o') := pthread_join (thread k) (os w) in
    if negb (res =? 0)%Z then Some ((-1)%Z, set_os o' w)
    else Some (0%Z, set_os o' w).

(** The calls of [CreateKThread], [YieldKThread] and [SleepKThread].
    [pthread_create] gives its result and the identifier of the thread it
    started. *)
Variable pthread_mutex_init : ptr → OS → OS.
Variable pthread_cond_init : ptr → OS → OS.
Variable pthread_create : ptr → OS → Z * Z * OS.
Variable sched_yield : OS → OS.
Variable nanosleep : Z → Z → OS → OS.

(** [CreateKThread].  The two blocks come from the allocator with whatever
    they held before: [junk] is the content of the thread block and [junk_id]
    that of the [ID] field of the context, which no line of the function
    writes.  The attribute object is local to the call. *)
Definition CreateKThread (worker : KThreadWorker) (user_ptr : ptr)
    (junk : KThread) (junk_id : Z) (a : Alloc) (w : UWorld)
  : option (ptr * Alloc * UWorld) :=
  let '(t, a1) := malloc a in
  if is_null t then Some (NULL, a1, w)
  else
    let ts0 := <[t := junk]> (uthreads w) in
    let '(c, a2) := malloc a1 in
    if is_null c then
      ts ← free t ts0;
      Some (NULL, a2, mkUWorld ts (uctxs w) (os w))
    else
      let cs1 := <[c := mkContext junk_id user_ptr]> (uctxs w) in
      let ts1 := <[t := mkKThread (thread junk) false false worker c]> ts0 in
      let o1 := pthread_mutex_init t (os w) in
      let o2 := pthread_cond_init t o1 in
      let '(res, tid, o3) := pthread_create t o2 in
      if negb (res =? 0)%Z then
        let o4 := pthread_cond_destroy t o3 in
        let o5 := pthread_mutex_destroy t o4 in
        cs ← free c cs1;
        ts ← free t ts1;
        Some (NULL, a2, mkUWorld ts cs o5)
      else
        Some (t, a2, mkUWorld (<[t := mkKThread tid false false worker c]> ts1) cs1 o3).

Definition YieldKThread (w : UWorld) : UWorld := set_os (sched_yield (os w)) w.

(** [SleepKThread]: the division and the remainder of C truncate towards
    zero. *)
Definition SleepKThread (delay_ms : Z) (w : UWorld) : UWorld :=
  let tv_sec := (delay_ms ÷ 1000)%Z in
  let tv_nsec := ((delay_ms `rem` 1000) * 1000000)%Z in
  set_os (nanosleep tv_sec tv_nsec (os w)) w.

End WithOS.

End Unix.

(** ** src/platform/*/ksync.h: the mutex under interleaving

    [N] threads run [for (k = 0; k < C; ++k) { LockKMutex(m); counter++;
    UnlockKMutex(m); }] on one mutex [m] and one shared counter.  A state of
    the system is the mutex word, the counter and the control point of each
    thread; a step is one atomic action of one thread (an atomic operation on
    the mutex word, a call into the operating system, a load or a store of
    the counter), and the threads interleave in any order. *)

Module KSync.

(** The three interchangeable mutexes: the futex lock of
    src/platform/unix/ksync.h, the mutex of the operating system
    ([pthread_mutex_t], a critical section or a mutex handle), and the no-op of
    src/platform/emulated/ksync.h. *)
Inductive MutexImpl := FutexMutex | NativeMutex | EmulatedMutex.

(** Control points inside [LockKMutex]. *)
Inductive LockPC :=
  | LockFast     (* the first compare-and-swap (or the operating system's lock) *)
  | SlowLoad     (* while (atomic_load(&mutex->state) != 0) *)
  | SlowWait     (* _futex_wait(&mutex->state, 1) *)
  | Parked       (* asleep in the kernel inside the wait *)
  | SlowCas.     (* expected = 0; the second compare-and-swap *)

(** Control points inside [UnlockKMutex]. *)
Inductive UnlockPC :=
  | UnlockStore  (* atomic_store(&mutex->state, 0) (or the operating system's unlock) *)
  | UnlockWake.  (* _futex_wake(&mutex->state, 1) *)

(** Control points of a thread. *)
Inductive PC :=
  | LoopHead
  | Locking (l : LockPC)
  | ReadCounter    (* tmp = counter *)
  | WriteCounter   (* counter = tmp + 1 *)
  | Unlocking (u : UnlockPC)
  | Finished.

Record Proc := mkProc {
  pc : PC;
  iterations : nat;
  tmp : Z;
}.

Record MState := mkMState {
  mutex_state : Z;
  counter : Z;
  procs : list Proc;
}.

(** One atomic action of [LockKMutex] at control point [l] on the mutex word
    [word].  [None]: the thread is blocked.  [Some (None, word')]: the call
    returns, holding the mutex.  [Some (Some l', word')]: the call goes on at
    [l'].  The mutex of the operating system is taken at its contract: locking
    is possible when the mutex is free, and takes it. *)
Definition LockKMutex (impl : MutexImpl) (l : LockPC) (word : Z)
  : option (option LockPC * Z) :=
  match impl with
  | FutexMutex =>
      match l with
      | LockFast => Some (if (word =? 0)%Z then (None, 1%Z) else (Some SlowLoad, word))
      | SlowLoad => Some (if negb (word =? 0)%Z then Some SlowWait else Some SlowCas, word)
      | SlowWait => Some (if (word =? 1)%Z then Some Parked else Some SlowLoad, word)
      | Parked => None
      | SlowCas => Some (if (word =? 0)%Z then (None, 1%Z) else (Some SlowLoad, word))
      end
  | NativeMutex =>
      match l with
      | LockFast => if (word =? 0)%Z then Some (None, 1%Z) else None
      | _ => None
      end
  | EmulatedMutex =>
      match l with
      | LockFast => Some (None, word)
      | _ => None
      end
  end.

(** One atomic action of [UnlockKMutex]: the next control point ([None] when
    the call returns), the mutex word, and whether a wake-up is issued. *)
Definition UnlockKMutex (impl : MutexImpl) (u : UnlockPC) (word : Z)
  : option (option UnlockPC * Z * bool) :=
  match impl with
  | FutexMutex =>
      match u with
      | UnlockStore => Some (Some UnlockWake, 0%Z, false)
      | UnlockWake => Some (None, word, true)
      end
  | NativeMutex =>
      match u with
      | UnlockStore => Some (None, 0%Z, false)
      | UnlockWake => None
      end
  | EmulatedMutex =>
      match u with
      | UnlockStore => Some (None, word, false)
      | UnlockWake => None
      end
  end.

Definition goto (c : PC) (p : Proc) : Proc := mkProc c (iterations p) (tmp p).

(** One atomic action of the thread [p]: its next state, the mutex word, the
    counter, and whether a wake-up is issued. *)
Definition thread_step (impl : MutexImpl) (C : nat) (p : Proc) (word cnt : Z)
  : option (Proc * Z * Z * bool) :=
  match pc p with
  | LoopHead =>
      Some (goto (if iterations p <? C then Locking LockFast else Finished) p,
            word, cnt, false)
  | Locking l =>
      '(l', word') ← LockKMutex impl l word;
      Some (goto (match l' with Some l' => Locking l' | None => ReadCounter end) p,
            word', cnt, false)
  | ReadCounter => Some (mkProc WriteCounter (iterations p) cnt, word, cnt, false)
  | WriteCounter => Some (goto (Unlocking UnlockStore) p, word, (tmp p + 1)%Z, false)
  | Unlocking u =>
      '(u', word', wake) ← UnlockKMutex impl u word;
      Some (match u' with
            | Some u' => goto (Unlocking u') p
            | None => mkProc LoopHead (S (iterations p)) (tmp p)
            end, word', cnt, wake)
  | Finished => None
  end.

Definition is_parked (p : Proc) : bool :=
  match pc p with
  | Locking Parked => true
  | _ => false
  end.

(** A thread asleep in the wait returns to the test of the [while] loop. *)
Definition wake_up (j : nat) (ps : list Proc) : option (list Proc) :=
  q ← ps !! j;
  if is_parked q then Some (<[j := goto (Locking SlowLoad) q]> ps) else None.

(** What happens next: thread [i] takes a step (and [woken], if any, is the
    sleeper its wake-up reaches: the kernel wakes at most one), or the
    sleeper [j] wakes up on its own. *)
Inductive Label :=
  | Run (i : nat) (woken : option nat)
  | SpuriousWake (j : nat).

Definition step (impl : MutexImpl) (C : nat) (lbl : Label) (s : MState) : option MState :=
  match lbl with
  | Run i woken =>
      p ← procs s !! i;
      '(p', word', cnt', wake) ← thread_step impl C p (mutex_state s) (counter s);
      let ps := <[i := p']> (procs s) in
      let ps' :=
        match wake, woken with
        | true, Some j => default ps (wake_up j ps)
        | _, _ => ps
        end in
      Some (mkMState word' cnt' ps')
  | SpuriousWake j =>
      ps ← wake_up j (procs s); Some (mkMState (mutex_state s) (counter s) ps)
  end.

Fixpoint exec (impl : MutexImpl) (C : nat) (lbls : list Label) (s : MState)
  : option MState :=
  match lbls with
  | [] => Some s
  | lbl :: lbls' => s' ← step impl C lbl s; exec impl C lbls' s'
  end.

Definition init (N : nat) : MState :=
  mkMState 0 0 (replicate N (mkProc LoopHead 0 0)).

(** Thread [p] holds the mutex: it is between the return of [LockKMutex] and
    the store of [UnlockKMutex]. *)
Definition holds (p : Proc) : Z :=
  match pc p with
  | ReadCounter | WriteCounter | Unlocking UnlockStore => 1
  | _ => 0
  end.

(** The increments thread [p] has made. *)
Definition contrib (p : Proc) : Z :=
  (Z.of_nat (iterations p) + match pc p with Unlocking _ => 1 | _ => 0 end)%Z.

Definition total (f : Proc → Z) (ps : list Proc) : Z :=
  foldr (λ p acc, f p + acc)%Z 0%Z ps.

Definition holders (s : MState) : Z := total holds (procs s).

Definition all_finished (s : MState) : Prop :=
  Forall (λ p, pc p = Finished) (procs s).

Definition iter_ok (C : nat) (p : Proc) : Prop :=
  iterations p ≤ C
  ∧ (pc p = Finished → iterations p = C)
  ∧ (pc p ≠ LoopHead → pc p ≠ Finished → iterations p < C).

(** The invariant of the system. *)
Definition inv (C : nat) (s : MState) : Prop :=
  mutex_state s = holders s
  ∧ (0 ≤ holders s ≤ 1)%Z
  ∧ counter s = total contrib (procs s)
  ∧ (∀ j q, procs s !! j = Some q → pc q = WriteCounter → tmp q = counter s)
  ∧ Forall (iter_ok C) (procs s).

(** Two threads, one iteration each, with contention on the futex lock:
    thread 0 takes the lock, thread 1 fails both compare-and-swaps' worth of
    tests and parks, thread 0 increments, unlocks and wakes thread 1, which
    then takes the lock and finishes. *)
Definition contended_schedule : list Label :=
  [ Run 0 None; Run 1 None; Run 0 None; Run 1 None; Run 1 None; Run 1 None;
    Run 0 None; Run 0 None; Run 0 None; Run 0 (Some 1); Run 0 None;
    Run 1 None; Run 1 None; Run 1 None; Run 1 None; Run 1 None; Run 1 None;
    Run 1 None ].

(** The no-op mutex under the same interleaving freedom: both threads read
    the counter before either writes it. *)
Definition racy_schedule : list Label :=
  [ Run 0 None; Run 1 None; Run 0 None; Run 1 None; Run 0 None; Run 1 None;
    Run 0 None; Run 1 None; Run 0 None; Run 1 None; Run 0 None; Run 1 None ].

(** One thread after the other, for the mutex of the operating system. *)
Definition sequential_schedule : list Label :=
  [ Run 0 None; Run 0 None; Run 0 None; Run 0 None; Run 0 None; Run 0 None;
    Run 1 None; Run 1 None; Run 1 None; Run 1 None; Run 1 None; Run 1 None ].

End KSync.

(** * The vocabulary of the properties, and sample states *)

(** The table of the scheduler holds each live thread once, and every
    sleeping entry can still count down.  [CreateKThread] appends a freshly
    allocated thread, so the tables the interface builds are of this kind. *)
Fixpoint table_okb (h : gmap Z KThread) (ts : list ptr) : bool :=
  match ts with
  | [] => true
  | t :: ts' =>
      (is_null t
       || (match h !! t with
           | Some k =>
               negb (bool_decide (state k = KTHREAD_SLEEPING) && (sleep_ticks k =? INT_MIN)%Z)
           | None => false
           end
           && negb (existsb (Z.eqb t) ts')))
      && table_okb h ts'
  end.

Definition ageable (k : KThread) : Prop :=
  state k = KTHREAD_SLEEPING → sleep_ticks k ≠ INT_MIN.

Fixpoint distinct_nonnull (ts : list ptr) : Prop :=
  match ts with
  | [] => True
  | t :: ts' => (t ≠ NULL → t ∉ ts') ∧ distinct_nonnull ts'
  end.

Definition entries_valid (h : gmap Z KThread) (ts : list ptr) : Prop :=
  ∀ t, t ∈ ts → t ≠ NULL → ∃ k, h !! t = Some k ∧ ageable k.

(** Entry [j] of the table [ts] is Ready with priority value [q]. *)
Definition ready_at (h : gmap Z KThread) (ts : list ptr) (j : nat) (q : Z) : Prop :=
  ∃ t k, ts !! j = Some t ∧ t ≠ NULL ∧ h !! t = Some k
         ∧ state k = KTHREAD_READY ∧ prio_val (priority k) = q.

(** [best] is the choice the specification describes among the entries of
    [ts]: a Ready entry of the highest priority value, the first of them in
    table order; no choice when no entry is Ready. *)
Definition best_ready (h : gmap Z KThread) (ts : list ptr) (best : option nat) : Prop :=
  match best with
  | Some b =>
      ∃ p, ready_at h ts b p
           ∧ ∀ j q, ready_at h ts j q → (q ≤ p)%Z ∧ (q = p → b ≤ j)
  | None => ∀ j q, ¬ ready_at h ts j q
  end.

(** What the scan knows after the entries [pre]: its candidate and the
    priority value it has to beat. *)
Definition scan_inv (h : gmap Z KThread) (pre : list ptr)
    (best : option nat) (bp : Z) : Prop :=
  match best with
  | Some b =>
      ready_at h pre b bp
      ∧ ∀ j q, ready_at h pre j q → (q ≤ bp)%Z ∧ (q = bp → b ≤ j)
  | None => bp = (-1)%Z ∧ ∀ j q, ¬ ready_at h pre j q
  end.

(** The calls a worker can make change thread objects only: the table, the
    cursor, the identifier counter and the invocation record stay. *)
Definition kframe (w w' : KWorld) : Prop :=
  klog w' = klog w ∧ g_scheduler w' = g_scheduler w ∧ next_id w' = next_id w.

(** The state of thread [t] once a step of the tick has returned. *)
Definition state_in (t : ptr) (res : Res World) : option KThreadState :=
  match res with
  | Ok w => state <$> kheap (kw w) !! t
  | _ => None
  end.

Definition empty_fworld : FWorld :=
  mkFWorld ∅ (mkFiberSystem NULL None 0 false) [].

Definition sample_thread (wk : KThreadWorker) (s : KThreadState) (ticks : Z)
    (j : bool) (p : ThreadPriority) : KThread :=
  mkKThread (mkContext 1 NULL) wk s ticks 0 j p.

(** One Ready thread at address 100 running [body]. *)
Definition one_thread_world (body : list KOp) (j : bool) : World :=
  mkWorld
    (mkKWorld {[ 100%Z := sample_thread (Worker_User body) KTHREAD_READY 0 j
                           THREAD_PRIORITY_DEFAULT ]}
       (mkKThreadScheduler [100%Z] 4 0) 2 [])
    empty_fworld.

(** Four threads in table order: Low, High and High, all Ready, and a
    Default sleeper with five ticks left. *)
Definition four_threads : gmap Z KThread :=
  <[ 100%Z := sample_thread (Worker_User []) KTHREAD_READY 0 true THREAD_PRIORITY_LOW ]>
  (<[ 200%Z := sample_thread (Worker_User []) KTHREAD_READY 0 true THREAD_PRIORITY_HIGH ]>
  (<[ 300%Z := sample_thread (Worker_User []) KTHREAD_READY 0 true THREAD_PRIORITY_HIGH ]>
  (<[ 400%Z := sample_thread (Worker_User []) KTHREAD_SLEEPING 5 true
                 THREAD_PRIORITY_DEFAULT ]> ∅))).

Definition four_thread_world : World :=
  mkWorld
    (mkKWorld four_threads (mkKThreadScheduler [100; 200; 300; 400]%Z 4 0) 5 [])
    empty_fworld.

(** A finished thread at address 100 that has been joined (emulated
    backend). *)
Definition done_joined_world : KWorld :=
  mkKWorld {[ 100%Z := sample_thread (Worker_User []) KTHREAD_DONE 0 true
                         THREAD_PRIORITY_DEFAULT ]}
    (mkKThreadScheduler [100%Z] 4 0) 2 [].

(** A POSIX-backend state with one thread object at address 100 and its
    context at address 200, over a trivial operating system. *)
Definition unix_one_thread : Unix.UWorld unit :=
  Unix.mkUWorld unit
    {[ 100%Z := Unix.mkKThread 7 true true (Worker_User []) 200 ]}
    {[ 200%Z := mkContext 0 NULL ]}
    tt.

(** The run queue, read from its head [p]: the fibers linked through
    [next], in order, down to the null pointer. *)
Inductive is_queue (h : gmap Z Fiber) : ptr → list ptr → Prop :=
  | is_queue_nil : is_queue h NULL []
  | is_queue_cons f k l :
      f ≠ NULL → h !! f = Some k → is_queue h (next k) l → is_queue h f (f :: l).

(** The queue of a fiber world. *)
Definition queue_of (fw : FWorld) (l : list ptr) : Prop :=
  is_queue (fheap fw) (run_queue (g_fiber_system fw)) l.

Definition sample_fiber (f : ptr) (done : bool) (n : ptr) : Fiber :=
  mkFiber (mkContext f NULL) [] THREAD_PRIORITY_DEFAULT done n.

(** A queue holding the fiber at 100 alone; the fiber at 300 is live, not
    finished and not queued, the one at 400 is finished. *)
Definition queue_100 : FWorld :=
  mkFWorld
    (<[ 100%Z := sample_fiber 100 false NULL ]>
     (<[ 300%Z := sample_fiber 300 false NULL ]>
     (<[ 400%Z := sample_fiber 400 true NULL ]> ∅)))
    (mkFiberSystem 100 None 0 true) [].

(** The allocator is going to answer every request of [a] with a non-null
    address that is not in use and that it has not handed out before. *)
Fixpoint supply_okb (h : gmap Z KThread) (a : Alloc) : bool :=
  match a with
  | [] => true
  | p :: a' =>
      negb (is_null p)
      && match h !! p with None => true | Some _ => false end
      && negb (existsb (Z.eqb p) a')
      && supply_okb h a'
  end.

Definition supply_ok (h : gmap Z KThread) (a : Alloc) : Prop :=
  NoDup a ∧ ∀ p, p ∈ a → p ≠ NULL ∧ h !! p = None.

(** The worker pool [InitFiberSys] is meant to leave behind: [n] distinct
    thread objects, each with the scheduler loop as its worker, priority [p],
    and started. *)
Definition pool_started (n : nat) (p : ThreadPriority) (w : World) : Prop :=
  ∃ l, workers (g_fiber_system (fw w)) = Some l
       ∧ length l = n
       ∧ NoDup l
       ∧ ∀ t, t ∈ l →
           t ≠ NULL
           ∧ ∃ k, kheap (kw w) !! t = Some k
                  ∧ worker k = Worker_FiberSchedulerLoop
                  ∧ priority k = p
                  ∧ state k = KTHREAD_RUNNING.

Definition empty_world : World :=
  mkWorld (mkKWorld ∅ (mkKThreadScheduler [] 0 0) 1 []) empty_fworld.

(** A fiber system whose one worker thread (at 52) has been destroyed
    already, with the fiber at 100 still queued and not finished. *)
Definition stopped_pool_world : World :=
  mkWorld
    (mkKWorld {[ 52%Z := sample_thread Worker_FiberSchedulerLoop KTHREAD_DONE 0 false
                           THREAD_PRIORITY_DEFAULT ]}
       (mkKThreadScheduler [52%Z] 4 0) 2 [])
    (mkFWorld {[ 100%Z := sample_fiber 100 false NULL ]}
       (mkFiberSystem 100 (Some [52%Z]) 1 true) []).

(** The state [InitFiberSys 1] builds from nothing, with the fiber at 100
    queued. *)
Definition fresh_pool_world : World :=
  match Scheduler.InitFiberSys 1 THREAD_PRIORITY_DEFAULT [50; 52; 53]%Z empty_world with
  | Ok (_, w) =>
      set_fw (set_run_queue 100
                (set_fheap {[ 100%Z := sample_fiber 100 false NULL ]} (fw w))) w
  | _ => empty_world
  end.

(** ** Vocabulary of the further properties *)

(** The garbage pass of the tick frees entry [t]: it is Done and nobody has
    joined it. *)
Definition reclaimable (h : gmap Z KThread) (t : ptr) : bool :=
  negb (is_null t)
  && match h !! t with
     | Some k => bool_decide (state k = KTHREAD_DONE) && negb (joined k)
     | None => false
     end.

(** [n] scans in a row, as one entry sees them. *)
Fixpoint age_n (n : nat) (k : KThread) : option KThread :=
  match n with
  | O => Some k
  | S n' => k' ← Scheduler.age_sleeper k; age_n n' k'
  end.

(** Nothing for a tick to do on entry [t]: it is null, or a live thread that
    is Running, or one that is Done and joined. *)
Definition idle_entry (h : gmap Z KThread) (t : ptr) : bool :=
  is_null t
  || match h !! t with
     | Some k =>
         bool_decide (state k = KTHREAD_RUNNING)
         || (bool_decide (state k = KTHREAD_DONE) && joined k)
     | None => false
     end.

Definition idle_table (h : gmap Z KThread) (ts : list ptr) : bool :=
  forallb (idle_entry h) ts.

(** A table of two started threads (at 100 and 200) and one that has
    finished and been joined (at 300). *)
Definition started_threads_world : World :=
  mkWorld
    (mkKWorld
       (<[ 100%Z := sample_thread (Worker_User []) KTHREAD_RUNNING 0 false
                      THREAD_PRIORITY_HIGH ]>
        (<[ 200%Z := sample_thread (Worker_User [OpYield]) KTHREAD_RUNNING 0 false
                       THREAD_PRIORITY_LOW ]>
        (<[ 300%Z := sample_thread (Worker_User []) KTHREAD_DONE 0 true
                       THREAD_PRIORITY_DEFAULT ]> ∅)))
       (mkKThreadScheduler [100; 200; 300]%Z 4 0) 4 [])
    empty_fworld.

(** A table with a Done entry nobody joined (at 200) between two others. *)
Definition table_with_garbage : gmap Z KThread :=
  <[ 100%Z := sample_thread (Worker_User []) KTHREAD_RUNNING 0 false
                 THREAD_PRIORITY_HIGH ]>
  (<[ 200%Z := sample_thread (Worker_User []) KTHREAD_DONE 0 false
                  THREAD_PRIORITY_LOW ]>
  (<[ 300%Z := sample_thread (Worker_User []) KTHREAD_DONE 0 true
                  THREAD_PRIORITY_DEFAULT ]> ∅)).

(** Every thread object of [h] is still allocated in [h'], with its joined
    flag as it was. *)
Definition hkeep (h h' : gmap Z KThread) : Prop :=
  ∀ x k, h !! x = Some k → ∃ k', h' !! x = Some k' ∧ joined k' = joined k.

(** [PushFiber] on each fiber of [fs] in turn, and [n] calls of [PopFiber]
    with the fibers they return. *)
Fixpoint push_all (fuel : nat) (fs : list ptr) (fw : FWorld) : Res FWorld :=
  match fs with
  | [] => Ok fw
  | f :: fs' => fw' ← Fiber.PushFiber fuel f fw; push_all fuel fs' fw'
  end.

Fixpoint pop_n (fuel : nat) (n : nat) (fw : FWorld) : Res (list ptr * FWorld) :=
  match n with
  | O => Ok ([], fw)
  | S n' =>
      '(f, fw1) ← Fiber.PopFiber fuel fw;
      '(l, fw2) ← pop_n fuel n' fw1;
      Ok (f :: l, fw2)
  end.

(** The body of the loop of [FiberSchedulerLoop] (src/fiber.h, lines 85-94):
    one pop and what follows it. *)
Definition scheduler_pass (fuel : nat) (w : World) : Res World :=
  '(f, fw1) ← Fiber.PopFiber fuel (fw w);
  let w1 := set_fw fw1 w in
  if is_null f then
    k ← defined (Emulated.SleepKThread 1 (kw w1));
    Ok (set_kw k w1)
  else
    fb ← defined (deref_fiber f (fw w1));
    if finished fb then Ok w1
    else
      w2 ← Fiber.run_fops fuel (f_worker fb) (set_fw (log_fiber f (fw w1)) w1);
      fw3 ← defined (update_fiber f (set_finished true) (fw w2));
      Ok (set_fw fw3 w2).

(** Every fiber of [h] is still allocated in [h'], and finished there if it
    was finished. *)
Definition fkeep (h h' : gmap Z Fiber) : Prop :=
  ∀ g k, h !! g = Some k →
         ∃ k', h' !! g = Some k' ∧ (finished k = true → finished k' = true).

(** A fiber that resubmits itself from its own body, queued at 100. *)
Definition resubmitting_fiber_world : World :=
  mkWorld (kw empty_world)
    (mkFWorld
       {[ 100%Z := mkFiber (mkContext 100 NULL) [FRun 100] THREAD_PRIORITY_DEFAULT
                     false NULL ]}
       (mkFiberSystem 100 None 0 true) []).

(** An operating system that records the calls made into it, for the POSIX
    backend. *)
Inductive OsCall :=
  | Call_mutex_init (t : ptr)
  | Call_cond_init (t : ptr)
  | Call_create (t : ptr)
  | Call_mutex_lock (t : ptr)
  | Call_cond_signal (t : ptr)
  | Call_mutex_unlock (t : ptr)
  | Call_join (thread : Z)
  | Call_cond_destroy (t : ptr)
  | Call_mutex_destroy (t : ptr)
  | Call_setschedparam (thread policy prio : Z)
  | Call_nanosleep (tv_sec tv_nsec : Z).

Definition log_call (c : OsCall) (o : list OsCall) : list OsCall := o ++ [c].

(** No thread objects, no contexts, no call made yet. *)
Definition unix_empty : Unix.UWorld (list OsCall) := Unix.mkUWorld _ ∅ ∅ [].

(** [unix_one_thread] over the recording operating system. *)
Definition unix_logged_thread : Unix.UWorld (list OsCall) :=
  Unix.mkUWorld _
    {[ 100%Z := Unix.mkKThread 7 true true (Worker_User []) 200 ]}
    {[ 200%Z := mkContext 0 NULL ]}
    [].

(** ** The futex lock with the wake-ups of the kernel

    [step] lets a wake-up reach nobody and lets a sleeper wake on its own.
    The kernel promises more for the first and less for the second:
    [FUTEX_WAKE] of one waiter wakes a sleeper when there is one.
    [kernel_wake_ok] marks the steps that keep to that, with no sleeper waking
    on its own, and [exec_kernel] runs a schedule made of such steps. *)

Definition kernel_wake_ok (impl : KSync.MutexImpl) (C : nat) (lbl : KSync.Label)
    (s : KSync.MState) : bool :=
  match lbl with
  | KSync.Run i woken =>
      match p ← KSync.procs s !! i;
            KSync.thread_step impl C p (KSync.mutex_state s) (KSync.counter s) with
      | Some (p', _, _, true) =>
          let ps := <[i := p']> (KSync.procs s) in
          match woken with
          | Some j => bool_decide (KSync.is_parked <$> ps !! j = Some true)
          | None => negb (existsb KSync.is_parked ps)
          end
      | _ => true
      end
  | KSync.SpuriousWake _ => false
  end.

Fixpoint exec_kernel (impl : KSync.MutexImpl) (C : nat) (lbls : list KSync.Label)
    (s : KSync.MState) : option KSync.MState :=
  match lbls with
  | [] => Some s
  | lbl :: lbls' =>
      if kernel_wake_ok impl C lbl s
      then s' ← KSync.step impl C lbl s; exec_kernel impl C lbls' s'
      else None
  end.

(** A thread that is inside [LockKMutex] past its first test and not asleep,
    inside the critical section, or inside [UnlockKMutex]. *)
Definition active (p : KSync.Proc) : bool :=
  match KSync.pc p with
  | KSync.Locking KSync.SlowLoad | KSync.Locking KSync.SlowWait
  | KSync.Locking KSync.SlowCas
  | KSync.ReadCounter | KSync.WriteCounter | KSync.Unlocking _ => true
  | _ => false
  end.

(** While a thread sleeps in the wait, another one is on its way to wake
    it. *)
Definition waker_on_its_way (s : KSync.MState) : Prop :=
  existsb KSync.is_parked (KSync.procs s) = true →
  existsb active (KSync.procs s) = true.

(** * Properties *)

(** ** Well-formed thread tables *)

Lemma is_null_true p : is_null p = true ↔ p = NULL.
Proof. unfold is_null. apply Z.eqb_eq. Qed.

Lemma is_null_false p : is_null p = false ↔ p ≠ NULL.
Proof. unfold is_null. apply Z.eqb_neq. Qed.

Lemma existsb_eqb_false (t : Z) (l : list Z) :
  existsb (Z.eqb t) l = false → t ∉ l.
Proof.
  induction l as [|x l IH]; simpl; intros H.
  - apply not_elem_of_nil.
  - apply orb_false_iff in H as [Hx Hl].
    apply not_elem_of_cons. split; [by apply Z.eqb_neq | auto].
Qed.

Lemma table_okb_distinct h ts : table_okb h ts = true → distinct_nonnull ts.
Proof.
  induction ts as [|t ts IH]; simpl; [done|].
  intros H. apply andb_true_iff in H as [H1 H2]. split; [|auto].
  intros Hn. apply orb_true_iff in H1 as [H1|H1].
  - apply is_null_true in H1. done.
  - apply andb_true_iff in H1 as [_ H1].
    apply existsb_eqb_false. by apply negb_true_iff.
Qed.

Lemma table_okb_valid h ts : table_okb h ts = true → entries_valid h ts.
Proof.
  induction ts as [|t ts IH]; simpl; intros H x Hx Hn.
  - by apply elem_of_nil in Hx.
  - apply andb_true_iff in H as [H1 H2].
    apply elem_of_cons in Hx as [->|Hx]; [|by apply IH].
    apply orb_true_iff in H1 as [H1|H1]; [by apply is_null_true in H1|].
    apply andb_true_iff in H1 as [H1 _].
    destruct (h !! t) as [k|]; [|done].
    exists k. split; [done|]. intros Hs Ht.
    rewrite bool_decide_eq_true_2 in H1 by done.
    apply Z.eqb_eq in Ht. by rewrite Ht in H1.
Qed.

(** ** The scan of the tick *)

Lemma ready_at_snoc h pre t j q :
  ready_at h (pre ++ [t]) j q ↔
  ready_at h pre j q
  ∨ (j = length pre ∧ t ≠ NULL
     ∧ ∃ k, h !! t = Some k ∧ state k = KTHREAD_READY ∧ prio_val (priority k) = q).
Proof.
  unfold ready_at. split.
  - intros (x & k & Hj & Hn & Hk & Hs & Hp).
    apply lookup_snoc_Some in Hj as [[Hlt Hj]|[-> ->]]; [left|right]; eauto 10.
  - intros [(x & k & Hj & Hn & Hk & Hs & Hp)|(-> & Hn & k & Hk & Hs & Hp)].
    + exists x, k. split_and!; try done. apply lookup_app_l_Some. done.
    + exists t, k. split_and!; try done.
      rewrite lookup_app_r by lia. by rewrite Nat.sub_diag.
Qed.

Lemma ready_at_heap_eq h h' ts j q :
  (∀ x, x ∈ ts → x ≠ NULL → h' !! x = h !! x) →
  ready_at h' ts j q ↔ ready_at h ts j q.
Proof.
  intros Heq. unfold ready_at.
  split; intros (x & k & Hj & Hn & Hk & Hs & Hp); exists x, k; split_and!; try done.
  - rewrite <- Heq; [done| |done]. by eapply list_elem_of_lookup_2.
  - rewrite Heq; [done| |done]. by eapply list_elem_of_lookup_2.
Qed.

Lemma prio_val_nonneg p : (0 ≤ prio_val p)%Z.
Proof. destruct p; simpl; lia. Qed.

Lemma age_sleeper_awake k :
  state k ≠ KTHREAD_SLEEPING → Scheduler.age_sleeper k = Some k.
Proof. intros H. unfold Scheduler.age_sleeper. by rewrite bool_decide_eq_false_2. Qed.

Lemma age_sleeper_total k :
  ageable k → ∃ k1, Scheduler.age_sleeper k = Some k1 ∧ ageable k1
                    ∧ priority k1 = priority k ∧ worker k1 = worker k
                    ∧ joined k1 = joined k.
Proof.
  intros Ha. unfold Scheduler.age_sleeper. case_bool_decide as Hs.
  - specialize (Ha Hs). apply Z.eqb_neq in Ha as Ha'. rewrite Ha'.
    eexists. split; [done|]. simpl.
    destruct (sleep_ticks k - 1 <=? 0)%Z eqn:E; unfold ageable; simpl;
      split_and!; try done.
    intros _. apply Z.leb_gt in E. unfold INT_MIN. lia.
  - eauto 10.
Qed.

Lemma tick_scan_inv ts :
  ∀ pre h best bp,
    (∀ x, x ∈ pre → x ≠ NULL → x ∉ ts) →
    distinct_nonnull ts →
    entries_valid h ts →
    scan_inv h pre best bp →
    ∃ h' best' bp',
      Scheduler.tick_scan h ts (length pre) best bp = Some (h', best', bp')
      ∧ scan_inv h' (pre ++ ts) best' bp'
      ∧ (∀ x, x ∉ ts → h' !! x = h !! x)
      ∧ (∀ x k, h !! x = Some k → state k ≠ KTHREAD_SLEEPING → h' !! x = Some k)
      ∧ (∀ x, is_Some (h' !! x) ↔ is_Some (h !! x))
      ∧ (∀ x k', h' !! x = Some k' →
           ∃ k, h !! x = Some k ∧ worker k' = worker k ∧ joined k' = joined k).
Proof.
  induction ts as [|t ts IH]; intros pre h best bp Hpre Hd Hv Hinv; simpl.
  - exists h, best, bp. rewrite app_nil_r. split_and!; eauto.
  - assert (Hshift : ∀ l : list Z, (l ++ [t]) ++ ts = l ++ t :: ts)
      by (intros l; by rewrite <- app_assoc).
    destruct Hd as [Hd1 Hd2].
    destruct (is_null t) eqn:Hnull.
    + apply is_null_true in Hnull.
      destruct (IH (pre ++ [t]) h best bp) as (h' & best' & bp' & Hs & Hi & Hf & Hk & Hdom & Hw).
      * intros x Hx Hn. apply elem_of_app in Hx as [Hx|Hx].
        -- specialize (Hpre x Hx Hn). by apply not_elem_of_cons in Hpre as [_ ?].
        -- apply list_elem_of_singleton in Hx. congruence.
      * done.
      * intros x Hx. apply Hv. by right.
      * destruct best as [b|]; simpl in *.
        -- destruct Hinv as [Hb Hmax]. split.
           ++ apply ready_at_snoc. by left.
           ++ intros j q Hr. apply ready_at_snoc in Hr as [Hr|(_ & Hn & _)]; [eauto|done].
        -- destruct Hinv as [Hbp Hno]. split; [done|].
           intros j q Hr. apply ready_at_snoc in Hr as [Hr|(_ & Hn & _)]; [by eapply Hno|done].
      * rewrite length_app in Hs. simpl in Hs. rewrite Nat.add_1_r in Hs.
        exists h', best', bp'. rewrite Hshift in Hi. split_and!; try done.
        intros x Hx. apply Hf. by apply not_elem_of_cons in Hx as [_ ?].
    + apply is_null_false in Hnull.
      destruct (Hv t) as (k & Hk & Hage); [by left|done|].
      rewrite Hk. simpl.
      destruct (age_sleeper_total k Hage) as (k1 & Hk1 & Hage1 & Hprio1 & Hwk1 & Hj1).
      rewrite Hk1. simpl.
      set (h1 := <[t := k1]> h).
      assert (Hpre_eq : ∀ x, x ∈ pre → x ≠ NULL → h1 !! x = h !! x).
      { intros x Hx Hn. unfold h1. apply lookup_insert_ne.
        intros ->. specialize (Hpre x Hx Hn). apply Hpre. by left. }
      assert (Hv1 : entries_valid h1 ts).
      { intros x Hx Hn. destruct (decide (x = t)) as [->|Hne].
        - by specialize (Hd1 Hnull).
        - unfold h1. rewrite lookup_insert_ne by done. apply Hv; [by right|done]. }
      assert (Hpre1 : ∀ x, x ∈ pre ++ [t] → x ≠ NULL → x ∉ ts).
      { intros x Hx Hn. apply elem_of_app in Hx as [Hx|Hx].
        - specialize (Hpre x Hx Hn). by apply not_elem_of_cons in Hpre as [_ ?].
        - apply list_elem_of_singleton in Hx. subst. by apply Hd1. }
      assert (Hfin : ∀ best1 bp1,
        scan_inv h1 (pre ++ [t]) best1 bp1 →
        ∃ h' best' bp',
          Scheduler.tick_scan h1 ts (S (length pre)) best1 bp1 = Some (h', best', bp')
          ∧ scan_inv h' (pre ++ t :: ts) best' bp'
          ∧ (∀ x, x ∉ t :: ts → h' !! x = h !! x)
          ∧ (∀ x k, h !! x = Some k → state k ≠ KTHREAD_SLEEPING → h' !! x = Some k)
          ∧ (∀ x, is_Some (h' !! x) ↔ is_Some (h !! x))
          ∧ (∀ x k', h' !! x = Some k' →
               ∃ k, h !! x = Some k ∧ worker k' = worker k ∧ joined k' = joined k)).
      { intros best1 bp1 Hinv1.
        destruct (IH (pre ++ [t]) h1 best1 bp1 Hpre1 Hd2 Hv1 Hinv1)
          as (h' & best' & bp' & Hs & Hi & Hf & Hkk & Hdom & Hw).
        rewrite length_app in Hs. simpl in Hs. rewrite Nat.add_1_r in Hs.
        exists h', best', bp'. rewrite Hshift in Hi. split_and!; try done.
        - intros x Hx. apply not_elem_of_cons in Hx as [Hne Hx].
          rewrite Hf by done. unfold h1. by rewrite lookup_insert_ne.
        - intros x kx Hx Hsx. apply Hkk; [|done]. unfold h1.
          destruct (decide (x = t)) as [->|Hne].
          + rewrite lookup_insert_eq. rewrite Hk in Hx. injection Hx as <-.
            rewrite age_sleeper_awake in Hk1 by done. done.
          + by rewrite lookup_insert_ne.
        - intros x. rewrite Hdom. unfold h1.
          destruct (decide (x = t)) as [->|Hne].
          + rewrite lookup_insert_eq, Hk. split; eauto.
          + by rewrite lookup_insert_ne.
        - intros x k' Hx. destruct (Hw x k' Hx) as (k0 & Hk0 & Hw0 & Hj0).
          unfold h1 in Hk0. destruct (decide (x = t)) as [->|Hne].
          + rewrite lookup_insert_eq in Hk0. injection Hk0 as <-.
            exists k. split_and!; [done|congruence|congruence].
          + rewrite lookup_insert_ne in Hk0 by done. eauto. }
      assert (Hht : h1 !! t = Some k1) by (unfold h1; apply lookup_insert_eq).
      destruct (bool_decide (state k1 = KTHREAD_READY)) eqn:Hready; simpl.
      * apply bool_decide_eq_true in Hready.
        destruct (bp <? prio_val (priority k1))%Z eqn:Hlt.
        -- apply Z.ltb_lt in Hlt. apply Hfin. simpl. split.
           ++ apply ready_at_snoc. right. split_and!; try done. eauto.
           ++ intros j q Hr. apply ready_at_snoc in Hr as [Hr|(-> & _ & k' & Hk' & _ & Hq)].
              ** apply (ready_at_heap_eq h h1) in Hr; [|done].
                 destruct best as [b|]; simpl in Hinv.
                 --- destruct Hinv as [_ Hmax]. destruct (Hmax j q Hr) as [Hle _]. lia.
                 --- destruct Hinv as [_ Hno]. by apply Hno in Hr.
              ** rewrite Hht in Hk'. injection Hk' as <-. lia.
        -- apply Z.ltb_ge in Hlt. apply Hfin.
           destruct best as [b|]; simpl in *.
           ++ destruct Hinv as [Hb Hmax]. split.
              ** apply ready_at_snoc. left. by apply (ready_at_heap_eq h h1).
              ** intros j q Hr.
                 apply ready_at_snoc in Hr as [Hr|(-> & _ & k' & Hk' & _ & Hq)].
                 --- apply (ready_at_heap_eq h h1) in Hr; [|done]. eauto.
                 --- rewrite Hht in Hk'. injection Hk' as <-. split; [lia|].
                     intros _. destruct Hb as (x & kx & Hx & _).
                     apply lookup_lt_Some in Hx. lia.
           ++ destruct Hinv as [-> _]. pose proof (prio_val_nonneg (priority k1)). lia.
      * apply bool_decide_eq_false in Hready. apply Hfin.
        destruct best as [b|]; simpl in *.
        -- destruct Hinv as [Hb Hmax]. split.
           ++ apply ready_at_snoc. left. by apply (ready_at_heap_eq h h1).
           ++ intros j q Hr.
              apply ready_at_snoc in Hr as [Hr|(-> & _ & k' & Hk' & Hs' & _)].
              ** apply (ready_at_heap_eq h h1) in Hr; [|done]. eauto.
              ** rewrite Hht in Hk'. injection Hk' as <-. done.
        -- destruct Hinv as [Hbp Hno]. split; [done|].
           intros j q Hr.
           apply ready_at_snoc in Hr as [Hr|(-> & _ & k' & Hk' & Hs' & _)].
           ++ apply (ready_at_heap_eq h h1) in Hr; [|done]. by eapply Hno.
           ++ rewrite Hht in Hk'. injection Hk' as <-. done.
Qed.

(** ** Inversion of results *)

Lemma bind_Ok {A B} (m : Res A) (f : A → Res B) (b : B) :
  m ≫= f = Ok b → ∃ a, m = Ok a ∧ f a = Ok b.
Proof. destruct m as [a| |]; simpl; [eauto|done|done]. Qed.

Lemma defined_Ok {A} (o : option A) (a : A) : defined o = Ok a → o = Some a.
Proof. destruct o; simpl; congruence. Qed.

Lemma defined_Some {A} (o : option A) (a : A) : o = Some a → defined o = Ok a.
Proof. by intros ->. Qed.

(** Splits a hypothesis [m ≫= f = Ok b] into its two steps, repeatedly. *)
Ltac res_inv H :=
  repeat match type of H with
    | Ok _ = Ok _ => injection H as H; try subst
    | defined _ = Ok _ => apply defined_Ok in H
    | _ ≫= _ = Ok _ =>
        let a := fresh "a" in
        let Ha := fresh "Hstep" in
        apply bind_Ok in H as (a & Ha & H);
        try apply defined_Ok in Ha
    end.

(** ** What the interface calls leave alone *)

Lemma kframe_refl w : kframe w w.
Proof. by unfold kframe. Qed.

Lemma kframe_trans w1 w2 w3 : kframe w1 w2 → kframe w2 w3 → kframe w1 w3.
Proof. unfold kframe. intros (-> & -> & ->) (-> & -> & ->). done. Qed.

Lemma update_thread_Some t f w w' :
  update_thread t f w = Some w' →
  t ≠ NULL ∧ ∃ k, kheap w !! t = Some k ∧ w' = set_kheap (<[t := f k]> (kheap w)) w.
Proof.
  unfold update_thread. destruct (is_null t) eqn:E; [done|].
  apply is_null_false in E. destruct (kheap w !! t) as [k|]; simpl; [|done].
  intros [= <-]. eauto.
Qed.

Lemma update_thread_kframe t f w w' : update_thread t f w = Some w' → kframe w w'.
Proof. intros (_ & k & _ & ->)%update_thread_Some. by unfold kframe. Qed.

Lemma YieldKThread_kframe w w' : Emulated.YieldKThread w = Some w' → kframe w w'.
Proof.
  unfold Emulated.YieldKThread. intros H.
  destruct (count (g_scheduler w) =? 0); [injection H as <-; apply kframe_refl|].
  destruct (threads (g_scheduler w) !! current_index (g_scheduler w)) as [t|];
    simpl in H; [|done].
  destruct (is_null t); [injection H as <-; apply kframe_refl|].
  destruct (kheap w !! t) as [k|]; simpl in H; [|done].
  case_bool_decide.
  - by eapply update_thread_kframe.
  - injection H as <-; apply kframe_refl.
Qed.

Lemma SleepKThread_kframe n w w' : Emulated.SleepKThread n w = Some w' → kframe w w'.
Proof.
  unfold Emulated.SleepKThread. intros H.
  destruct (count (g_scheduler w) =? 0); [injection H as <-; apply kframe_refl|].
  destruct (threads (g_scheduler w) !! current_index (g_scheduler w)) as [t|];
    simpl in H; [|done].
  destruct (is_null t); [injection H as <-; apply kframe_refl|].
  by eapply update_thread_kframe.
Qed.

Lemma SetKThreadPriority_kframe t p w b w' :
  Emulated.SetKThreadPriority t p w = Some (b, w') → kframe w w'.
Proof.
  unfold Emulated.SetKThreadPriority. intros H.
  destruct (is_null t); [injection H as <- <-; apply kframe_refl|].
  destruct (update_thread t (set_priority p) w) as [w1|] eqn:E; simpl in H; [|done].
  injection H as <- <-. by eapply update_thread_kframe.
Qed.

Lemma StartKThread_kframe t w b w' :
  Emulated.StartKThread t w = Some (b, w') → kframe w w'.
Proof.
  unfold Emulated.StartKThread. intros H.
  destruct (is_null t); [injection H as <- <-; apply kframe_refl|].
  destruct (kheap w !! t) as [k|]; simpl in H; [|done].
  case_bool_decide; [|injection H as <- <-; apply kframe_refl].
  destruct (update_thread t (set_state KTHREAD_RUNNING) w) as [w1|] eqn:E;
    simpl in H; [|done].
  injection H as <- <-. by eapply update_thread_kframe.
Qed.

Lemma DestroyKThread_kframe t w b w' :
  Emulated.DestroyKThread t w = Some (b, w') → kframe w w'.
Proof.
  unfold Emulated.DestroyKThread. intros H.
  destruct (is_null t); [injection H as <- <-; apply kframe_refl|].
  destruct (update_thread t (set_state KTHREAD_DONE) w) as [w1|] eqn:E;
    simpl in H; [|done].
  injection H as <- <-. by eapply update_thread_kframe.
Qed.

Lemma run_op_kframe op w w' : Emulated.run_op op w = Some w' → kframe w w'.
Proof.
  destruct op; simpl; intros H.
  - by eapply YieldKThread_kframe.
  - by eapply SleepKThread_kframe.
  - destruct (Emulated.SetKThreadPriority thread priority0 w) as [[b w1]|] eqn:E;
      simpl in H; [|done].
    injection H as <-. by eapply SetKThreadPriority_kframe.
  - destruct (Emulated.StartKThread thread w) as [[b w1]|] eqn:E; simpl in H; [|done].
    injection H as <-. by eapply StartKThread_kframe.
  - destruct (Emulated.DestroyKThread thread w) as [[b w1]|] eqn:E; simpl in H; [|done].
    injection H as <-. by eapply DestroyKThread_kframe.
Qed.

Lemma run_ops_kframe body : ∀ w w', Emulated.run_ops body w = Some w' → kframe w w'.
Proof.
  induction body as [|op body IH]; simpl; intros w w' H.
  - injection H as <-. apply kframe_refl.
  - destruct (Emulated.run_op op w) as [w1|] eqn:E; simpl in H; [|done].
    eapply kframe_trans; [by eapply run_op_kframe|by apply IH].
Qed.

Lemma YieldFiber_Some w w' :
  Fiber.YieldFiber w = Some w' →
  fw w' = fw w ∧ Emulated.YieldKThread (kw w) = Some (kw w').
Proof.
  unfold Fiber.YieldFiber. destruct (Emulated.YieldKThread (kw w)) as [k|]; simpl; [|done].
  intros [= <-]. done.
Qed.

Lemma SleepFiber_Some ms w w' :
  Fiber.SleepFiber ms w = Some w' →
  fw w' = fw w ∧ Emulated.SleepKThread ms (kw w) = Some (kw w').
Proof.
  unfold Fiber.SleepFiber. destruct (Emulated.SleepKThread ms (kw w)) as [k|]; simpl; [|done].
  intros [= <-]. done.
Qed.

Lemma run_fop_kframe fuel op w w' :
  Fiber.run_fop fuel op w = Ok w' → kframe (kw w) (kw w').
Proof.
  destruct op; simpl; intros H.
  - apply defined_Ok, YieldFiber_Some in H as [_ H]. by eapply YieldKThread_kframe.
  - apply defined_Ok, SleepFiber_Some in H as [_ H]. by eapply SleepKThread_kframe.
  - res_inv H. apply kframe_refl.
  - res_inv H. apply kframe_refl.
Qed.

Lemma run_fops_kframe fuel body :
  ∀ w w', Fiber.run_fops fuel body w = Ok w' → kframe (kw w) (kw w').
Proof.
  induction body as [|op body IH]; simpl; intros w w' H.
  - injection H as <-. apply kframe_refl.
  - res_inv H. eapply kframe_trans; [by eapply run_fop_kframe|by apply IH].
Qed.

Lemma FiberSchedulerLoop_kframe fuel :
  ∀ w w', Fiber.FiberSchedulerLoop fuel w = Ok w' → kframe (kw w) (kw w').
Proof.
  induction fuel as [|fuel IH]; intros w w' H; [done|].
  cbn [Fiber.FiberSchedulerLoop] in H.
  destruct (running (g_fiber_system (fw w))); [|injection H as <-; apply kframe_refl].
  apply bind_Ok in H as ([f fw1] & Hpop & H).
  destruct (is_null f).
  - res_inv H. apply IH in H. simpl in H.
    eapply kframe_trans; [|exact H]. by eapply SleepKThread_kframe.
  - apply bind_Ok in H as (fb & Hfb & H).
    destruct (finished fb); [by apply IH in H|].
    res_inv H. apply IH in H. apply run_fops_kframe in Hstep. simpl in *.
    eapply kframe_trans; [exact Hstep|exact H].
Qed.

(** With the running flag down the scheduler loop returns at once and does
    nothing. *)
Lemma FiberSchedulerLoop_not_running fuel w :
  running (g_fiber_system (fw w)) = false →
  Fiber.FiberSchedulerLoop (S fuel) w = Ok w.
Proof. intros H. cbn [Fiber.FiberSchedulerLoop]. by rewrite H. Qed.

Lemma call_worker_kframe fuel wk w w' :
  Scheduler.call_worker fuel wk w = Ok w' → kframe (kw w) (kw w').
Proof.
  destruct wk as [|body]; simpl; intros H.
  - by eapply FiberSchedulerLoop_kframe.
  - res_inv H. simpl. by eapply run_ops_kframe.
Qed.

(** ** The garbage pass of the tick *)

Lemma tick_cleanup_total ts :
  ∀ h, distinct_nonnull ts →
       (∀ t, t ∈ ts → t ≠ NULL → is_Some (h !! t)) →
       ∃ h' l, Scheduler.tick_cleanup h ts = Some (h', l).
Proof.
  induction ts as [|t ts IH]; intros h Hd Hv; simpl; [eauto|].
  destruct Hd as [Hd1 Hd2].
  destruct (is_null t) eqn:Hnull.
  - destruct (IH h Hd2) as (h' & l & ->); [|simpl; eauto].
    intros x Hx. apply Hv. by right.
  - apply is_null_false in Hnull.
    destruct (Hv t) as [k Hk]; [by left|done|]. rewrite Hk. simpl.
    destruct (bool_decide (state k = KTHREAD_DONE) && negb (joined k)).
    + apply IH; [done|]. intros x Hx Hn.
      rewrite lookup_delete_ne; [apply Hv; [by right|done]|].
      intros <-. by apply Hd1.
    + destruct (IH h Hd2) as (h' & l & ->); [|simpl; eauto].
      intros x Hx. apply Hv. by right.
Qed.

Lemma tick_run_klog fuel i w w' :
  Scheduler.tick_run fuel i w = Ok w' →
  ∃ t, threads (g_scheduler (kw w)) !! i = Some t
       ∧ klog (kw w') = klog (kw w) ++ [t]
       ∧ threads (g_scheduler (kw w')) = threads (g_scheduler (kw w)).
Proof.
  unfold Scheduler.tick_run. intros H.
  apply bind_Ok in H as (t & Ht & H). apply defined_Ok in Ht.
  apply bind_Ok in H as (k1 & Hk1 & H). apply defined_Ok in Hk1.
  apply bind_Ok in H as (k & Hk & H).
  apply bind_Ok in H as (w2 & Hcall & H).
  apply bind_Ok in H as (k2 & Hk2 & H). apply defined_Ok in Hk2.
  injection H as <-.
  apply update_thread_kframe in Hk1 as (Hl1 & Hs1 & _).
  apply call_worker_kframe in Hcall as (Hl2 & Hs2 & _).
  apply update_thread_kframe in Hk2 as (Hl3 & Hs3 & _).
  simpl in *. exists t. split_and!.
  - done.
  - by rewrite Hl3, Hl2, Hl1.
  - by rewrite Hs3, Hs2, Hs1.
Qed.

(** The description of the choice determines it. *)
Lemma ready_at_priority h ts j q1 q2 :
  ready_at h ts j q1 → ready_at h ts j q2 → q1 = q2.
Proof.
  intros (t1 & k1 & Hj1 & _ & Hk1 & _ & Hq1) (t2 & k2 & Hj2 & _ & Hk2 & _ & Hq2).
  rewrite Hj1 in Hj2. injection Hj2 as <-. rewrite Hk1 in Hk2. injection Hk2 as <-.
  congruence.
Qed.

Lemma best_ready_unique h ts b1 b2 :
  best_ready h ts b1 → best_ready h ts b2 → b1 = b2.
Proof.
  destruct b1 as [i1|], b2 as [i2|]; simpl; try done.
  - intros (p1 & Hr1 & Hmax1) (p2 & Hr2 & Hmax2).
    destruct (Hmax1 i2 p2 Hr2) as [Hle1 Hi1].
    destruct (Hmax2 i1 p1 Hr1) as [Hle2 Hi2].
    assert (p1 = p2) as Heq by lia. f_equal.
    specialize (Hi1 (eq_sym Heq)). specialize (Hi2 Heq). lia.
  - intros (p1 & Hr1 & _) Hno. by apply Hno in Hr1.
  - intros Hno (p2 & Hr2 & _). by apply Hno in Hr2.
Qed.

(** With an unsigned enumeration the initial [best_prio] is the largest value
    of the type, no priority is above it, and the scan picks nothing. *)
Lemma tick_scan_high_bar ts :
  ∀ h i bp h' best bp',
    (2 ≤ bp)%Z →
    Scheduler.tick_scan h ts i None bp = Some (h', best, bp') → best = None.
Proof.
  induction ts as [|t ts IH]; simpl; intros h i bp h' best bp' Hbp H.
  - by injection H as _ <- _.
  - destruct (is_null t); [by eapply IH|].
    destruct (h !! t) as [k|]; simpl in H; [|done].
    destruct (Scheduler.age_sleeper k) as [k1|]; simpl in H; [|done].
    assert ((bp <? prio_val (priority k1))%Z = false) as Hlt.
    { apply Z.ltb_ge. destruct (priority k1); simpl; lia. }
    rewrite Hlt, andb_false_r in H. by eapply IH.
Qed.

Lemma unsigned_enum_selects_nothing h ts h' best bp' :
  Scheduler.tick_scan h ts 0 None (Scheduler.initial_best_prio EnumUnsigned)
    = Some (h', best, bp') →
  best = None.
Proof. apply tick_scan_high_bar. by vm_compute. Qed.

(** ** C2: the choice of the tick *)

(** What the scan does to the thread objects does not depend on the
    candidate it carries. *)
Lemma tick_scan_any_bar ts :
  ∀ h i best bp h' best' bp' best0 bp0,
    Scheduler.tick_scan h ts i best bp = Some (h', best', bp') →
    ∃ best0' bp0', Scheduler.tick_scan h ts i best0 bp0 = Some (h', best0', bp0').
Proof.
  induction ts as [|t ts IH]; simpl; intros h i best bp h' best' bp' best0 bp0 H.
  - injection H as <- _ _. eauto.
  - destruct (is_null t); [by eapply IH|].
    destruct (h !! t) as [k|]; simpl in *; [|done].
    destruct (Scheduler.age_sleeper k) as [k1|]; simpl in *; [|done].
    destruct (_ && _) in H; destruct (_ && _); by eapply IH.
Qed.

(** C2.  A tick of the emulated scheduler on a well-formed table, for each
    representation of [enum ThreadPriority].  The scan returns, and entries
    that were not asleep are as before.  With the enumeration represented as
    [int], the choice is the Ready entry of the highest priority value, the
    one of lowest index among equals, where Ready is judged once the scan
    has aged the sleepers; a table with a Ready entry always gets a choice; a
    tick that completes has invoked the worker of the chosen entry and no
    other; and when no entry is Ready the tick completes and invokes no
    worker.  With the enumeration represented as an unsigned type, the value
    [THREAD_PRIORITY_LOW - 1] of line 130 is the largest of the type, no
    priority is above it on line 141, and the tick chooses nothing: it
    completes and invokes no worker, whatever entries are Ready. *)
Theorem KThreadTick_selection_depends_on_enum_representation
    (r : EnumRepr) (fuel : nat) (w : World) :
  table_okb (kheap (kw w)) (threads (g_scheduler (kw w))) = true →
  ∃ h1 best bp,
    Scheduler.tick_scan (kheap (kw w)) (threads (g_scheduler (kw w))) 0 None
      (Scheduler.initial_best_prio r) = Some (h1, best, bp)
    ∧ (∀ x k, kheap (kw w) !! x = Some k → state k ≠ KTHREAD_SLEEPING → h1 !! x = Some k)
    ∧ match r with
      | EnumInt =>
          best_ready h1 (threads (g_scheduler (kw w))) best
          ∧ ((∃ j q, ready_at (kheap (kw w)) (threads (g_scheduler (kw w))) j q) →
             is_Some best)
          ∧ match best with
            | Some i =>
                ∀ w', Scheduler.KThreadTick EnumInt fuel w = Ok w' →
                      ∃ t, threads (g_scheduler (kw w)) !! i = Some t
                           ∧ klog (kw w') = klog (kw w) ++ [t]
            | None =>
                ∃ w', Scheduler.KThreadTick EnumInt fuel w = Ok w'
                      ∧ klog (kw w') = klog (kw w)
            end
      | EnumUnsigned =>
          best = None
          ∧ ∃ w', Scheduler.KThreadTick EnumUnsigned fuel w = Ok w'
                  ∧ klog (kw w') = klog (kw w)
      end.
Proof.
  intros Hok.
  pose proof (table_okb_distinct _ _ Hok) as Hd.
  pose proof (table_okb_valid _ _ Hok) as Hv.
  destruct (tick_scan_inv (threads (g_scheduler (kw w))) [] (kheap (kw w)) None (-1)%Z)
    as (h1 & best & bp & Hscan & Hinv & Hframe & Hkeep & Hdom & Hwk); try done.
  { intros x Hx. by apply elem_of_nil in Hx. }
  { split; [done|]. intros j q (t & k & Hj & _). by rewrite lookup_nil in Hj. }
  simpl in Hscan, Hinv.
  assert (Hclean : ∃ h3 l3,
             Scheduler.tick_cleanup h1 (threads (g_scheduler (kw w))) = Some (h3, l3)).
  { apply tick_cleanup_total; [done|].
    intros t Ht Hn. apply Hdom. destruct (Hv t Ht Hn) as (k & -> & _). eauto. }
  destruct r.
  - assert (Hbest : best_ready h1 (threads (g_scheduler (kw w))) best).
    { destruct best as [b|]; simpl in *.
      - exists bp. done.
      - by destruct Hinv. }
    exists h1, best, bp. split_and!; try done.
    + intros (j & q & t & k & Hj & Hn & Hk & Hs & Hq).
      destruct best as [b|]; [eauto|]. exfalso. simpl in Hbest.
      apply (Hbest j q). exists t, k. split_and!; try done.
      apply Hkeep; [done|]. by rewrite Hs.
    + unfold Scheduler.KThreadTick.
      destruct (count (g_scheduler (kw w)) =? 0) eqn:Hc.
      * apply Nat.eqb_eq in Hc. unfold count in Hc. apply nil_length_inv in Hc.
        rewrite Hc in Hscan. simpl in Hscan. injection Hscan as <- <- <-. eauto.
      * change (Scheduler.initial_best_prio EnumInt) with (-1)%Z.
        rewrite Hscan. simpl.
        destruct best as [i|].
        -- intros w' H.
           apply bind_Ok in H as (w2 & Hrun & H).
           apply bind_Ok in H as ([h3 ts3] & Hcl & H). injection H as <-.
           apply tick_run_klog in Hrun as (t & Ht & Hlog & _). simpl in *. eauto.
        -- destruct Hclean as (h3 & l3 & Hcl). simpl. rewrite Hcl. simpl. eauto.
  - destruct (tick_scan_any_bar _ _ _ _ _ _ _ _ None
                (Scheduler.initial_best_prio EnumUnsigned) Hscan)
      as (best' & bp' & Hscan').
    pose proof (unsigned_enum_selects_nothing _ _ _ _ _ Hscan') as ->.
    exists h1, None, bp'. split_and!; try done.
    unfold Scheduler.KThreadTick.
    destruct (count (g_scheduler (kw w)) =? 0); [eauto|].
    rewrite Hscan'. simpl.
    destruct Hclean as (h3 & l3 & Hcl). rewrite Hcl. simpl. eauto.
Qed.

(** ** C1: the state the tick leaves on the entry it ran *)

(** C1.  The tick runs entry [i], a live thread with a user worker, and the
    worker returns.  Lines 147-154 then leave the entry Ready when the
    worker returned without calling anything, Done when the worker called
    [YieldKThread], and Sleeping when it called [SleepKThread]: the first two
    are the reverse of what the claim says. *)
Theorem tick_run_state_after_worker (fuel i : nat) (w : World) (t : ptr) (k : KThread) :
  threads (g_scheduler (kw w)) !! i = Some t →
  t ≠ NULL →
  kheap (kw w) !! t = Some k →
  (worker k = Worker_User [] →
     state_in t (Scheduler.tick_run fuel i w) = Some KTHREAD_READY)
  ∧ (worker k = Worker_User [OpYield] →
     state_in t (Scheduler.tick_run fuel i w) = Some KTHREAD_DONE)
  ∧ (∀ ticks, worker k = Worker_User [OpSleep ticks] →
     state_in t (Scheduler.tick_run fuel i w) = Some KTHREAD_SLEEPING).
Proof.
  intros Hi Hn Hk.
  assert (Hnull : is_null t = false) by by apply is_null_false.
  assert (Hcount : (count (g_scheduler (kw w)) =? 0) = false).
  { apply Nat.eqb_neq. apply lookup_lt_Some in Hi. unfold count. lia. }
  assert (Hcount' : (length (threads (g_scheduler (kw w))) =? 0) = false) by done.
  unfold Scheduler.tick_run, state_in.
  split_and!; [intros Hw|intros Hw|intros ticks Hw];
    repeat first
      [ rewrite Hi | rewrite Hnull | rewrite Hk | rewrite Hw | rewrite Hcount'
      | rewrite lookup_insert_eq
      | progress unfold Emulated.YieldKThread, Emulated.SleepKThread, update_thread, count
      | progress simpl ];
    done.
Qed.

(** ** The tick on sample states *)

Example tick_returning_worker_stays_ready :
  state_in 100 (Scheduler.KThreadTick EnumInt 0 (one_thread_world [] true))
  = Some KTHREAD_READY.
Proof. vm_compute. reflexivity. Qed.

Example tick_yielding_worker_is_done :
  state_in 100 (Scheduler.KThreadTick EnumInt 0 (one_thread_world [OpYield] true))
  = Some KTHREAD_DONE.
Proof. vm_compute. reflexivity. Qed.

(** Not joined, the yielding thread is also reclaimed by the same tick. *)
Example tick_yielding_worker_is_reclaimed :
  match Scheduler.KThreadTick EnumInt 0 (one_thread_world [OpYield] false) with
  | Ok w => threads (g_scheduler (kw w)) = [] ∧ kheap (kw w) !! 100%Z = None
  | _ => False
  end.
Proof. vm_compute. split; reflexivity. Qed.

Lemma tick_run_state_after_worker_witness :
  state_in 100 (Scheduler.tick_run 0 0 (one_thread_world [OpYield] true))
  = Some KTHREAD_DONE.
Proof.
  refine (proj1 (proj2 (tick_run_state_after_worker 0 0
                          (one_thread_world [OpYield] true) 100%Z
                          (sample_thread (Worker_User [OpYield]) KTHREAD_READY 0 true
                             THREAD_PRIORITY_DEFAULT) _ _ _)) _).
  - reflexivity.
  - discriminate.
  - reflexivity.
  - reflexivity.
Defined.

(** On the four-thread table the tick runs the High thread of lowest index;
    with an unsigned enumeration it runs none. *)
Example tick_four_threads_runs_first_high :
  match Scheduler.KThreadTick EnumInt 0 four_thread_world with
  | Ok w => klog (kw w) = [200%Z]
  | _ => False
  end.
Proof. vm_compute. reflexivity. Qed.

Example tick_four_threads_unsigned_runs_none :
  match Scheduler.KThreadTick EnumUnsigned 0 four_thread_world with
  | Ok w => klog (kw w) = []
  | _ => False
  end.
Proof. vm_compute. reflexivity. Qed.

Lemma KThreadTick_selection_depends_on_enum_representation_witness :
  (∃ j q, ready_at four_threads [100; 200; 300; 400]%Z j q)
  ∧ ∃ w', Scheduler.KThreadTick EnumUnsigned 0 four_thread_world = Ok w'
          ∧ klog (kw w') = [].
Proof.
  destruct (KThreadTick_selection_depends_on_enum_representation EnumUnsigned 0
              four_thread_world)
    as (h1 & best & bp & _ & _ & _ & Htick).
  - vm_compute. reflexivity.
  - split; [|exact Htick].
    exists 1, 2%Z, 200%Z,
      (sample_thread (Worker_User []) KTHREAD_READY 0 true THREAD_PRIORITY_HIGH).
    split_and!; try reflexivity. discriminate.
Defined.

(** ** C9: null handles *)

(** C9.  Given a null handle, [JoinKThread] returns -1 and [DestroyKThread],
    [SetKThreadPriority] and [StartKThread] return false, on the emulated
    backend and on the POSIX backend (whatever the operating system does),
    and the state is the one before the call. *)
Theorem null_handle_operations_fail :
  (∀ r fuel w, Scheduler.JoinKThread r fuel NULL w = Ok ((-1)%Z, w))
  ∧ (∀ w, Emulated.DestroyKThread NULL w = Some (false, w))
  ∧ (∀ p w, Emulated.SetKThreadPriority NULL p w = Some (false, w))
  ∧ (∀ w, Emulated.StartKThread NULL w = Some (false, w))
  ∧ (∀ OS join (w : Unix.UWorld OS),
       Unix.JoinKThread OS join NULL w = Some ((-1)%Z, w))
  ∧ (∀ OS join cond_destroy mutex_destroy (w : Unix.UWorld OS),
       Unix.DestroyKThread OS join cond_destroy mutex_destroy NULL w = Some (false, w))
  ∧ (∀ OS getparam pmin pmax setparam p (w : Unix.UWorld OS),
       Unix.SetKThreadPriority OS getparam pmin pmax setparam NULL p w = Some (false, w))
  ∧ (∀ OS lock unlock signal (w : Unix.UWorld OS),
       Unix.StartKThread OS lock unlock signal NULL w = Some (false, w)).
Proof. split_and!; reflexivity. Qed.

(** ** C8: destroying a thread twice *)

Lemma set_kheap_same w : set_kheap (kheap w) w = w.
Proof. by destruct w. Qed.

Lemma set_state_same k : set_state (state k) k = k.
Proof. by destruct k. Qed.

(** The claim fails on the emulated backend: the entry at 100 is Done and
    joined, and both the first and the second [DestroyKThread] report
    success. *)
Lemma second_DestroyKThread_reports_success :
  state <$> kheap done_joined_world !! 100%Z = Some KTHREAD_DONE
  ∧ joined <$> kheap done_joined_world !! 100%Z = Some true
  ∧ ∃ w1, Emulated.DestroyKThread 100 done_joined_world = Some (true, w1)
          ∧ Emulated.DestroyKThread 100 w1 = Some (true, w1).
Proof. split_and!; [reflexivity..|]. eexists. split; vm_compute; reflexivity. Qed.

(** C8, as the code has it.  A second [DestroyKThread] is not detected.  On
    the emulated backend the call on a Done, joined entry returns true and
    changes nothing, every time: it frees nothing, so nothing is freed twice.
    On the POSIX backend a [DestroyKThread] that returned has freed the thread
    object, and a second call on the handle is undefined. *)
Theorem second_DestroyKThread_is_not_detected :
  (∀ t w k,
     t ≠ NULL → kheap w !! t = Some k → state k = KTHREAD_DONE → joined k = true →
     Emulated.DestroyKThread t w = Some (true, w))
  ∧ (∀ OS join cond_destroy mutex_destroy t (w w1 : Unix.UWorld OS) b,
       t ≠ NULL →
       Unix.DestroyKThread OS join cond_destroy mutex_destroy t w = Some (b, w1) →
       Unix.DestroyKThread OS join cond_destroy mutex_destroy t w1 = None).
Proof.
  split.
  - intros t w k Hn Hk Hs _. unfold Emulated.DestroyKThread, update_thread.
    apply is_null_false in Hn. rewrite Hn, Hk. simpl.
    rewrite <- Hs, set_state_same, insert_id by done.
    by rewrite set_kheap_same.
  - intros OS pj pcd pmd t w w1 b Hn H. unfold Unix.DestroyKThread in *.
    apply is_null_false in Hn. rewrite Hn in *.
    destruct (Unix.uthreads OS w !! t) as [k|] eqn:Hk; simpl in H; [|done].
    destruct (pj (Unix.thread k) (Unix.os OS w)) as [res o1].
    destruct (if is_null (Unix.ctx k) then _ else _) as [cs|]; simpl in H; [|done].
    unfold Unix.free in H. rewrite Hk in H. simpl in H. injection H as <- <-.
    simpl. by rewrite lookup_delete_eq.
Qed.

Lemma second_DestroyKThread_is_not_detected_witness :
  Emulated.DestroyKThread 100 done_joined_world = Some (true, done_joined_world)
  ∧ Unix.DestroyKThread unit (λ _ o, (0%Z, o)) (λ _ o, o) (λ _ o, o) 100
      (Unix.mkUWorld unit ∅ ∅ tt) = None.
Proof.
  split.
  - apply (proj1 second_DestroyKThread_is_not_detected 100%Z done_joined_world
             (sample_thread (Worker_User []) KTHREAD_DONE 0 true THREAD_PRIORITY_DEFAULT)).
    + discriminate.
    + reflexivity.
    + reflexivity.
    + reflexivity.
  - apply (proj2 second_DestroyKThread_is_not_detected unit (λ _ o, (0%Z, o))
             (λ _ o, o) (λ _ o, o) 100%Z unix_one_thread (Unix.mkUWorld unit ∅ ∅ tt) true).
    + discriminate.
    + vm_compute. reflexivity.
Defined.

(** ** The run queue *)

Lemma is_queue_functional h p l1 :
  is_queue h p l1 → ∀ l2, is_queue h p l2 → l1 = l2.
Proof.
  induction 1 as [|f k l Hn Hk Hq IH]; intros l2 H2.
  - inversion H2; [done|]. congruence.
  - inversion H2 as [|f' k' l' Hn' Hk' Hq']; subst; [done|].
    rewrite Hk in Hk'. injection Hk' as <-. f_equal. by apply IH.
Qed.

Lemma is_queue_members h p l :
  is_queue h p l → ∀ x, x ∈ l → x ≠ NULL ∧ is_Some (h !! x).
Proof.
  induction 1 as [|f k l Hn Hk Hq IH]; intros x Hx.
  - by apply elem_of_nil in Hx.
  - apply elem_of_cons in Hx as [->|Hx]; eauto.
Qed.

Lemma is_queue_heap_eq h h' p l :
  (∀ x, x ∈ l → h' !! x = h !! x) → is_queue h p l → is_queue h' p l.
Proof.
  intros Heq H. induction H as [|f k l Hn Hk Hq IH]; [constructor|].
  econstructor; [done| |].
  - rewrite Heq; [done|by left].
  - apply IH. intros x Hx. apply Heq. by right.
Qed.

Lemma update_fiber_Some f g fw fw' :
  update_fiber f g fw = Some fw' →
  f ≠ NULL ∧ ∃ k, fheap fw !! f = Some k ∧ fw' = set_fheap (<[f := g k]> (fheap fw)) fw.
Proof.
  unfold update_fiber, deref_fiber. destruct (is_null f) eqn:E; [done|].
  apply is_null_false in E. destruct (fheap fw !! f) as [k|]; simpl; [|done].
  intros [= <-]. eauto.
Qed.

Lemma update_fiber_live f g fw k :
  f ≠ NULL → fheap fw !! f = Some k →
  update_fiber f g fw = Some (set_fheap (<[f := g k]> (fheap fw)) fw).
Proof.
  intros Hn Hk. unfold update_fiber, deref_fiber.
  apply is_null_false in Hn. by rewrite Hn, Hk.
Qed.

(** One pass of the push loop is enough when nothing interleaves. *)
Lemma PushFiber_live fuel f fw k :
  f ≠ NULL → fheap fw !! f = Some k →
  Fiber.PushFiber (S fuel) f fw
  = Ok (set_run_queue f
          (set_fheap (<[f := set_next (run_queue (g_fiber_system fw)) k]> (fheap fw)) fw)).
Proof.
  intros Hn Hk. cbn [Fiber.PushFiber].
  rewrite (update_fiber_live f _ fw k Hn Hk). simpl.
  unfold Fiber.cas_run_queue, Fiber.FiberDatLoad_run_queue. simpl.
  by rewrite Z.eqb_refl.
Qed.

Lemma PushFiber_queue fuel f fw k l :
  f ≠ NULL → fheap fw !! f = Some k → queue_of fw l → f ∉ l →
  ∃ fw', Fiber.PushFiber (S fuel) f fw = Ok fw' ∧ queue_of fw' (f :: l).
Proof.
  intros Hn Hk Hq Hnotin. rewrite (PushFiber_live fuel f fw k Hn Hk).
  eexists. split; [done|]. unfold queue_of. simpl.
  econstructor; [done|apply lookup_insert_eq|]. simpl.
  eapply is_queue_heap_eq; [|exact Hq].
  intros x Hx. apply lookup_insert_ne. intros ->. done.
Qed.

Lemma PopFiber_empty fuel fw :
  run_queue (g_fiber_system fw) = NULL → Fiber.PopFiber (S fuel) fw = Ok (NULL, fw).
Proof.
  intros H. cbn [Fiber.PopFiber]. unfold Fiber.FiberDatLoad_run_queue. by rewrite H.
Qed.

Lemma PopFiber_head fuel fw f k :
  run_queue (g_fiber_system fw) = f → f ≠ NULL → fheap fw !! f = Some k →
  Fiber.PopFiber (S fuel) fw = Ok (f, set_run_queue (next k) fw).
Proof.
  intros Hq Hn Hk. cbn [Fiber.PopFiber].
  unfold Fiber.FiberDatLoad_run_queue, deref_fiber, Fiber.cas_run_queue.
  rewrite Hq. apply is_null_false in Hn. rewrite Hn, Hk. simpl.
  by rewrite Z.eqb_refl.
Qed.

(** ** C4: push then pop *)

Lemma queue_of_nil fw : queue_of fw [] ↔ run_queue (g_fiber_system fw) = NULL.
Proof.
  unfold queue_of. split.
  - by inversion 1.
  - intros ->. constructor.
Qed.

(** The claim fails for a fiber that is linked in the queue already: the
    queue holds the fiber at 100; pushing that fiber and popping returns it,
    and leaves its link pointing at itself, which is no queue at all. *)
Lemma push_pop_of_linked_fiber_breaks_queue :
  queue_of queue_100 [100%Z]
  ∧ ∃ fw1 fw2,
      Fiber.PushFiber 1 100 queue_100 = Ok fw1
      ∧ Fiber.PopFiber 1 fw1 = Ok (100%Z, fw2)
      ∧ ¬ queue_of fw2 [100%Z]
      ∧ next <$> fheap fw2 !! 100%Z = Some 100%Z.
Proof.
  split.
  - unfold queue_of. econstructor; [done|reflexivity|]. constructor.
  - do 2 eexists. split_and!.
    + vm_compute. reflexivity.
    + vm_compute. reflexivity.
    + unfold queue_of. intros H.
      inversion H as [|f k l Hn Hk Hq]; subst.
      vm_compute in Hk. injection Hk as <-. simpl in Hq. inversion Hq.
    + vm_compute. reflexivity.
Qed.

(** C4, as the code has it.  With nothing interleaved, pushing a live fiber
    that is not linked in the queue and popping returns that fiber and leaves
    the queue as it was (the head pointer and the fibers linked from it; every
    other fiber is untouched, and the pushed fiber keeps the old head in its
    link).  Popping from the empty queue returns the null pointer and changes
    nothing. *)
Theorem push_then_pop_restores_queue :
  (∀ fuel fw f k l,
     f ≠ NULL → fheap fw !! f = Some k → queue_of fw l → f ∉ l →
     ∃ fw1 fw2,
       Fiber.PushFiber (S fuel) f fw = Ok fw1
       ∧ Fiber.PopFiber (S fuel) fw1 = Ok (f, fw2)
       ∧ queue_of fw2 l
       ∧ run_queue (g_fiber_system fw2) = run_queue (g_fiber_system fw)
       ∧ (∀ x, x ≠ f → fheap fw2 !! x = fheap fw !! x)
       ∧ fheap fw2 !! f = Some (set_next (run_queue (g_fiber_system fw)) k))
  ∧ (∀ fuel fw, queue_of fw [] → Fiber.PopFiber (S fuel) fw = Ok (NULL, fw)).
Proof.
  split.
  - intros fuel fw f k l Hn Hk Hq Hnotin.
    rewrite (PushFiber_live fuel f fw k Hn Hk).
    eexists. eexists. split; [done|]. split.
    + apply PopFiber_head; [done|done|]. simpl. apply lookup_insert_eq.
    + simpl. split_and!; try done.
      * unfold queue_of. simpl. eapply is_queue_heap_eq; [|exact Hq].
        intros x Hx. apply lookup_insert_ne. intros ->. done.
      * intros x Hx. by apply lookup_insert_ne.
      * apply lookup_insert_eq.
  - intros fuel fw Hq. apply PopFiber_empty. by apply queue_of_nil.
Qed.

Lemma push_then_pop_restores_queue_witness :
  ∃ fw1 fw2,
    Fiber.PushFiber 1 300 queue_100 = Ok fw1
    ∧ Fiber.PopFiber 1 fw1 = Ok (300%Z, fw2)
    ∧ queue_of fw2 [100%Z].
Proof.
  destruct (proj1 push_then_pop_restores_queue 0 queue_100 300%Z
              (sample_fiber 300 false NULL) [100%Z])
    as (fw1 & fw2 & Hpush & Hpop & Hq & _).
  - discriminate.
  - reflexivity.
  - unfold queue_of. econstructor; [discriminate|reflexivity|]. constructor.
  - apply not_elem_of_cons. split; [discriminate|apply not_elem_of_nil].
  - exists fw1, fw2. split_and!; assumption.
Defined.

(** ** C5: resubmission *)

(** C5.  [RunFiber] on a null pointer or on a finished fiber returns with the
    state unchanged; on a live fiber that is not finished it is [PushFiber]:
    the fiber becomes the head of the run queue, linked to the old head, in
    front of the fibers that were queued. *)
Theorem RunFiber_enqueues_unfinished_only :
  (∀ fuel fw, Fiber.RunFiber fuel NULL fw = Ok fw)
  ∧ (∀ fuel fw f k,
       f ≠ NULL → fheap fw !! f = Some k → finished k = true →
       Fiber.RunFiber fuel f fw = Ok fw)
  ∧ (∀ fuel fw f k,
       f ≠ NULL → fheap fw !! f = Some k → finished k = false →
       Fiber.RunFiber (S fuel) f fw = Fiber.PushFiber (S fuel) f fw
       ∧ ∃ fw',
           Fiber.RunFiber (S fuel) f fw = Ok fw'
           ∧ run_queue (g_fiber_system fw') = f
           ∧ fheap fw' !! f = Some (set_next (run_queue (g_fiber_system fw)) k)
           ∧ (∀ x, x ≠ f → fheap fw' !! x = fheap fw !! x)
           ∧ (∀ l, queue_of fw l → f ∉ l → queue_of fw' (f :: l))).
Proof.
  split_and!.
  - reflexivity.
  - intros fuel fw f k Hn Hk Hfin. unfold Fiber.RunFiber, deref_fiber.
    apply is_null_false in Hn. rewrite Hn, Hk. simpl. by rewrite Hfin.
  - intros fuel fw f k Hn Hk Hfin.
    assert (Hrun : Fiber.RunFiber (S fuel) f fw = Fiber.PushFiber (S fuel) f fw).
    { unfold Fiber.RunFiber, deref_fiber.
      pose proof Hn as Hn'. apply is_null_false in Hn'.
      rewrite Hn', Hk. simpl. by rewrite Hfin. }
    split; [done|]. rewrite Hrun, (PushFiber_live fuel f fw k Hn Hk).
    eexists. split; [done|]. simpl. split_and!.
    + done.
    + apply lookup_insert_eq.
    + intros x Hx. by apply lookup_insert_ne.
    + intros l Hq Hnotin.
      destruct (PushFiber_queue fuel f fw k l Hn Hk Hq Hnotin) as (fw' & Hp & Hq').
      rewrite (PushFiber_live fuel f fw k Hn Hk) in Hp. by injection Hp as <-.
Qed.

Lemma RunFiber_enqueues_unfinished_only_witness :
  Fiber.RunFiber 1 400 queue_100 = Ok queue_100
  ∧ Fiber.RunFiber 1 300 queue_100 = Fiber.PushFiber 1 300 queue_100.
Proof.
  split.
  - apply (proj1 (proj2 RunFiber_enqueues_unfinished_only) 1 queue_100 400%Z
             (sample_fiber 400 true NULL)).
    + discriminate.
    + reflexivity.
    + reflexivity.
  - apply (proj2 (proj2 RunFiber_enqueues_unfinished_only) 0 queue_100 300%Z
             (sample_fiber 300 false NULL)).
    + discriminate.
    + reflexivity.
    + reflexivity.
Defined.

Example RunFiber_finished_is_noop :
  Fiber.RunFiber 1 400 queue_100 = Ok queue_100.
Proof. vm_compute. reflexivity. Qed.

Example RunFiber_unfinished_is_head :
  match Fiber.RunFiber 1 300 queue_100 with
  | Ok fw' => run_queue (g_fiber_system fw') = 300%Z
              ∧ next <$> fheap fw' !! 300%Z = Some 100%Z
  | _ => False
  end.
Proof. vm_compute. split; reflexivity. Qed.

(** ** C6: creation *)

(** C6.  When the allocator fails, [CreateNewFiber] returns the null
    pointer and the fiber state is unchanged.  When it answers a non-null
    address [f], [CreateNewFiber] returns [f]; the fiber at [f] has [f] as its
    ID, the given user data and worker, priority Default, the finished flag
    down, and is the head of the run queue, linked to the old head; the other
    fibers are untouched, and, [f] being a fresh address, the queue is [f] in
    front of the fibers that were queued. *)
Theorem CreateNewFiber_returns_queued_fiber :
  (∀ fuel worker user_data a fw,
     fst (malloc a) = NULL →
     Fiber.CreateNewFiber fuel worker user_data a fw = Ok (NULL, snd (malloc a), fw))
  ∧ (∀ fuel worker user_data a fw f,
       fst (malloc a) = f → f ≠ NULL →
       ∃ fw',
         Fiber.CreateNewFiber (S fuel) worker user_data a fw = Ok (f, snd (malloc a), fw')
         ∧ fheap fw' !! f
           = Some (mkFiber (mkContext f user_data) worker THREAD_PRIORITY_DEFAULT false
                     (run_queue (g_fiber_system fw)))
         ∧ run_queue (g_fiber_system fw') = f
         ∧ (∀ x, x ≠ f → fheap fw' !! x = fheap fw !! x)
         ∧ (fheap fw !! f = None → ∀ l, queue_of fw l → queue_of fw' (f :: l))).
Proof.
  split.
  - intros fuel worker user_data a fw Hm. unfold Fiber.CreateNewFiber.
    destruct (malloc a) as [f a'] eqn:E. simpl in *. subst f. reflexivity.
  - intros fuel worker user_data a fw f Hm Hn. unfold Fiber.CreateNewFiber.
    destruct (malloc a) as [f' a'] eqn:E. simpl in Hm. subst f'.
    pose proof Hn as Hn'. apply is_null_false in Hn'. rewrite Hn'.
    set (k := mkFiber (mkContext f user_data) worker THREAD_PRIORITY_DEFAULT false NULL).
    set (fw0 := set_fheap (<[f := k]> (fheap fw)) fw).
    assert (Hk : fheap fw0 !! f = Some k) by apply lookup_insert_eq.
    rewrite (PushFiber_live fuel f fw0 k Hn Hk). simpl.
    eexists. split; [done|]. simpl. split_and!.
    + by rewrite lookup_insert_eq.
    + done.
    + intros x Hx. by rewrite !lookup_insert_ne.
    + intros Hfresh l Hq. unfold queue_of. simpl.
      econstructor; [done|apply lookup_insert_eq|]. simpl.
      eapply is_queue_heap_eq; [|exact Hq].
      intros x Hx. destruct (is_queue_members _ _ _ Hq x Hx) as [_ [kx Hkx]].
      assert (x ≠ f) by congruence. by rewrite !lookup_insert_ne.
Qed.

Lemma CreateNewFiber_returns_queued_fiber_witness :
  Fiber.CreateNewFiber 1 [FYield] 77 [] queue_100 = Ok (NULL, [], queue_100)
  ∧ ∃ fw',
      Fiber.CreateNewFiber 1 [FYield] 77 [500%Z] queue_100 = Ok (500%Z, [], fw')
      ∧ queue_of fw' [500%Z; 100%Z].
Proof.
  split.
  - apply (proj1 CreateNewFiber_returns_queued_fiber 1 [FYield] 77%Z [] queue_100).
    reflexivity.
  - destruct (proj2 CreateNewFiber_returns_queued_fiber 0 [FYield] 77%Z [500%Z]
                queue_100 500%Z)
      as (fw' & Hc & _ & _ & _ & Hq).
    + reflexivity.
    + discriminate.
    + exists fw'. split; [exact Hc|]. apply Hq.
      * reflexivity.
      * unfold queue_of. econstructor; [discriminate|reflexivity|]. constructor.
Defined.

(** ** C7: the worker pool *)

Lemma supply_okb_ok h a : supply_okb h a = true → supply_ok h a.
Proof.
  induction a as [|p a IH]; simpl; intros H.
  - split; [constructor|]. intros p Hp. by apply elem_of_nil in Hp.
  - apply andb_true_iff in H as [H H4]. apply andb_true_iff in H as [H H3].
    apply andb_true_iff in H as [H1 H2].
    destruct (IH H4) as [Hnd Hall].
    apply negb_true_iff in H1, H3. apply is_null_false in H1.
    apply existsb_eqb_false in H3.
    split; [by constructor|].
    intros x Hx. apply elem_of_cons in Hx as [->|Hx]; [|by apply Hall].
    split; [done|]. by destruct (h !! p).
Qed.

Lemma supply_ok_tail h p a : supply_ok h (p :: a) → supply_ok h a ∧ p ∉ a.
Proof.
  intros [Hnd Hall]. apply NoDup_cons in Hnd as [Hp Hnd].
  split; [|done]. split; [done|]. intros x Hx. apply Hall. by right.
Qed.

Lemma supply_ok_insert h a t k : supply_ok h a → t ∉ a → supply_ok (<[t := k]> h) a.
Proof.
  intros [Hnd Hall] Ht. split; [done|]. intros x Hx.
  destruct (Hall x Hx) as [Hn Hf]. split; [done|].
  rewrite lookup_insert_ne; [done|]. intros ->. done.
Qed.

Lemma CreateKThread_ok wk u a w :
  supply_ok (kheap w) a → 2 ≤ length a →
  ∃ t a' w',
    Emulated.CreateKThread wk u a w = (t, a', w')
    ∧ t ≠ NULL ∧ kheap w !! t = None ∧ (t ∈ a) ∧ (t ∉ a')
    ∧ supply_ok (kheap w) a'
    ∧ length a ≤ length a' + 2
    ∧ kheap w'
      = <[t := mkKThread (mkContext (next_id w) u) wk KTHREAD_READY 0 0 false
                 THREAD_PRIORITY_DEFAULT]> (kheap w)
    ∧ threads (g_scheduler w') = threads (g_scheduler w) ++ [t].
Proof.
  intros Hs Hlen. unfold Emulated.CreateKThread, Emulated.ensure_capacity.
  destruct a as [|p1 [|p2 a]]; simpl in Hlen; [lia|lia|].
  destruct (supply_ok_tail _ _ _ Hs) as [Hs1 Hp1].
  destruct (supply_ok_tail _ _ _ Hs1) as [Hs2 Hp2].
  destruct Hs as [_ Hall].
  destruct (Hall p1) as [Hn1 Hf1]; [by left|].
  destruct (Hall p2) as [Hn2 Hf2]; [right; by left|].
  apply is_null_false in Hn1 as Hn1', Hn2 as Hn2'.
  destruct (count (g_scheduler w) + 1 <=? capacity (g_scheduler w)).
  - simpl. rewrite Hn1'.
    eexists _, _, _. split; [reflexivity|]. simpl.
    split_and!; try done; [by left|lia].
  - simpl. rewrite Hn1'. simpl. rewrite Hn2'.
    eexists _, _, _. split; [reflexivity|]. simpl.
    split_and!; try done; [right; by left|lia].
Qed.

Lemma distinct_nonnull_snoc ts t :
  distinct_nonnull ts → t ∉ ts → distinct_nonnull (ts ++ [t]).
Proof.
  induction ts as [|x ts IH]; simpl; intros Hd Ht.
  - split; [|done]. intros _. apply not_elem_of_nil.
  - destruct Hd as [Hx Hd]. apply not_elem_of_cons in Ht as [Hne Ht].
    split; [|by apply IH]. intros Hn Hin.
    apply elem_of_app in Hin as [Hin|Hin]; [by apply Hx|].
    apply list_elem_of_singleton in Hin. congruence.
Qed.

(** [CreateKThread] keeps the table well formed: the new entry is a fresh
    object, appended once. *)
Lemma CreateKThread_keeps_table wk u a w :
  distinct_nonnull (threads (g_scheduler w)) →
  entries_valid (kheap w) (threads (g_scheduler w)) →
  supply_ok (kheap w) a → 2 ≤ length a →
  ∃ t a' w',
    Emulated.CreateKThread wk u a w = (t, a', w')
    ∧ t ≠ NULL
    ∧ distinct_nonnull (threads (g_scheduler w'))
    ∧ entries_valid (kheap w') (threads (g_scheduler w')).
Proof.
  intros Hd Hv Hs Hlen.
  destruct (CreateKThread_ok wk u a w Hs Hlen)
    as (t & a' & w' & Hc & Hn & Hfresh & _ & _ & _ & _ & Hh & Hts).
  exists t, a', w'. split_and!; try done.
  - rewrite Hts. apply distinct_nonnull_snoc; [done|].
    intros Hin. destruct (Hv t Hin Hn) as (k & Hk & _). congruence.
  - rewrite Hts, Hh. intros x Hx Hnx.
    apply elem_of_app in Hx as [Hx|Hx].
    + destruct (Hv x Hx Hnx) as (k & Hk & Ha).
      exists k. split; [|done]. rewrite lookup_insert_ne; [done|]. congruence.
    + apply list_elem_of_singleton in Hx as ->.
      eexists. split; [apply lookup_insert_eq|]. by intros ?.
Qed.

Lemma update_thread_live t f w k :
  t ≠ NULL → kheap w !! t = Some k →
  update_thread t f w = Some (set_kheap (<[t := f k]> (kheap w)) w).
Proof.
  intros Hn Hk. unfold update_thread. apply is_null_false in Hn. by rewrite Hn, Hk.
Qed.

Lemma SetKThreadPriority_live t p w k :
  t ≠ NULL → kheap w !! t = Some k →
  Emulated.SetKThreadPriority t p w
  = Some (true, set_kheap (<[t := set_priority p k]> (kheap w)) w).
Proof.
  intros Hn Hk. unfold Emulated.SetKThreadPriority.
  rewrite (update_thread_live t _ w k Hn Hk).
  apply is_null_false in Hn. by rewrite Hn.
Qed.

Lemma StartKThread_ready t w k :
  t ≠ NULL → kheap w !! t = Some k → state k = KTHREAD_READY →
  Emulated.StartKThread t w
  = Some (true, set_kheap (<[t := set_state KTHREAD_RUNNING k]> (kheap w)) w).
Proof.
  intros Hn Hk Hs. unfold Emulated.StartKThread.
  rewrite (update_thread_live t _ w k Hn Hk).
  apply is_null_false in Hn. rewrite Hn, Hk. simpl.
  by rewrite bool_decide_eq_true_2.
Qed.

Lemma init_workers_ok p :
  ∀ n i a w ws,
    workers (g_fiber_system (fw w)) = Some ws →
    i + n ≤ length ws →
    2 * n ≤ length a →
    supply_ok (kheap (kw w)) a →
    ∃ a' w' l,
      Scheduler.init_workers n i p a w = Ok (a', w')
      ∧ length l = n
      ∧ NoDup l
      ∧ (∀ t, t ∈ l → t ∈ a)
      ∧ fw w' = set_workers (Some (take i ws ++ l ++ drop (i + n) ws)) (fw w)
      ∧ (∀ t, t ∈ l →
           t ≠ NULL
           ∧ ∃ k, kheap (kw w') !! t = Some k
                  ∧ worker k = Worker_FiberSchedulerLoop
                  ∧ priority k = p
                  ∧ state k = KTHREAD_RUNNING)
      ∧ (∀ x, x ∉ l → kheap (kw w') !! x = kheap (kw w) !! x)
      ∧ threads (g_scheduler (kw w')) = threads (g_scheduler (kw w)) ++ l.
Proof.
  induction n as [|n IH]; intros i a w ws Hws Hi Ha Hs.
  - exists a, w, []. simpl. rewrite Nat.add_0_r, take_drop, app_nil_r.
    split_and!; try done.
    + constructor.
    + intros t Ht. by apply elem_of_nil in Ht.
    + destruct w as [k [h [q wsx c r] lg]]. simpl in *. by rewrite Hws.
    + intros t Ht. by apply elem_of_nil in Ht.
  - cbn [Scheduler.init_workers].
    destruct (CreateKThread_ok Worker_FiberSchedulerLoop NULL a (kw w) Hs)
      as (t & a1 & k1 & Hc & Hn & Hfresh & Hta & Hta1 & Hs1 & Hlen & Hh1 & Hts1); [lia|].
    rewrite Hc, Hws. simpl.
    erewrite SetKThreadPriority_live;
      [|done|rewrite Hh1; apply lookup_insert_eq]. simpl.
    erewrite StartKThread_ready; [|done|apply lookup_insert_eq|done]. simpl.
    rewrite Hh1, !insert_insert_eq.
    set (kfin := mkKThread (mkContext (next_id (kw w)) NULL) Worker_FiberSchedulerLoop
                   KTHREAD_RUNNING 0 0 false p).
    change (set_state KTHREAD_RUNNING _) with kfin.
    set (w3 := set_kw _ _).
    assert (Hi' : i < length ws) by lia.
    destruct (IH (S i) a1 w3 (<[i := t]> ws)) as (a' & w' & l & Hrun & Hl & Hnd & Hsub & Hfw & Hpool & Hframe & Hts).
    { done. }
    { rewrite length_insert. lia. }
    { lia. }
    { unfold w3. simpl. by apply supply_ok_insert. }
    exists a', w', (t :: l). split; [exact Hrun|].
    assert (Htl : t ∉ l) by (intros Hx; apply Hta1; by apply Hsub).
    split_and!.
    + simpl. by rewrite Hl.
    + by constructor.
    + intros x Hx. apply elem_of_cons in Hx as [->|Hx]; [done|].
      specialize (Hsub x Hx). destruct Hs1 as [_ Hall1].
      clear -Hsub Hc Hta Hlen Hs Ha.
      unfold Emulated.CreateKThread, Emulated.ensure_capacity in Hc.
      destruct a as [|p1 [|p2 a]]; simpl in Ha; [lia|lia|].
      destruct (count (g_scheduler (kw w)) + 1 <=? capacity (g_scheduler (kw w)));
        simpl in Hc.
      * destruct (is_null p1); injection Hc as <- <- _; by right.
      * destruct (is_null p1); simpl in Hc; [injection Hc as <- <- _; by right|].
        destruct (is_null p2); injection Hc as <- <- _; right; by right.
    + rewrite Hfw. unfold w3, set_workers. simpl. do 3 f_equal.
      rewrite (take_S_r _ _ t) by (by apply list_lookup_insert_eq).
      rewrite take_insert_ge by lia.
      rewrite drop_insert_lt by lia.
      rewrite <- app_assoc. simpl. by rewrite Nat.add_succ_r.
    + intros x Hx. apply elem_of_cons in Hx as [->|Hx]; [|by apply Hpool].
      split; [done|]. exists kfin. rewrite Hframe by done.
      unfold w3. simpl. rewrite lookup_insert_eq. done.
    + intros x Hx. apply not_elem_of_cons in Hx as [Hne Hx].
      rewrite Hframe by done. unfold w3. simpl.
      rewrite lookup_insert_ne by done. done.
    + rewrite Hts. unfold w3. simpl. rewrite Hts1. by rewrite <- app_assoc.
Qed.

(** The claim fails when the allocator runs dry: with memory for the array of
    handles only, [InitFiberSys 2] returns with two null handles in the
    array and no thread created. *)
Lemma InitFiberSys_without_memory_starts_no_thread :
  ∃ w',
    Scheduler.InitFiberSys 2 THREAD_PRIORITY_HIGH [50%Z] empty_world = Ok ([], w')
    ∧ workers (g_fiber_system (fw w')) = Some [NULL; NULL]
    ∧ kheap (kw w') = ∅
    ∧ ¬ pool_started 2 THREAD_PRIORITY_HIGH w'.
Proof.
  eexists. split; [vm_compute; reflexivity|]. split_and!; [reflexivity..|].
  intros (l & Hl & _ & _ & Hall). simpl in Hl. injection Hl as <-.
  destruct (Hall NULL) as [Hn _]; [by left|done].
Qed.

(** With no memory at all the array pointer is null and the first store
    through it is undefined. *)
Example InitFiberSys_null_array_is_undefined :
  Scheduler.InitFiberSys 2 THREAD_PRIORITY_HIGH [] empty_world = Undefined.
Proof. vm_compute. reflexivity. Qed.

(** C7, as the code has it.  When the allocator serves every request
    (one for the array, at most two for each thread), [InitFiberSys w p]
    returns; the worker count is [w] if [w > 0] and 4 otherwise; the array
    holds that many distinct threads, each with the scheduler loop as its
    worker, priority [p], and started; the running flag is up and the run
    queue is empty.  The fibers are untouched. *)
Theorem InitFiberSys_starts_worker_pool
    (worker_threads : Z) (p : ThreadPriority) (a : Alloc) (w : World) :
  supply_okb (kheap (kw w)) a = true →
  2 * Z.to_nat (if (worker_threads >? 0)%Z then worker_threads else 4%Z) + 1 ≤ length a →
  ∃ a' w',
    Scheduler.InitFiberSys worker_threads p a w = Ok (a', w')
    ∧ worker_count (g_fiber_system (fw w'))
      = (if (worker_threads >? 0)%Z then worker_threads else 4%Z)
    ∧ pool_started (Z.to_nat (worker_count (g_fiber_system (fw w')))) p w'
    ∧ running (g_fiber_system (fw w')) = true
    ∧ run_queue (g_fiber_system (fw w')) = NULL
    ∧ fheap (fw w') = fheap (fw w).
Proof.
  intros Hs Hlen. apply supply_okb_ok in Hs.
  unfold Scheduler.InitFiberSys.
  set (n := if (worker_threads >? 0)%Z then worker_threads else 4%Z) in *.
  destruct a as [|p0 a1]; simpl in Hlen; [lia|].
  destruct (supply_ok_tail _ _ _ Hs) as [Hs1 _].
  destruct Hs as [_ Hall]. destruct (Hall p0) as [Hn0 _]; [by left|].
  apply is_null_false in Hn0. simpl. rewrite Hn0.
  set (w0 := set_fw _ w).
  destruct (init_workers_ok p (Z.to_nat n) 0 a1 w0 (replicate (Z.to_nat n) NULL))
    as (a' & w' & l & Hrun & Hl & Hnd & _ & Hfw & Hpool & _ & _).
  { reflexivity. }
  { rewrite length_replicate. lia. }
  { lia. }
  { exact Hs1. }
  exists a', w'. split; [exact Hrun|].
  rewrite Hfw. simpl. split_and!; try done.
  exists l. split_and!; try done.
  rewrite Hfw. simpl.
  rewrite drop_ge by (rewrite length_replicate; lia).
  by rewrite app_nil_r.
Qed.

Lemma InitFiberSys_starts_worker_pool_witness :
  ∃ a' w',
    Scheduler.InitFiberSys 0 THREAD_PRIORITY_LOW
      [50; 51; 52; 53; 54; 55; 56; 57; 58]%Z empty_world = Ok (a', w')
    ∧ worker_count (g_fiber_system (fw w')) = 4%Z
    ∧ pool_started 4 THREAD_PRIORITY_LOW w'.
Proof.
  destruct (InitFiberSys_starts_worker_pool 0 THREAD_PRIORITY_LOW
              [50; 51; 52; 53; 54; 55; 56; 57; 58]%Z empty_world)
    as (a' & w' & Hinit & Hcount & Hpool & _).
  - vm_compute. reflexivity.
  - vm_compute. lia.
  - exists a', w'. rewrite Hcount in Hpool. split_and!; assumption.
Defined.

Example InitFiberSys_default_pool :
  match Scheduler.InitFiberSys (-3) THREAD_PRIORITY_HIGH
          [50; 51; 52; 53; 54; 55; 56; 57; 58]%Z empty_world with
  | Ok (a', w') =>
      workers (g_fiber_system (fw w')) = Some [52; 53; 54; 55]%Z
      ∧ threads (g_scheduler (kw w')) = [52; 53; 54; 55]%Z
      ∧ state <$> kheap (kw w') !! 52%Z = Some KTHREAD_RUNNING
      ∧ a' = [56; 57; 58]%Z
  | _ => False
  end.
Proof. vm_compute. split_and!; reflexivity. Qed.

(** ** C10: shutdown and the fibers left in the queue *)

Lemma call_worker_not_running fuel wk w w' :
  running (g_fiber_system (fw w)) = false →
  Scheduler.call_worker fuel wk w = Ok w' → fw w' = fw w.
Proof.
  intros Hr. destruct wk as [|body]; simpl; intros H.
  - destruct fuel as [|fuel]; [done|].
    rewrite FiberSchedulerLoop_not_running in H by done. by injection H as <-.
  - res_inv H. done.
Qed.

Lemma tick_run_not_running fuel i w w' :
  running (g_fiber_system (fw w)) = false →
  Scheduler.tick_run fuel i w = Ok w' → fw w' = fw w.
Proof.
  intros Hr H. unfold Scheduler.tick_run in H.
  apply bind_Ok in H as (t & _ & H).
  apply bind_Ok in H as (k1 & _ & H).
  apply bind_Ok in H as (k & _ & H).
  apply bind_Ok in H as (w2 & Hcall & H).
  apply bind_Ok in H as (k2 & _ & H). injection H as <-.
  apply call_worker_not_running in Hcall; [|done]. simpl in *. done.
Qed.

Lemma KThreadTick_not_running r fuel w w' :
  running (g_fiber_system (fw w)) = false →
  Scheduler.KThreadTick r fuel w = Ok w' → fw w' = fw w.
Proof.
  intros Hr H. unfold Scheduler.KThreadTick in H.
  destruct (count (g_scheduler (kw w)) =? 0); [by injection H as <-|].
  apply bind_Ok in H as ([[h1 best] bp] & _ & H).
  apply bind_Ok in H as (w2 & Hrun & H).
  apply bind_Ok in H as ([h3 ts3] & _ & H). injection H as <-. simpl.
  destruct best as [i|].
  - by apply tick_run_not_running in Hrun.
  - by injection Hrun as <-.
Qed.

Lemma join_loop_not_running r fuel t :
  ∀ w res w',
    running (g_fiber_system (fw w)) = false →
    Scheduler.join_loop r fuel t w = Ok (res, w') → fw w' = fw w.
Proof.
  induction fuel as [|fuel IH]; intros w res w' Hr H; [done|].
  cbn [Scheduler.join_loop] in H.
  apply bind_Ok in H as (k & _ & H).
  destruct (bool_decide (state k = KTHREAD_DONE)); [by injection H as _ <-|].
  apply bind_Ok in H as (w1 & Htick & H).
  apply KThreadTick_not_running in Htick; [|done].
  apply IH in H; [|by rewrite Htick]. by rewrite H.
Qed.

Lemma JoinKThread_not_running r fuel t w res w' :
  running (g_fiber_system (fw w)) = false →
  Scheduler.JoinKThread r fuel t w = Ok (res, w') → fw w' = fw w.
Proof.
  intros Hr H. unfold Scheduler.JoinKThread in H.
  destruct (is_null t); [by injection H as _ <-|].
  apply bind_Ok in H as (k & _ & H).
  by apply join_loop_not_running in H.
Qed.

Lemma shutdown_workers_not_running r fuel n :
  ∀ i w w',
    running (g_fiber_system (fw w)) = false →
    Scheduler.shutdown_workers r fuel n i w = Ok w' → fw w' = fw w.
Proof.
  induction n as [|n IH]; intros i w w' Hr H; simpl in H; [by injection H as <-|].
  apply bind_Ok in H as (ws & _ & H).
  apply bind_Ok in H as (t & _ & H).
  apply bind_Ok in H as ([res w1] & Hjoin & H).
  apply bind_Ok in H as ([b k2] & _ & H).
  apply JoinKThread_not_running in Hjoin; [|done].
  apply IH in H; [|simpl; by rewrite Hjoin].
  simpl in H. by rewrite H.
Qed.

(** What [ShutdownFiberSys] does to the fiber side when it returns: the
    running flag is down, the array pointer and the queue head are null, and
    nothing else has changed. *)
Lemma ShutdownFiberSys_fw r fuel w w' :
  Scheduler.ShutdownFiberSys r fuel w = Ok w' →
  fw w' = set_run_queue NULL (set_workers None (set_running false (fw w))).
Proof.
  unfold Scheduler.ShutdownFiberSys. intros H.
  apply bind_Ok in H as (w1 & Hloop & H). injection H as <-.
  apply shutdown_workers_not_running in Hloop; [|done].
  simpl in *. by rewrite Hloop.
Qed.

(** A second yield in a row changes nothing. *)
Lemma YieldKThread_again w w1 :
  Emulated.YieldKThread w = Some w1 → Emulated.YieldKThread w1 = Some w1.
Proof.
  unfold Emulated.YieldKThread. intros H.
  destruct (count (g_scheduler w) =? 0) eqn:Hc.
  { injection H as <-. by rewrite Hc. }
  destruct (threads (g_scheduler w) !! current_index (g_scheduler w)) as [t|] eqn:Ht;
    simpl in H; [|done].
  destruct (is_null t) eqn:Hn.
  { injection H as <-. rewrite Hc, Ht. simpl. by rewrite Hn. }
  destruct (kheap w !! t) as [k|] eqn:Hk; simpl in H; [|done].
  case_bool_decide as Hs.
  - apply update_thread_Some in H as (_ & k' & Hk' & ->).
    simpl. unfold count in *. simpl. rewrite Hc, Ht. simpl. rewrite Hn.
    rewrite lookup_insert_eq. done.
  - injection H as <-. rewrite Hc, Ht. simpl. rewrite Hn, Hk. simpl.
    by rewrite bool_decide_eq_false_2.
Qed.

(** Joining a fiber whose finished flag is down never returns: nothing in
    the loop raises the flag. *)
Lemma JoinFiber_unfinished_never_returns f k n :
  ∀ w, f ≠ NULL → fheap (fw w) !! f = Some k → finished k = false →
       ∀ w', Fiber.JoinFiber n f w ≠ Ok w'.
Proof.
  unfold Fiber.JoinFiber. intros w Hn. pose proof Hn as Hn'.
  apply is_null_false in Hn'. rewrite Hn'. revert w.
  induction n as [|n IH]; intros w Hk Hfin w' H; [done|].
  cbn [Fiber.join_fiber_loop] in H. unfold deref_fiber in H.
  rewrite Hn', Hk in H. simpl in H. rewrite Hfin in H.
  apply bind_Ok in H as (w1 & Hy & H). apply defined_Ok in Hy.
  apply YieldFiber_Some in Hy as [Hfw _].
  eapply (IH w1); [|done|exact H]. by rewrite Hfw.
Qed.

Lemma JoinFiber_unfinished_spins f k n :
  ∀ w, f ≠ NULL → fheap (fw w) !! f = Some k → finished k = false →
       is_Some (Emulated.YieldKThread (kw w)) →
       Fiber.JoinFiber n f w = Timeout.
Proof.
  unfold Fiber.JoinFiber. intros w Hn. pose proof Hn as Hn'.
  apply is_null_false in Hn'. rewrite Hn'. revert w.
  induction n as [|n IH]; intros w Hk Hfin [k1 Hy]; [done|].
  cbn [Fiber.join_fiber_loop]. unfold deref_fiber. rewrite Hn', Hk.
  simpl. rewrite Hfin. unfold Fiber.YieldFiber. rewrite Hy. simpl.
  apply IH; try done. simpl. exists k1. by eapply YieldKThread_again.
Qed.

(** C10.  When [ShutdownFiberSys] returns, the head of the run queue is
    null, so a pop finds nothing; no fiber has been freed, changed or invoked
    by the call; every fiber that was linked in the queue is still allocated
    with its finished flag as it was, and when that flag is down a
    [JoinFiber] on the fiber never returns: it spins (for every bound on the
    iterations, the loop is still running), as long as yielding is
    defined. *)
Theorem ShutdownFiberSys_orphans_queued_fibers
    (r : EnumRepr) (fuel : nat) (w w' : World) (l : list ptr) :
  queue_of (fw w) l →
  Scheduler.ShutdownFiberSys r fuel w = Ok w' →
  run_queue (g_fiber_system (fw w')) = NULL
  ∧ (∀ n, Fiber.PopFiber (S n) (fw w') = Ok (NULL, fw w'))
  ∧ fheap (fw w') = fheap (fw w)
  ∧ flog (fw w') = flog (fw w)
  ∧ ∀ f, f ∈ l →
      ∃ k, fheap (fw w') !! f = Some k
           ∧ fheap (fw w) !! f = Some k
           ∧ (finished k = false →
              ∀ n, (∀ w'', Fiber.JoinFiber n f w' ≠ Ok w'')
                   ∧ (is_Some (Emulated.YieldKThread (kw w')) →
                      Fiber.JoinFiber n f w' = Timeout)).
Proof.
  intros Hq Hshut. pose proof (ShutdownFiberSys_fw _ _ _ _ Hshut) as Hfw.
  assert (Hhead : run_queue (g_fiber_system (fw w')) = NULL) by by rewrite Hfw.
  assert (Hheap : fheap (fw w') = fheap (fw w)) by by rewrite Hfw.
  split_and!; try done.
  - intros n. by apply PopFiber_empty.
  - by rewrite Hfw.
  - intros f Hf. destruct (is_queue_members _ _ _ Hq f Hf) as [Hn [k Hk]].
    exists k. rewrite Hheap. split_and!; try done.
    intros Hfin n. split.
    + apply (JoinFiber_unfinished_never_returns f k); try done.
      by rewrite Hheap.
    + apply (JoinFiber_unfinished_spins f k); try done. by rewrite Hheap.
Qed.

Lemma ShutdownFiberSys_orphans_queued_fibers_witness :
  ∃ w',
    Scheduler.ShutdownFiberSys EnumInt 1 stopped_pool_world = Ok w'
    ∧ run_queue (g_fiber_system (fw w')) = NULL
    ∧ Fiber.JoinFiber 1000 100 w' = Timeout.
Proof.
  destruct (Scheduler.ShutdownFiberSys EnumInt 1 stopped_pool_world) as [w'| |] eqn:E;
    [|by vm_compute in E..].
  destruct (ShutdownFiberSys_orphans_queued_fibers EnumInt 1 stopped_pool_world w'
              [100%Z])
    as (Hhead & _ & _ & _ & Hall).
  - unfold queue_of. econstructor; [discriminate|reflexivity|]. constructor.
  - exact E.
  - destruct (Hall 100%Z) as (k & Hk' & Hk & Hspin); [by left|].
    vm_compute in Hk. injection Hk as <-.
    exists w'. split_and!; [reflexivity|exact Hhead|].
    apply (Hspin eq_refl 1000).
    vm_compute in E. injection E as <-. vm_compute. eauto.
Defined.

(** On the emulated backend a tick runs Ready entries only and
    [StartKThread] leaves a started thread Running, so the workers of a pool
    that was just started never reach Done: the tick changes nothing, and
    [ShutdownFiberSys] waits in [JoinKThread] whatever the bound. *)
Lemma tick_of_fresh_pool_is_idle (fuel : nat) (w1 : World) :
  w1 = set_kw (set_kheap (<[53%Z := set_joined true
                                (sample_thread Worker_FiberSchedulerLoop KTHREAD_RUNNING 0
                                   false THREAD_PRIORITY_DEFAULT)]>
                            (kheap (kw fresh_pool_world)))
                 (kw fresh_pool_world))
         (set_fw (set_running false (fw fresh_pool_world)) fresh_pool_world) →
  Scheduler.KThreadTick EnumInt fuel w1 = Ok w1.
Proof. intros ->. vm_compute. reflexivity. Qed.

Lemma ShutdownFiberSys_of_fresh_pool_never_returns (fuel : nat) :
  Scheduler.ShutdownFiberSys EnumInt fuel fresh_pool_world = Timeout.
Proof.
  unfold Scheduler.ShutdownFiberSys.
  change (Z.to_nat _) with 1. cbn [Scheduler.shutdown_workers].
  change (workers _) with (Some [53%Z]). simpl defined. cbn [mbind Res_bind].
  change ([53%Z] !! 0) with (Some 53%Z). simpl defined. cbn [mbind Res_bind].
  unfold Scheduler.JoinKThread. change (is_null 53) with false. cbv iota.
  set (w0 := set_fw _ _).
  change (update_thread 53 (set_joined true) (kw w0))
    with (Some (set_kheap (<[53%Z := set_joined true
                                (sample_thread Worker_FiberSchedulerLoop KTHREAD_RUNNING 0
                                   false THREAD_PRIORITY_DEFAULT)]>
                            (kheap (kw fresh_pool_world)))
                 (kw fresh_pool_world))).
  simpl defined. cbn [mbind Res_bind].
  set (w1 := set_kw _ w0).
  assert (Hloop : ∀ n, Scheduler.join_loop EnumInt n 53 w1 = Timeout).
  { induction n as [|n IH]; [done|]. cbn [Scheduler.join_loop].
    change (kheap (kw w1) !! 53%Z)
      with (Some (set_joined true
                    (sample_thread Worker_FiberSchedulerLoop KTHREAD_RUNNING 0 false
                       THREAD_PRIORITY_DEFAULT))).
    simpl defined. cbn [mbind Res_bind]. simpl bool_decide. cbv iota.
    rewrite (tick_of_fresh_pool_is_idle n w1) by reflexivity.
    cbn [mbind Res_bind]. exact IH. }
  by rewrite Hloop.
Qed.

(** ** C3: mutual exclusion *)

Module KSyncFacts.
Import KSync.

Lemma total_insert f ps i p p' :
  ps !! i = Some p →
  total f (<[i := p']> ps) = (total f ps - f p + f p')%Z.
Proof.
  revert i. induction ps as [|x ps IH]; intros [|i] H; simpl in *; try done.
  - injection H as ->. lia.
  - rewrite (IH i H). lia.
Qed.

Lemma total_nonneg f ps : (∀ p, 0 ≤ f p)%Z → (0 ≤ total f ps)%Z.
Proof.
  intros Hf. induction ps as [|x ps IH]; simpl; [lia|]. specialize (Hf x). lia.
Qed.

Lemma total_lookup_le f ps i p :
  (∀ p, 0 ≤ f p)%Z → ps !! i = Some p → (f p ≤ total f ps)%Z.
Proof.
  intros Hf. revert i. induction ps as [|x ps IH]; intros [|i] H; simpl in *; try done.
  - injection H as ->. pose proof (total_nonneg f ps Hf). lia.
  - specialize (IH i H). specialize (Hf x). lia.
Qed.

Lemma holds_range p : (0 ≤ holds p ≤ 1)%Z.
Proof. unfold holds. destruct (pc p) as [| | | |[]|]; lia. Qed.

Lemma holds_nonneg p : (0 ≤ holds p)%Z.
Proof. apply holds_range. Qed.

(** With at most one holder, a thread other than the holder holds nothing. *)
Lemma holds_other ps i j p q :
  (total holds ps ≤ 1)%Z → ps !! i = Some p → holds p = 1%Z →
  i ≠ j → ps !! j = Some q → holds q = 0%Z.
Proof.
  intros Hle Hi Hp Hne Hj.
  pose proof (total_insert holds ps i p (mkProc LoopHead 0 0) Hi) as Hins.
  assert (Hj' : <[i := mkProc LoopHead 0 0]> ps !! j = Some q)
    by by rewrite list_lookup_insert_ne.
  pose proof (total_lookup_le holds _ j q holds_nonneg Hj') as Hq.
  pose proof (holds_nonneg q).
  change (holds (mkProc LoopHead 0 0)) with 0%Z in Hins. lia.
Qed.

(** What one step of a thread does to the quantities of the invariant. *)
Lemma thread_step_delta impl C p word cnt p' word' cnt' wake :
  impl ≠ EmulatedMutex →
  thread_step impl C p word cnt = Some (p', word', cnt', wake) →
  (0 ≤ word ≤ 1)%Z →
  (holds p = 1 → word = 1)%Z →
  (pc p = WriteCounter → tmp p = cnt) →
  iter_ok C p →
  (holds p' - holds p = word' - word)%Z
  ∧ (0 ≤ word' ≤ 1)%Z
  ∧ (contrib p' - contrib p = cnt' - cnt)%Z
  ∧ (cnt' ≠ cnt → pc p = WriteCounter)
  ∧ (pc p' = WriteCounter → tmp p' = cnt')
  ∧ iter_ok C p'.
Proof.
  intros Himpl Hstep Hword Hhold Htmp (Hle & Hfin & Hlt).
  destruct p as [c it tm]. unfold thread_step, holds, contrib, iter_ok in *.
  simpl in *.
  destruct c as [|l| | |u|]; simpl in *.
  - injection Hstep as <- <- <- <-. simpl.
    destruct (it <? C) eqn:E; simpl; split_and!; try done; try lia.
    + intros _ _. by apply Nat.ltb_lt.
    + intros _. apply Nat.ltb_ge in E. lia.
  - assert (Hit : it < C) by (apply Hlt; done).
    destruct impl; [| |done].
    + destruct l; simpl in Hstep; try done;
        repeat match type of Hstep with
          | context [(?a =? ?b)%Z] => destruct (Z.eqb_spec a b)
          end; simpl in Hstep; injection Hstep as <- <- <- <-; simpl;
        split_and!; try done; try lia; try (intros; lia).
    + destruct l; simpl in Hstep; try done.
      destruct (Z.eqb_spec word 0); simpl in Hstep; [|done].
      injection Hstep as <- <- <- <-; simpl.
      split_and!; try done; try lia; try (intros; lia).
  - assert (Hit : it < C) by (apply Hlt; done).
    injection Hstep as <- <- <- <-. simpl.
    split_and!; try done; try lia; try (intros; lia).
  - assert (Hit : it < C) by (apply Hlt; done).
    injection Hstep as <- <- <- <-. simpl. specialize (Htmp eq_refl).
    split_and!; try done; try lia; try (intros; lia).
  - assert (Hit : it < C) by (apply Hlt; done).
    destruct impl; [| |done].
    + destruct u; simpl in Hstep; injection Hstep as <- <- <- <-; simpl;
        split_and!; try done; try lia; try (intros; lia).
    + destruct u; simpl in Hstep; [|done].
      injection Hstep as <- <- <- <-; simpl.
      split_and!; try done; try lia; try (intros; lia).
  - done.
Qed.

Lemma wake_up_Some j ps ps' :
  wake_up j ps = Some ps' →
  ∃ q, ps !! j = Some q ∧ pc q = Locking Parked
       ∧ ps' = <[j := goto (Locking SlowLoad) q]> ps.
Proof.
  unfold wake_up. destruct (ps !! j) as [q|]; simpl; [|done].
  unfold is_parked. destruct (pc q) as [|[]| | | |] eqn:E; try done.
  intros [= <-]. eauto.
Qed.

(** Waking a sleeper changes none of the quantities of the invariant. *)
Lemma wake_up_inv C word cnt j ps ps' :
  wake_up j ps = Some ps' →
  inv C (mkMState word cnt ps) → inv C (mkMState word cnt ps').
Proof.
  intros (q & Hq & Hpc & ->)%wake_up_Some (Hw & Hr & Hc & Ht & Hit).
  unfold inv, holders in *. simpl in *.
  assert (Hh : total holds (<[j := goto (Locking SlowLoad) q]> ps) = total holds ps).
  { rewrite (total_insert _ _ _ _ _ Hq). unfold holds. simpl. rewrite Hpc. lia. }
  assert (Hcc : total contrib (<[j := goto (Locking SlowLoad) q]> ps) = total contrib ps).
  { rewrite (total_insert _ _ _ _ _ Hq). unfold contrib. simpl. rewrite Hpc. lia. }
  rewrite Hh, Hcc. split_and!; try done; try lia.
  - intros i x Hx Hpcx. destruct (decide (i = j)) as [->|Hne].
    + rewrite list_lookup_insert_eq in Hx by (by eapply lookup_lt_Some).
      injection Hx as <-. done.
    + rewrite list_lookup_insert_ne in Hx by done. eauto.
  - apply Forall_insert; [done|].
    rewrite Forall_lookup in Hit. destruct (Hit j q Hq) as (H1 & H2 & H3).
    unfold iter_ok. simpl. split_and!; try done.
    intros _ _. apply H3; by rewrite Hpc.
Qed.

Lemma step_inv impl C lbl s s' :
  impl ≠ EmulatedMutex →
  step impl C lbl s = Some s' → inv C s → inv C s'.
Proof.
  intros Himpl Hstep Hinv. destruct lbl as [i woken|j]; simpl in Hstep.
  - destruct (procs s !! i) as [p|] eqn:Hp; simpl in Hstep; [|done].
    destruct (thread_step impl C p (mutex_state s) (counter s))
      as [[[[p' word'] cnt'] wake]|] eqn:Hts; simpl in Hstep; [|done].
    injection Hstep as <-.
    destruct Hinv as (Hw & Hr & Hc & Ht & Hit). unfold holders in *.
    rewrite Forall_lookup in Hit.
    destruct (thread_step_delta impl C p _ _ _ _ _ _ Himpl Hts)
      as (Dh & Dw & Dc & Dcnt & Dt & Dit).
    { rewrite Hw. done. }
    { intros Hh. pose proof (total_lookup_le holds _ i p holds_nonneg Hp). lia. }
    { intros Hpc. by eapply Ht. }
    { by eapply Hit. }
    assert (Hmid : inv C (mkMState word' cnt' (<[i := p']> (procs s)))).
    { unfold inv, holders. simpl.
      rewrite !(total_insert _ _ _ _ _ Hp). split_and!; try lia.
      - intros j q Hq Hpcq. destruct (decide (j = i)) as [->|Hne].
        + rewrite list_lookup_insert_eq in Hq by (by eapply lookup_lt_Some).
          injection Hq as <-. by apply Dt.
        + rewrite list_lookup_insert_ne in Hq by done.
          destruct (decide (cnt' = counter s)) as [->|Hchg]; [by eapply Ht|].
          specialize (Dcnt Hchg).
          assert (holds q = 0%Z) as Hq0.
          { apply (holds_other (procs s) i j p q); try done; [lia|].
            unfold holds. by rewrite Dcnt. }
          unfold holds in Hq0. rewrite Hpcq in Hq0. done.
      - apply Forall_insert; [by apply Forall_lookup|done]. }
    destruct wake; [|done]. destruct woken as [j|]; [|done].
    destruct (wake_up j (<[i := p']> (procs s))) as [ps'|] eqn:Hwk; simpl; [|done].
    by eapply wake_up_inv.
  - destruct (wake_up j (procs s)) as [ps'|] eqn:Hwk; simpl in Hstep; [|done].
    injection Hstep as <-. eapply wake_up_inv; [done|]. by destruct s.
Qed.

Lemma step_length impl C lbl s s' :
  step impl C lbl s = Some s' → length (procs s') = length (procs s).
Proof.
  intros Hstep. destruct lbl as [i woken|j]; simpl in Hstep.
  - destruct (procs s !! i) as [p|]; simpl in Hstep; [|done].
    destruct (thread_step impl C p (mutex_state s) (counter s))
      as [[[[p' word'] cnt'] wake]|]; simpl in Hstep; [|done].
    injection Hstep as <-. simpl.
    destruct wake; [|by rewrite length_insert].
    destruct woken as [j|]; [|by rewrite length_insert].
    destruct (wake_up j (<[i := p']> (procs s))) as [ps'|] eqn:Hwk; simpl;
      [|by rewrite length_insert].
    apply wake_up_Some in Hwk as (q & _ & _ & ->). by rewrite !length_insert.
  - destruct (wake_up j (procs s)) as [ps'|] eqn:Hwk; simpl in Hstep; [|done].
    injection Hstep as <-. simpl.
    apply wake_up_Some in Hwk as (q & _ & _ & ->). by rewrite length_insert.
Qed.

Lemma exec_inv impl C lbls :
  ∀ s s', impl ≠ EmulatedMutex →
          exec impl C lbls s = Some s' → inv C s →
          inv C s' ∧ length (procs s') = length (procs s).
Proof.
  induction lbls as [|lbl lbls IH]; intros s s' Himpl Hexec Hinv; simpl in Hexec.
  - by injection Hexec as <-.
  - destruct (step impl C lbl s) as [s1|] eqn:Hstep; simpl in Hexec; [|done].
    destruct (IH s1 s' Himpl Hexec) as [Hinv' Hlen]; [by eapply step_inv|].
    split; [done|]. rewrite Hlen. by eapply step_length.
Qed.

Lemma total_replicate f n p : total f (replicate n p) = (Z.of_nat n * f p)%Z.
Proof. induction n as [|n IH]; simpl; [lia|]. rewrite IH. lia. Qed.

Lemma init_inv C N : inv C (init N).
Proof.
  unfold inv, holders, init. simpl. rewrite !total_replicate.
  unfold holds, contrib. simpl. split_and!; try lia.
  - intros j q Hq Hpc. apply lookup_replicate in Hq as [-> _]. done.
  - apply Forall_replicate. unfold iter_ok. simpl. split_and!; [lia|done|done].
Qed.

Lemma total_finished C ps :
  Forall (iter_ok C) ps → Forall (λ p, pc p = Finished) ps →
  total contrib ps = (Z.of_nat (length ps) * Z.of_nat C)%Z.
Proof.
  induction ps as [|p ps IH]; intros Hit Hfin; simpl; [lia|].
  apply Forall_cons in Hit as [(_ & Hp & _) Hit].
  apply Forall_cons in Hfin as [Hpc Hfin].
  rewrite (IH Hit Hfin). unfold contrib. rewrite Hpc, (Hp Hpc). lia.
Qed.

End KSyncFacts.

(** C3.  [N] threads increment the shared counter [C] times each, every
    increment (a load and a store) between [LockKMutex] and [UnlockKMutex],
    on the futex mutex or on the mutex of the operating system.  Whatever the
    interleaving of their atomic actions, in every state the system reaches
    at most one thread holds the mutex (the mutex word is the number of
    holders), and when all threads have finished the counter is [N * C]. *)
Theorem mutex_guards_counter
    (impl : KSync.MutexImpl) (N C : nat) (lbls : list KSync.Label) (s : KSync.MState) :
  impl = KSync.FutexMutex ∨ impl = KSync.NativeMutex →
  KSync.exec impl C lbls (KSync.init N) = Some s →
  (KSync.holders s ≤ 1)%Z
  ∧ KSync.mutex_state s = KSync.holders s
  ∧ (KSync.all_finished s → KSync.counter s = (Z.of_nat N * Z.of_nat C)%Z).
Proof.
  intros Himpl Hexec.
  assert (Hne : impl ≠ KSync.EmulatedMutex) by (destruct Himpl as [-> | ->]; done).
  destruct (KSyncFacts.exec_inv impl C lbls _ _ Hne Hexec (KSyncFacts.init_inv C N))
    as [(Hw & Hr & Hc & _ & Hit) Hlen].
  split_and!; [lia|done|].
  intros Hfin. rewrite Hc, (KSyncFacts.total_finished C _ Hit Hfin), Hlen.
  unfold KSync.init. simpl. by rewrite length_replicate.
Qed.

Lemma mutex_guards_counter_witness :
  ∃ s, KSync.exec KSync.FutexMutex 1 KSync.contended_schedule (KSync.init 2) = Some s
       ∧ KSync.all_finished s
       ∧ KSync.counter s = 2%Z.
Proof.
  destruct (KSync.exec KSync.FutexMutex 1 KSync.contended_schedule (KSync.init 2))
    as [s|] eqn:E; [|by vm_compute in E].
  destruct (mutex_guards_counter KSync.FutexMutex 2 1 KSync.contended_schedule s)
    as (_ & _ & Hcount).
  - left. reflexivity.
  - exact E.
  - assert (Hfin : KSync.all_finished s).
    { vm_compute in E. injection E as <-. repeat constructor. }
    exists s. split_and!; [reflexivity|exact Hfin|exact (Hcount Hfin)].
Defined.

Example native_mutex_run_counts_two :
  KSync.counter <$> KSync.exec KSync.NativeMutex 1 KSync.sequential_schedule (KSync.init 2)
  = Some 2%Z.
Proof. vm_compute. reflexivity. Qed.

(** A thread that finds the operating system's mutex taken is blocked: it
    has no step. *)
Example native_mutex_blocks_second_locker :
  KSync.exec KSync.NativeMutex 1
    [KSync.Run 0 None; KSync.Run 0 None; KSync.Run 1 None; KSync.Run 1 None]
    (KSync.init 2) = None.
Proof. vm_compute. reflexivity. Qed.

(** The no-op mutex of the emulated backend gives no exclusion between
    threads that interleave: two increments, counter 1. *)
Example emulated_mutex_loses_an_increment :
  KSync.counter <$> KSync.exec KSync.EmulatedMutex 1 KSync.racy_schedule (KSync.init 2)
  = Some 1%Z.
Proof. vm_compute. reflexivity. Qed.

(** * Further properties of the code *)

(** ** The garbage pass, entry by entry *)

Lemma reclaimable_delete_ne h t x :
  x ≠ t → reclaimable (delete t h) x = reclaimable h x.
Proof. intros Hne. unfold reclaimable. by rewrite lookup_delete_ne. Qed.

Lemma reclaimable_null h : reclaimable h NULL = false.
Proof. reflexivity. Qed.

(** X1.  On a table that holds each live thread once, the garbage pass of
    the tick (lines 157-167) returns; the table it leaves is the old one
    without the entries that are Done and not joined, in the old order; those
    entries are freed and no other thread object is touched.  A joined entry
    is never dropped. *)
Theorem tick_cleanup_frees_done_unjoined (h : gmap Z KThread) (ts : list ptr) :
  distinct_nonnull ts →
  (∀ t, t ∈ ts → t ≠ NULL → is_Some (h !! t)) →
  ∃ h',
    Scheduler.tick_cleanup h ts
    = Some (h', List.filter (λ t, negb (reclaimable h t)) ts)
    ∧ (∀ x, x ∈ ts → reclaimable h x = true → h' !! x = None)
    ∧ (∀ x, ¬ (x ∈ ts ∧ reclaimable h x = true) → h' !! x = h !! x).
Proof.
  revert h. induction ts as [|t ts IH]; intros h Hd Hv.
  - exists h. simpl. split_and!; try done. intros x Hx. by apply elem_of_nil in Hx.
  - destruct Hd as [Hd1 Hd2]. cbn [Scheduler.tick_cleanup List.filter].
    destruct (is_null t) eqn:Hnull.
    + apply is_null_true in Hnull. subst t.
      destruct (IH h Hd2) as (h' & Hc & Hfree & Hkeep).
      { intros x Hx. apply Hv. by right. }
      rewrite Hc. simpl. exists h'. split_and!; try done.
      * intros x Hx Hr. apply elem_of_cons in Hx as [->|Hx]; [done|]. by apply Hfree.
      * intros x Hx. apply Hkeep. intros [Hin Hr]. apply Hx. split; [by right|done].
    + apply is_null_false in Hnull.
      destruct (Hv t) as [k Hk]; [by left|done|].
      assert (Hrec : reclaimable h t
                     = bool_decide (state k = KTHREAD_DONE) && negb (joined k)).
      { unfold reclaimable. apply is_null_false in Hnull. by rewrite Hnull, Hk. }
      rewrite Hk. simpl. rewrite Hrec.
      destruct (bool_decide (state k = KTHREAD_DONE) && negb (joined k)) eqn:E; simpl.
      * destruct (IH (delete t h) Hd2) as (h' & Hc & Hfree & Hkeep).
        { intros x Hx Hn. rewrite lookup_delete_ne; [apply Hv; [by right|done]|].
          intros <-. by apply Hd1. }
        exists h'. split_and!.
        -- rewrite Hc. do 2 f_equal. apply List.filter_ext_in.
           intros x Hx. apply list_elem_of_In in Hx. f_equal.
           destruct (decide (x = NULL)) as [->|Hnx]; [done|].
           apply reclaimable_delete_ne. intros ->. by apply Hd1.
        -- intros x Hx Hr. apply elem_of_cons in Hx as [->|Hx].
           ++ rewrite Hkeep; [apply lookup_delete_eq|].
              intros [Hin _]. by apply Hd1.
           ++ apply Hfree; [done|]. rewrite reclaimable_delete_ne; [done|].
              intros ->. by apply Hd1.
        -- intros x Hx. destruct (decide (x = t)) as [->|Hne].
           ++ exfalso. apply Hx. split; [by left|]. by rewrite Hrec.
           ++ rewrite Hkeep.
              ** by apply lookup_delete_ne.
              ** intros [Hin Hr]. apply Hx. split; [by right|].
                 by rewrite reclaimable_delete_ne in Hr.
      * destruct (IH h Hd2) as (h' & Hc & Hfree & Hkeep).
        { intros x Hx. apply Hv. by right. }
        rewrite Hc. simpl. exists h'. split_and!; try done.
        -- intros x Hx Hr. apply elem_of_cons in Hx as [->|Hx]; [congruence|].
           by apply Hfree.
        -- intros x Hx. apply Hkeep. intros [Hin Hr]. apply Hx. split; [by right|done].
Qed.

Lemma tick_cleanup_frees_done_unjoined_witness :
  ∃ h', Scheduler.tick_cleanup table_with_garbage [100; 200; 300]%Z
        = Some (h', [100; 300]%Z)
        ∧ h' !! 200%Z = None.
Proof.
  destruct (tick_cleanup_frees_done_unjoined table_with_garbage [100; 200; 300]%Z)
    as (h' & Hc & Hfree & _).
  - simpl. split_and!; try done; intros _; vm_compute; intros H;
      repeat (apply elem_of_cons in H as [H|H]; [discriminate|]); by apply elem_of_nil in H.
  - intros t Ht Hn.
    repeat (apply elem_of_cons in Ht as [->|Ht]; [vm_compute; eauto|]).
    by apply elem_of_nil in Ht.
  - exists h'. split.
    + exact Hc.
    + apply Hfree; [right; by left|reflexivity].
Defined.

(** ** Sleeping entries *)

Lemma age_sleeper_asleep k :
  state k = KTHREAD_SLEEPING → sleep_ticks k ≠ INT_MIN →
  Scheduler.age_sleeper k
  = Some (if (sleep_ticks k - 1 <=? 0)%Z
          then set_state KTHREAD_READY (set_sleep_ticks (sleep_ticks k - 1)%Z k)
          else set_sleep_ticks (sleep_ticks k - 1)%Z k).
Proof.
  intros Hs Hm. unfold Scheduler.age_sleeper.
  rewrite bool_decide_eq_true_2 by done.
  apply Z.eqb_neq in Hm. by rewrite Hm.
Qed.

(** X2.  One scan of the tick (lines 132-145) on a table that holds each live
    thread once ages every entry exactly once: an entry that is not asleep is
    left as it is, a sleeper has its tick count lowered by one and is Ready
    when the count has reached zero or less; thread objects outside the table
    are not touched. *)
Theorem tick_scan_ages_each_entry_once (ts : list ptr) :
  ∀ (h : gmap Z KThread) (i : nat) (best : option nat) (bp : Z),
    distinct_nonnull ts →
    entries_valid h ts →
    ∃ h' best' bp',
      Scheduler.tick_scan h ts i best bp = Some (h', best', bp')
      ∧ (∀ t k, t ∈ ts → t ≠ NULL → h !! t = Some k →
           h' !! t = Scheduler.age_sleeper k)
      ∧ (∀ x, x ∉ ts → h' !! x = h !! x).
Proof.
  induction ts as [|t ts IH]; intros h i best bp Hd Hv.
  - exists h, best, bp. split_and!; try done. intros t k Ht. by apply elem_of_nil in Ht.
  - destruct Hd as [Hd1 Hd2]. cbn [Scheduler.tick_scan].
    destruct (is_null t) eqn:Hnull.
    + apply is_null_true in Hnull. subst t.
      destruct (IH h (S i) best bp Hd2) as (h' & b' & bp' & Hs & Hage & Hout).
      { intros x Hx. apply Hv. by right. }
      exists h', b', bp'. split_and!; try done.
      * intros t k Ht Hn. apply elem_of_cons in Ht as [->|Ht]; [done|]. by apply Hage.
      * intros x Hx. apply Hout. by apply not_elem_of_cons in Hx as [_ ?].
    + apply is_null_false in Hnull.
      destruct (Hv t) as (k & Hk & Hage); [by left|done|].
      destruct (age_sleeper_total k Hage) as (k1 & Hk1 & Hage1 & _).
      rewrite Hk. simpl. rewrite Hk1. simpl.
      assert (Hv1 : entries_valid (<[t := k1]> h) ts).
      { intros x Hx Hn. rewrite lookup_insert_ne; [apply Hv; [by right|done]|].
        intros ->. by apply Hd1. }
      assert (Hrest : ∀ best1 bp1,
        ∃ h' best' bp',
          Scheduler.tick_scan (<[t := k1]> h) ts (S i) best1 bp1 = Some (h', best', bp')
          ∧ (∀ x kx, x ∈ t :: ts → x ≠ NULL → h !! x = Some kx →
               h' !! x = Scheduler.age_sleeper kx)
          ∧ (∀ x, x ∉ t :: ts → h' !! x = h !! x)).
      { intros best1 bp1.
        destruct (IH (<[t := k1]> h) (S i) best1 bp1 Hd2 Hv1)
          as (h' & b' & bp' & Hs & Hages & Hout).
        exists h', b', bp'. split_and!; try done.
        - intros x kx Hx Hn Hkx. apply elem_of_cons in Hx as [->|Hx].
          + rewrite Hout by (by apply Hd1). rewrite lookup_insert_eq. congruence.
          + apply Hages; try done. rewrite lookup_insert_ne; [done|].
            intros ->. by apply Hd1.
        - intros x Hx. apply not_elem_of_cons in Hx as [Hne Hx].
          rewrite Hout by done. by apply lookup_insert_ne. }
      destruct (bool_decide (state k1 = KTHREAD_READY)
                && (bp <? prio_val (priority k1))%Z); apply Hrest.
Qed.

Lemma tick_scan_ages_each_entry_once_witness :
  ∃ h' best' bp',
    Scheduler.tick_scan four_threads [100; 200; 300; 400]%Z 0 None (-1)
    = Some (h', best', bp')
    ∧ sleep_ticks <$> h' !! 400%Z = Some 4%Z.
Proof.
  destruct (tick_scan_ages_each_entry_once [100; 200; 300; 400]%Z four_threads 0 None
              (-1)%Z)
    as (h' & b' & bp' & Hs & Hage & _).
  - apply (table_okb_distinct four_threads). vm_compute. reflexivity.
  - apply table_okb_valid. vm_compute. reflexivity.
  - exists h', b', bp'. split; [exact Hs|].
    rewrite (Hage 400%Z (sample_thread (Worker_User []) KTHREAD_SLEEPING 5 true
                           THREAD_PRIORITY_DEFAULT)).
    + reflexivity.
    + repeat (first [by left | right]).
    + discriminate.
    + reflexivity.
Defined.

(** X3.  A thread put to sleep for [n >= 1] ticks is still asleep after
    every smaller number of scans, with the remaining count, and is Ready
    after the [n]-th scan; a thread put to sleep with a count of one or less
    (zero and negative counts included) is Ready after the first scan.
    Priority, joined flag and worker are not touched. *)
Theorem sleeper_wakes_after_its_ticks (k : KThread) :
  state k = KTHREAD_SLEEPING →
  (INT_MIN < sleep_ticks k)%Z →
  (∀ m, (Z.of_nat m < sleep_ticks k)%Z →
        age_n m k = Some (set_sleep_ticks (sleep_ticks k - Z.of_nat m)%Z k))
  ∧ (∀ n, (1 ≤ n)%nat → sleep_ticks k = Z.of_nat n →
          age_n n k = Some (set_state KTHREAD_READY (set_sleep_ticks 0 k)))
  ∧ ((sleep_ticks k ≤ 1)%Z →
     age_n 1 k = Some (set_state KTHREAD_READY (set_sleep_ticks (sleep_ticks k - 1)%Z k))).
Proof.
  intros Hs Hmin.
  assert (Hstill : ∀ m k0,
    state k0 = KTHREAD_SLEEPING → (INT_MIN < sleep_ticks k0)%Z →
    (Z.of_nat m < sleep_ticks k0)%Z →
    age_n m k0 = Some (set_sleep_ticks (sleep_ticks k0 - Z.of_nat m)%Z k0)).
  { induction m as [|m IH]; intros k0 Hs0 Hmin0 Hlt.
    - simpl. rewrite Z.sub_0_r. by destruct k0.
    - cbn [age_n]. rewrite age_sleeper_asleep; [|done|lia]. simpl.
      destruct (Z.leb_spec (sleep_ticks k0 - 1) 0); [lia|].
      rewrite IH; simpl; try done; try lia; [|unfold INT_MIN in *; lia].
      f_equal. destruct k0; unfold set_sleep_ticks; simpl. f_equal. lia. }
  split_and!.
  - intros m Hm. by apply Hstill.
  - intros n Hn Hk. destruct n as [|n]; [lia|].
    replace (S n) with (n + 1) by lia.
    assert (Hsplit : ∀ a b k0, age_n (a + b) k0 = age_n a k0 ≫= age_n b).
    { induction a as [|a IHa]; intros b k0; simpl; [done|].
      destruct (Scheduler.age_sleeper k0); simpl; [apply IHa|done]. }
    rewrite Hsplit, Hstill by (try done; lia). simpl.
    rewrite age_sleeper_asleep; simpl; [|done|unfold INT_MIN; lia].
    destruct (Z.leb_spec (sleep_ticks k - Z.of_nat n - 1) 0); [|lia].
    f_equal. destruct k; unfold set_state, set_sleep_ticks; simpl in *. f_equal. lia.
  - intros Hle. simpl. rewrite age_sleeper_asleep; [|done|lia]. simpl.
    destruct (Z.leb_spec (sleep_ticks k - 1) 0); [done|lia].
Qed.

Lemma sleeper_wakes_after_its_ticks_witness :
  age_n 5 (sample_thread (Worker_User []) KTHREAD_SLEEPING 5 true THREAD_PRIORITY_DEFAULT)
  = Some (sample_thread (Worker_User []) KTHREAD_READY 0 true THREAD_PRIORITY_DEFAULT).
Proof.
  apply (proj1 (proj2 (sleeper_wakes_after_its_ticks
                         (sample_thread (Worker_User []) KTHREAD_SLEEPING 5 true
                            THREAD_PRIORITY_DEFAULT) eq_refl eq_refl)) 5).
  - lia.
  - reflexivity.
Defined.

(** ** The table of the emulated scheduler: growth and creation *)

Lemma grow_capacity_bounds fuel :
  ∀ c m, 1 ≤ c → m ≤ c * 2 ^ fuel →
         m ≤ Emulated.grow_capacity fuel c m ∧ c ≤ Emulated.grow_capacity fuel c m.
Proof.
  induction fuel as [|fuel IH]; intros c m Hc Hm; simpl in *.
  - lia.
  - destruct (Nat.ltb_spec c m); [|lia].
    destruct (IH (c * 2) m) as [H1 H2]; lia.
Qed.

(** What [CreateKThread] needs of [ensure_capacity]. *)
Lemma ensure_capacity_frame min_capacity a w ok a' w' :
  Emulated.ensure_capacity min_capacity a w = (ok, a', w') →
  w' = set_capacity (capacity (g_scheduler w')) w
  ∧ length a ≤ length a' + 1
  ∧ (ok = true → min_capacity ≤ capacity (g_scheduler w'))
  ∧ (ok = false → w' = w).
Proof.
  unfold Emulated.ensure_capacity. intros H.
  destruct (Nat.leb_spec min_capacity (capacity (g_scheduler w))) as [Hle|Hlt].
  - injection H as <- <- <-. split_and!; try done; [|lia].
    by destruct w as [h [ts c ci] n l].
  - assert (Hlen : length a ≤ length (snd (malloc a)) + 1)
      by (destruct a; simpl; lia).
    destruct (malloc a) as [p a1] eqn:Hm. simpl in Hlen.
    destruct (is_null p) eqn:Hp.
    + injection H as <- <- <-. split_and!; try done.
      by destruct w as [h [ts c ci] n l].
    + injection H as <- <- <-. simpl. split_and!; try done.
      intros _.
      set (c0 := if capacity (g_scheduler w) =? 0 then 4 else capacity (g_scheduler w) * 2).
      assert (Hc0 : 1 ≤ c0).
      { unfold c0. destruct (Nat.eqb_spec (capacity (g_scheduler w)) 0); lia. }
      destruct (grow_capacity_bounds min_capacity c0 min_capacity) as [H1 H2]; [lia| |done].
      pose proof (Nat.pow_gt_lin_r 2 min_capacity). nia.
Qed.

(** X4.  [ensure_capacity] changes nothing but the capacity.  When it
    succeeds the capacity is at least the one asked for, and it is either the
    old one (enough already, no allocation made) or at least twice the old
    one, and at least four when the table had no room at all; when it fails
    (the allocator answered null) the state is as before. *)
Theorem ensure_capacity_grows_geometrically
    (min_capacity : nat) (a : Alloc) (w : KWorld) (ok : bool) (a' : Alloc) (w' : KWorld) :
  Emulated.ensure_capacity min_capacity a w = (ok, a', w') →
  w' = set_capacity (capacity (g_scheduler w')) w
  ∧ (ok = true →
     min_capacity ≤ capacity (g_scheduler w')
     ∧ ((capacity (g_scheduler w') = capacity (g_scheduler w) ∧ a' = a)
        ∨ (capacity (g_scheduler w) < min_capacity
           ∧ (capacity (g_scheduler w) = 0 → 4 ≤ capacity (g_scheduler w'))
           ∧ 2 * capacity (g_scheduler w) ≤ capacity (g_scheduler w')
           ∧ a' = snd (malloc a))))
  ∧ (ok = false →
     w' = w ∧ capacity (g_scheduler w) < min_capacity ∧ fst (malloc a) = NULL).
Proof.
  unfold Emulated.ensure_capacity. intros H.
  destruct (Nat.leb_spec min_capacity (capacity (g_scheduler w))) as [Hle|Hlt].
  - injection H as <- <- <-. split_and!.
    + by destruct w as [h [ts c ci] n l].
    + intros _. split; [done|]. by left.
    + done.
  - destruct (malloc a) as [p a1] eqn:Hm.
    destruct (is_null p) eqn:Hp.
    + injection H as <- <- <-. split_and!.
      * by destruct w as [h [ts c ci] n l].
      * done.
      * intros _. apply is_null_true in Hp. done.
    + injection H as <- <- <-. simpl. split_and!; try done.
      intros _.
      set (c0 := if capacity (g_scheduler w) =? 0 then 4 else capacity (g_scheduler w) * 2).
      assert (Hc0 : 1 ≤ c0 ∧ 2 * capacity (g_scheduler w) ≤ c0
                    ∧ (capacity (g_scheduler w) = 0 → c0 = 4)).
      { unfold c0. destruct (Nat.eqb_spec (capacity (g_scheduler w)) 0); lia. }
      destruct (grow_capacity_bounds min_capacity c0 min_capacity) as [H1 H2]; [lia| |].
      { pose proof (Nat.pow_gt_lin_r 2 min_capacity). nia. }
      split; [done|]. right. split_and!; try done; [|lia].
      intros H0. destruct Hc0 as (_ & _ & Hc4). specialize (Hc4 H0). lia.
Qed.

Lemma ensure_capacity_grows_geometrically_witness :
  5 ≤ capacity (g_scheduler (set_capacity 8 (kw four_thread_world)))
  ∧ 2 * capacity (g_scheduler (kw four_thread_world))
    ≤ capacity (g_scheduler (set_capacity 8 (kw four_thread_world))).
Proof.
  destruct (ensure_capacity_grows_geometrically 5 [50%Z] (kw four_thread_world)
              true [] (set_capacity 8 (kw four_thread_world)) eq_refl)
    as (_ & Hok & _).
  destruct (Hok eq_refl) as [Hmin [[Hsame _]|(_ & _ & Hdouble & _)]].
  - discriminate Hsame.
  - split; [exact Hmin|exact Hdouble].
Defined.

(** X5.  [CreateKThread] either fails, returning the null pointer with the
    thread objects, the table and the identifier counter as they were, or
    returns a non-null address at which it has built a thread that is Ready,
    not joined, of Default priority, with the given worker and user pointer
    and the old value of the counter as its ID; that address is appended to
    the table and the counter goes up by one.  The cursor and the invocation
    record stay, at most two answers of the allocator are used, and the table
    never outgrows its capacity. *)
Theorem CreateKThread_appends_or_fails
    (wk : KThreadWorker) (u : ptr) (a : Alloc) (w : KWorld)
    (t : ptr) (a' : Alloc) (w' : KWorld) :
  Emulated.CreateKThread wk u a w = (t, a', w') →
  (t = NULL →
   kheap w' = kheap w
   ∧ threads (g_scheduler w') = threads (g_scheduler w)
   ∧ next_id w' = next_id w)
  ∧ (t ≠ NULL →
     kheap w'
     = <[t := mkKThread (mkContext (next_id w) u) wk KTHREAD_READY 0 0 false
                THREAD_PRIORITY_DEFAULT]> (kheap w)
     ∧ threads (g_scheduler w') = threads (g_scheduler w) ++ [t]
     ∧ next_id w' = ((next_id w + 1) mod 2 ^ 64)%Z)
  ∧ current_index (g_scheduler w') = current_index (g_scheduler w)
  ∧ klog w' = klog w
  ∧ length a ≤ length a' + 2
  ∧ (count (g_scheduler w) ≤ capacity (g_scheduler w) →
     count (g_scheduler w') ≤ capacity (g_scheduler w')).
Proof.
  unfold Emulated.CreateKThread. intros H.
  destruct (Emulated.ensure_capacity (count (g_scheduler w) + 1) a w)
    as [[ok a1] w1] eqn:Hens.
  destruct (ensure_capacity_frame _ _ _ _ _ _ Hens) as (Hw1 & Hlen1 & Hok & Hfail).
  destruct ok; simpl in H.
  - pose proof (Hok eq_refl) as Hmin.
    destruct (malloc a1) as [t1 a2] eqn:Hm.
    assert (Hlen2 : length a1 ≤ length a2 + 1).
    { destruct a1; simpl in Hm; injection Hm as _ <-; simpl; lia. }
    destruct (is_null t1) eqn:Hn.
    + injection H as <- <- <-. rewrite Hw1. simpl. split_and!; try done; try lia.
      unfold count in *. simpl. lia.
    + injection H as <- <- <-. apply is_null_false in Hn. rewrite Hw1. simpl.
      split_and!; try done; try lia.
      unfold count in *. simpl. rewrite length_app. simpl. lia.
  - rewrite (Hfail eq_refl) in *.
    injection H as <- <- <-. split_and!; try done; lia.
Qed.

Lemma CreateKThread_appends_or_fails_witness :
  ∃ w', Emulated.CreateKThread (Worker_User []) 7 [50; 51; 52]%Z (kw four_thread_world)
        = (51%Z, [52%Z], w')
        ∧ threads (g_scheduler w') = [100; 200; 300; 400; 51]%Z
        ∧ count (g_scheduler w') ≤ capacity (g_scheduler w').
Proof.
  destruct (Emulated.CreateKThread (Worker_User []) 7 [50; 51; 52]%Z
              (kw four_thread_world))
    as [[t a'] w'] eqn:E.
  destruct (CreateKThread_appends_or_fails _ _ _ _ _ _ _ E)
    as (_ & Hok & _ & _ & _ & Hcap).
  assert (t = 51%Z ∧ a' = [52%Z]) as [-> ->].
  { vm_compute in E. by injection E as <- <- _. }
  exists w'. split; [reflexivity|].
  destruct Hok as (_ & Hts & _); [discriminate|].
  split; [exact Hts|]. apply Hcap. vm_compute. lia.
Defined.

(** X6.  [StartKThread] succeeds exactly on a live thread that is Ready, and
    leaves it Running; a call that fails changes nothing; and a thread that
    was started cannot be started again: the second call returns false. *)
Theorem StartKThread_only_from_ready (t : ptr) (w : KWorld) (b : bool) (w' : KWorld) :
  Emulated.StartKThread t w = Some (b, w') →
  (b = true ↔ t ≠ NULL ∧ ∃ k, kheap w !! t = Some k ∧ state k = KTHREAD_READY)
  ∧ (b = false → w' = w)
  ∧ (b = true →
     state <$> kheap w' !! t = Some KTHREAD_RUNNING
     ∧ Emulated.StartKThread t w' = Some (false, w')).
Proof.
  unfold Emulated.StartKThread. intros H.
  destruct (is_null t) eqn:Hn.
  { injection H as <- <-. apply is_null_true in Hn. split_and!; try done.
    split; [done|]. by intros [? _]. }
  apply is_null_false in Hn as Hn'.
  destruct (kheap w !! t) as [k|] eqn:Hk; simpl in H; [|done].
  case_bool_decide as Hs.
  - rewrite (update_thread_live t _ w k Hn' Hk) in H. simpl in H.
    injection H as <- <-. split_and!; try done.
    + split; [eauto|done].
    + intros _. simpl. rewrite lookup_insert_eq. done.
  - injection H as <- <-. split_and!; try done.
    split; [done|]. intros (_ & k' & Hk' & Hs'). congruence.
Qed.

Lemma StartKThread_only_from_ready_witness :
  ∃ w', Emulated.StartKThread 100 (kw (one_thread_world [] false)) = Some (true, w')
        ∧ Emulated.StartKThread 100 w' = Some (false, w').
Proof.
  destruct (Emulated.StartKThread 100 (kw (one_thread_world [] false)))
    as [[b w']|] eqn:E; [|by vm_compute in E].
  assert (b = true) as -> by (vm_compute in E; by injection E as <- _).
  destruct (StartKThread_only_from_ready _ _ _ _ E) as (_ & _ & Hagain).
  exists w'. split; [reflexivity|]. by apply Hagain.
Defined.

(** ** Ticks with nothing to do *)

Lemma idle_entry_live h t :
  idle_entry h t = true → t ≠ NULL →
  ∃ k, h !! t = Some k
       ∧ (state k = KTHREAD_RUNNING ∨ (state k = KTHREAD_DONE ∧ joined k = true)).
Proof.
  unfold idle_entry. intros H Hn. apply is_null_false in Hn. rewrite Hn in H.
  simpl in H. destruct (h !! t) as [k|]; [|done]. exists k. split; [done|].
  apply orb_true_iff in H as [H|H].
  - left. by apply bool_decide_eq_true in H.
  - right. apply andb_true_iff in H as [H1 H2]. by apply bool_decide_eq_true in H1.
Qed.

Lemma tick_scan_idle ts :
  ∀ h i best bp,
    idle_table h ts = true → Scheduler.tick_scan h ts i best bp = Some (h, best, bp).
Proof.
  induction ts as [|t ts IH]; intros h i best bp Hidle; [done|].
  simpl in Hidle. apply andb_true_iff in Hidle as [Ht Hts].
  cbn [Scheduler.tick_scan]. destruct (is_null t) eqn:Hn; [by apply IH|].
  apply is_null_false in Hn.
  destruct (idle_entry_live h t Ht Hn) as (k & Hk & Hst).
  rewrite Hk. simpl.
  rewrite age_sleeper_awake by (destruct Hst as [->|[-> _]]; done). simpl.
  rewrite insert_id by done.
  rewrite (bool_decide_eq_false_2 (state k = KTHREAD_READY))
    by (destruct Hst as [->|[-> _]]; done).
  simpl. by apply IH.
Qed.

Lemma tick_cleanup_idle ts :
  ∀ h, idle_table h ts = true → Scheduler.tick_cleanup h ts = Some (h, ts).
Proof.
  induction ts as [|t ts IH]; intros h Hidle; [done|].
  simpl in Hidle. apply andb_true_iff in Hidle as [Ht Hts].
  cbn [Scheduler.tick_cleanup]. destruct (is_null t) eqn:Hn.
  - by rewrite (IH h Hts).
  - apply is_null_false in Hn.
    destruct (idle_entry_live h t Ht Hn) as (k & Hk & Hst).
    rewrite Hk. simpl.
    assert (bool_decide (state k = KTHREAD_DONE) && negb (joined k) = false) as ->.
    { destruct Hst as [Hr|[Hd Hj]].
      - rewrite bool_decide_eq_false_2; [done|]. by rewrite Hr.
      - rewrite Hj. apply andb_false_r. }
    by rewrite (IH h Hts).
Qed.

Lemma KThreadTick_idle r fuel w :
  idle_table (kheap (kw w)) (threads (g_scheduler (kw w))) = true →
  Scheduler.KThreadTick r fuel w = Ok w.
Proof.
  intros Hidle. unfold Scheduler.KThreadTick.
  destruct (count (g_scheduler (kw w)) =? 0); [done|].
  rewrite (tick_scan_idle _ _ _ _ _ Hidle). simpl.
  rewrite (tick_cleanup_idle _ _ Hidle). simpl.
  by destruct w as [[h [ts c ci] n l] f].
Qed.

Lemma idle_table_join h ts t k :
  idle_table h ts = true → h !! t = Some k → state k = KTHREAD_RUNNING →
  idle_table (<[t := set_joined true k]> h) ts = true.
Proof.
  intros Hidle Hk Hs. unfold idle_table in *.
  rewrite forallb_forall in *. intros x Hx. specialize (Hidle x Hx).
  unfold idle_entry in *. destruct (is_null x); [done|]. simpl in *.
  destruct (decide (x = t)) as [->|Hne].
  - rewrite lookup_insert_eq. simpl. rewrite Hs. done.
  - by rewrite lookup_insert_ne.
Qed.

(** X7.  A tick on a table whose entries are all Running, or Done and
    joined (no entry Ready, asleep, or waiting to be reclaimed) changes
    nothing and invokes no worker.  [StartKThread] leaves a thread Running and
    the tick runs Ready entries only, so on such a table [JoinKThread] on a
    started thread never returns: it is still ticking at every bound. *)
Theorem JoinKThread_of_started_thread_hangs
    (r : EnumRepr) (w : World) (t : ptr) (k : KThread) :
  idle_table (kheap (kw w)) (threads (g_scheduler (kw w))) = true →
  t ≠ NULL →
  kheap (kw w) !! t = Some k →
  state k = KTHREAD_RUNNING →
  (∀ fuel, Scheduler.KThreadTick r fuel w = Ok w)
  ∧ (∀ fuel, Scheduler.JoinKThread r fuel t w = Timeout).
Proof.
  intros Hidle Hn Hk Hs. split; [intros fuel; by apply KThreadTick_idle|].
  intros fuel. unfold Scheduler.JoinKThread.
  rewrite (update_thread_live t _ (kw w) k Hn Hk).
  apply is_null_false in Hn. rewrite Hn. simpl.
  set (w1 := set_kw _ w).
  assert (Hidle1 : idle_table (kheap (kw w1)) (threads (g_scheduler (kw w1))) = true)
    by (by apply idle_table_join).
  assert (Hk1 : kheap (kw w1) !! t = Some (set_joined true k))
    by apply lookup_insert_eq.
  clearbody w1. induction fuel as [|fuel IH]; [done|].
  cbn [Scheduler.join_loop]. rewrite Hk1. simpl.
  rewrite bool_decide_eq_false_2 by (by rewrite Hs).
  rewrite (KThreadTick_idle r fuel w1 Hidle1). simpl. exact IH.
Qed.

Lemma JoinKThread_of_started_thread_hangs_witness :
  Scheduler.KThreadTick EnumInt 3 started_threads_world = Ok started_threads_world
  ∧ Scheduler.JoinKThread EnumInt 1000 200 started_threads_world = Timeout.
Proof.
  destruct (JoinKThread_of_started_thread_hangs EnumInt started_threads_world 200%Z
              (sample_thread (Worker_User [OpYield]) KTHREAD_RUNNING 0 false
                 THREAD_PRIORITY_LOW))
    as [Htick Hjoin].
  - vm_compute. reflexivity.
  - discriminate.
  - reflexivity.
  - reflexivity.
  - split; [apply Htick|apply Hjoin].
Defined.

(** ** Joined threads are never reclaimed *)

Lemma hkeep_refl h : hkeep h h.
Proof. intros x k Hk. eauto. Qed.

Lemma hkeep_trans h1 h2 h3 : hkeep h1 h2 → hkeep h2 h3 → hkeep h1 h3.
Proof.
  intros H12 H23 x k Hk. destruct (H12 x k Hk) as (k2 & Hk2 & Hj2).
  destruct (H23 x k2 Hk2) as (k3 & Hk3 & Hj3). exists k3. split; [done|congruence].
Qed.

Lemma update_thread_hkeep t f w w' :
  (∀ k, joined (f k) = joined k) →
  update_thread t f w = Some w' → hkeep (kheap w) (kheap w').
Proof.
  intros Hf (_ & k & Hk & ->)%update_thread_Some x kx Hx. simpl.
  destruct (decide (x = t)) as [->|Hne].
  - rewrite lookup_insert_eq. exists (f k). split; [done|]. rewrite Hf. congruence.
  - rewrite lookup_insert_ne by done. eauto.
Qed.

Lemma run_op_hkeep op w w' :
  Emulated.run_op op w = Some w' → hkeep (kheap w) (kheap w').
Proof.
  destruct op; simpl; intros H.
  - unfold Emulated.YieldKThread in H.
    destruct (count (g_scheduler w) =? 0); [injection H as <-; apply hkeep_refl|].
    destruct (threads (g_scheduler w) !! current_index (g_scheduler w)) as [t|];
      simpl in H; [|done].
    destruct (is_null t); [injection H as <-; apply hkeep_refl|].
    destruct (kheap w !! t) as [k|]; simpl in H; [|done].
    case_bool_decide; [eapply update_thread_hkeep; [|eassumption]; done|].
    injection H as <-; apply hkeep_refl.
  - unfold Emulated.SleepKThread in H.
    destruct (count (g_scheduler w) =? 0); [injection H as <-; apply hkeep_refl|].
    destruct (threads (g_scheduler w) !! current_index (g_scheduler w)) as [t|];
      simpl in H; [|done].
    destruct (is_null t); [injection H as <-; apply hkeep_refl|].
    eapply update_thread_hkeep; [|eassumption]; done.
  - unfold Emulated.SetKThreadPriority in H.
    destruct (is_null thread); [injection H as <-; apply hkeep_refl|].
    destruct (update_thread thread (set_priority priority0) w) as [w1|] eqn:E;
      simpl in H; [|done].
    injection H as <-. eapply update_thread_hkeep; [|eassumption]; done.
  - unfold Emulated.StartKThread in H.
    destruct (is_null thread); [injection H as <-; apply hkeep_refl|].
    destruct (kheap w !! thread) as [k|]; simpl in H; [|done].
    case_bool_decide; [|injection H as <-; apply hkeep_refl].
    destruct (update_thread thread (set_state KTHREAD_RUNNING) w) as [w1|] eqn:E;
      simpl in H; [|done].
    injection H as <-. eapply update_thread_hkeep; [|eassumption]; done.
  - unfold Emulated.DestroyKThread in H.
    destruct (is_null thread); [injection H as <-; apply hkeep_refl|].
    destruct (update_thread thread (set_state KTHREAD_DONE) w) as [w1|] eqn:E;
      simpl in H; [|done].
    injection H as <-. eapply update_thread_hkeep; [|eassumption]; done.
Qed.

Lemma run_ops_hkeep body :
  ∀ w w', Emulated.run_ops body w = Some w' → hkeep (kheap w) (kheap w').
Proof.
  induction body as [|op body IH]; simpl; intros w w' H.
  - injection H as <-. apply hkeep_refl.
  - destruct (Emulated.run_op op w) as [w1|] eqn:E; simpl in H; [|done].
    eapply hkeep_trans; [by eapply run_op_hkeep|by apply IH].
Qed.

Lemma run_fop_hkeep fuel op w w' :
  Fiber.run_fop fuel op w = Ok w' → hkeep (kheap (kw w)) (kheap (kw w')).
Proof.
  destruct op; simpl; intros H.
  - apply defined_Ok, YieldFiber_Some in H as [_ H].
    by apply (run_op_hkeep OpYield).
  - apply defined_Ok, SleepFiber_Some in H as [_ H].
    by apply (run_op_hkeep (OpSleep ms)).
  - res_inv H. apply hkeep_refl.
  - res_inv H. apply hkeep_refl.
Qed.

Lemma run_fops_hkeep fuel body :
  ∀ w w', Fiber.run_fops fuel body w = Ok w' → hkeep (kheap (kw w)) (kheap (kw w')).
Proof.
  induction body as [|op body IH]; simpl; intros w w' H.
  - injection H as <-. apply hkeep_refl.
  - res_inv H. eapply hkeep_trans; [by eapply run_fop_hkeep|by apply IH].
Qed.

Lemma FiberSchedulerLoop_hkeep fuel :
  ∀ w w', Fiber.FiberSchedulerLoop fuel w = Ok w' → hkeep (kheap (kw w)) (kheap (kw w')).
Proof.
  induction fuel as [|fuel IH]; intros w w' H; [done|].
  cbn [Fiber.FiberSchedulerLoop] in H.
  destruct (running (g_fiber_system (fw w))); [|injection H as <-; apply hkeep_refl].
  apply bind_Ok in H as ([f fw1] & Hpop & H).
  destruct (is_null f).
  - res_inv H. apply IH in H. simpl in H.
    eapply hkeep_trans; [|exact H]. by apply (run_op_hkeep (OpSleep 1)).
  - apply bind_Ok in H as (fb & Hfb & H).
    destruct (finished fb); [by apply IH in H|].
    res_inv H. apply IH in H. apply run_fops_hkeep in Hstep. simpl in *.
    eapply hkeep_trans; [exact Hstep|exact H].
Qed.

Lemma call_worker_hkeep fuel wk w w' :
  Scheduler.call_worker fuel wk w = Ok w' → hkeep (kheap (kw w)) (kheap (kw w')).
Proof.
  destruct wk as [|body]; simpl; intros H.
  - by eapply FiberSchedulerLoop_hkeep.
  - res_inv H. simpl. by eapply run_ops_hkeep.
Qed.

Lemma tick_run_hkeep fuel i w w' :
  Scheduler.tick_run fuel i w = Ok w' → hkeep (kheap (kw w)) (kheap (kw w')).
Proof.
  unfold Scheduler.tick_run. intros H.
  apply bind_Ok in H as (t & Ht & H).
  apply bind_Ok in H as (k1 & Hk1 & H). apply defined_Ok in Hk1.
  apply bind_Ok in H as (k & Hk & H).
  apply bind_Ok in H as (w2 & Hcall & H).
  apply bind_Ok in H as (k2 & Hk2 & H). apply defined_Ok in Hk2.
  injection H as <-. simpl.
  apply update_thread_hkeep in Hk1; [|done].
  apply call_worker_hkeep in Hcall.
  apply update_thread_hkeep in Hk2; [|done].
  simpl in *. eapply hkeep_trans; [exact Hk1|]. eapply hkeep_trans; [exact Hcall|exact Hk2].
Qed.

Lemma age_sleeper_joined k k1 : Scheduler.age_sleeper k = Some k1 → joined k1 = joined k.
Proof.
  unfold Scheduler.age_sleeper. case_bool_decide; [|by intros [= <-]].
  destruct (sleep_ticks k =? INT_MIN)%Z; [done|]. intros [= <-].
  by destruct (_ <=? _)%Z.
Qed.

Lemma tick_scan_hkeep ts :
  ∀ h i best bp h' best' bp',
    Scheduler.tick_scan h ts i best bp = Some (h', best', bp') → hkeep h h'.
Proof.
  induction ts as [|t ts IH]; intros h i best bp h' best' bp' H; simpl in H.
  - injection H as <- _ _. apply hkeep_refl.
  - destruct (is_null t); [by eapply IH|].
    destruct (h !! t) as [k|] eqn:Hk; simpl in H; [|done].
    destruct (Scheduler.age_sleeper k) as [k1|] eqn:Hk1; simpl in H; [|done].
    assert (Hins : hkeep h (<[t := k1]> h)).
    { intros x kx Hx. destruct (decide (x = t)) as [->|Hne].
      - rewrite lookup_insert_eq. exists k1. split; [done|].
        rewrite (age_sleeper_joined k k1 Hk1). congruence.
      - rewrite lookup_insert_ne by done. eauto. }
    destruct (_ && _); (eapply hkeep_trans; [exact Hins|by eapply IH]).
Qed.

Lemma tick_cleanup_keeps_joined ts :
  ∀ h h' l,
    Scheduler.tick_cleanup h ts = Some (h', l) →
    ∀ x k, h !! x = Some k → joined k = true →
           h' !! x = Some k ∧ (x ∈ ts → x ∈ l).
Proof.
  induction ts as [|t ts IH]; intros h h' l H x k Hx Hj; simpl in H.
  - injection H as <- <-. split; [done|]. by intros ?%elem_of_nil.
  - destruct (is_null t) eqn:Hn.
    + destruct (Scheduler.tick_cleanup h ts) as [[h1 l1]|] eqn:E; simpl in H; [|done].
      injection H as <- <-. destruct (IH _ _ _ E x k Hx Hj) as [H1 H2].
      split; [done|]. intros Hin. apply elem_of_cons in Hin as [->|Hin]; [by left|].
      right. by apply H2.
    + destruct (h !! t) as [kt|] eqn:Hkt; simpl in H; [|done].
      destruct (bool_decide (state kt = KTHREAD_DONE) && negb (joined kt)) eqn:Hrec.
      * assert (x ≠ t) as Hne.
        { intros ->. rewrite Hkt in Hx. injection Hx as ->.
          rewrite Hj in Hrec. by rewrite andb_false_r in Hrec. }
        destruct (IH _ _ _ H x k) as [H1 H2]; [by rewrite lookup_delete_ne|done|].
        split; [done|]. intros Hin. apply elem_of_cons in Hin as [->|Hin]; [done|].
        by apply H2.
      * destruct (Scheduler.tick_cleanup h ts) as [[h1 l1]|] eqn:E; simpl in H; [|done].
        injection H as <- <-. destruct (IH _ _ _ E x k Hx Hj) as [H1 H2].
        split; [done|]. intros Hin. apply elem_of_cons in Hin as [->|Hin]; [by left|].
        right. by apply H2.
Qed.

(** X8.  A thread that has been joined is never reclaimed: after a tick that
    completes (whatever the workers it ran did through the interface) the
    thread object is still allocated, still joined, and still in the table if
    it was; and [DestroyKThread] frees nothing either.  Nothing in the emulated
    backend ever frees a joined thread. *)
Theorem joined_thread_is_never_reclaimed
    (r : EnumRepr) (fuel : nat) (w w' : World) (t : ptr) (k : KThread) :
  kheap (kw w) !! t = Some k →
  joined k = true →
  (Scheduler.KThreadTick r fuel w = Ok w' →
   (∃ k', kheap (kw w') !! t = Some k' ∧ joined k' = true)
   ∧ (t ∈ threads (g_scheduler (kw w)) → t ∈ threads (g_scheduler (kw w'))))
  ∧ (∀ x b k1, Emulated.DestroyKThread x (kw w) = Some (b, k1) →
               ∃ k', kheap k1 !! t = Some k' ∧ joined k' = true).
Proof.
  intros Hk Hj. split.
  - unfold Scheduler.KThreadTick. intros H.
    destruct (count (g_scheduler (kw w)) =? 0); [injection H as <-; eauto|].
    apply bind_Ok in H as ([[h1 best] bp] & Hscan & H). apply defined_Ok in Hscan.
    apply bind_Ok in H as (w2 & Hrun & H).
    apply bind_Ok in H as ([h3 ts3] & Hcl & H). apply defined_Ok in Hcl.
    injection H as <-. simpl.
    apply tick_scan_hkeep in Hscan.
    assert (Hmid : hkeep (kheap (kw w)) (kheap (kw w2))
                   ∧ threads (g_scheduler (kw w2)) = threads (g_scheduler (kw w))).
    { destruct best as [i|].
      - pose proof (tick_run_hkeep _ _ _ _ Hrun) as Hh.
        apply tick_run_klog in Hrun as (_ & _ & _ & Hts). simpl in *.
        split; [by eapply hkeep_trans|done].
      - injection Hrun as <-. simpl. done. }
    destruct Hmid as [Hh Hts].
    destruct (Hh t k Hk) as (k2 & Hk2 & Hj2).
    destruct (tick_cleanup_keeps_joined _ _ _ _ Hcl t k2 Hk2) as [H1 H2]; [congruence|].
    split; [exists k2; split; [done|congruence]|].
    intros Hin. apply H2. by rewrite Hts.
  - intros x b k1 Hd.
    pose proof (run_op_hkeep (OpDestroy x) (kw w) k1) as Hh. simpl in Hh.
    rewrite Hd in Hh. destruct (Hh eq_refl t k Hk) as (k' & Hk' & Hj').
    exists k'. split; [done|congruence].
Qed.

Lemma joined_thread_is_never_reclaimed_witness :
  ∃ w', Scheduler.KThreadTick EnumInt 1 four_thread_world = Ok w'
        ∧ (∃ k', kheap (kw w') !! 300%Z = Some k' ∧ joined k' = true)
        ∧ 300%Z ∈ threads (g_scheduler (kw w')).
Proof.
  destruct (Scheduler.KThreadTick EnumInt 1 four_thread_world) as [w'| |] eqn:E;
    [|by vm_compute in E..].
  destruct (joined_thread_is_never_reclaimed EnumInt 1 four_thread_world w' 300%Z
              (sample_thread (Worker_User []) KTHREAD_READY 0 true THREAD_PRIORITY_HIGH))
    as [Htick _].
  - reflexivity.
  - reflexivity.
  - destruct (Htick E) as [Hlive Hin]. exists w'. split_and!; [reflexivity|exact Hlive|].
    apply Hin. simpl. repeat (first [by left | right]).
Defined.

(** ** The run queue as a stack *)

Lemma is_queue_cons_inv h p f l :
  is_queue h p (f :: l) →
  p = f ∧ f ≠ NULL ∧ ∃ k, h !! f = Some k ∧ is_queue h (next k) l.
Proof. inversion 1; subst. eauto. Qed.

Lemma pop_n_prefix fuel l1 :
  ∀ fw l2,
    queue_of fw (l1 ++ l2) →
    ∃ fw', pop_n (S fuel) (length l1) fw = Ok (l1, fw')
           ∧ queue_of fw' l2
           ∧ fheap fw' = fheap fw
           ∧ flog fw' = flog fw.
Proof.
  induction l1 as [|f l1 IH]; intros fw l2 Hq.
  - exists fw. done.
  - cbn [length pop_n]. unfold queue_of in Hq. simpl in Hq.
    apply is_queue_cons_inv in Hq as (Hhead & Hn & k & Hk & Hq').
    rewrite (PopFiber_head fuel fw f k) by done. simpl.
    destruct (IH (set_run_queue (next k) fw) l2) as (fw' & Hp & Hq2 & Hh & Hl); [done|].
    rewrite Hp. simpl. exists fw'. done.
Qed.

(** X9.  On a well-formed queue, [n] pops in a row (nothing interleaved)
    return the first [n] fibers of the queue in queue order and leave the
    rest queued; no fiber object is written, so a popped fiber still carries
    the link it had in the queue. *)
Theorem pops_return_queue_prefix (fuel n : nat) (fw : FWorld) (l : list ptr) :
  queue_of fw l →
  n ≤ length l →
  ∃ fw', pop_n (S fuel) n fw = Ok (take n l, fw')
         ∧ queue_of fw' (drop n l)
         ∧ fheap fw' = fheap fw.
Proof.
  intros Hq Hn. rewrite <- (take_drop n l) in Hq.
  destruct (pop_n_prefix fuel (take n l) fw (drop n l) Hq) as (fw' & Hp & Hq' & Hh & _).
  rewrite length_take, Nat.min_l in Hp by done. eauto.
Qed.

Lemma pops_return_queue_prefix_witness :
  ∃ fw', pop_n 1 1 queue_100 = Ok ([100%Z], fw') ∧ queue_of fw' [].
Proof.
  destruct (pops_return_queue_prefix 0 1 queue_100 [100%Z]) as (fw' & Hp & Hq & _).
  - unfold queue_of. econstructor; [discriminate|reflexivity|]. constructor.
  - simpl. lia.
  - exists fw'. split; [exact Hp|exact Hq].
Defined.

Lemma push_all_queue fuel fs :
  ∀ fw l,
    NoDup fs →
    (∀ f, f ∈ fs → f ≠ NULL ∧ is_Some (fheap fw !! f) ∧ f ∉ l) →
    queue_of fw l →
    ∃ fw', push_all (S fuel) fs fw = Ok fw'
           ∧ queue_of fw' (rev fs ++ l)
           ∧ (∀ x, x ∉ fs → fheap fw' !! x = fheap fw !! x).
Proof.
  induction fs as [|f fs IH]; intros fw l Hnd Hfs Hq.
  - exists fw. done.
  - apply NoDup_cons in Hnd as [Hf Hnd].
    destruct (Hfs f) as (Hn & [k Hk] & Hfl); [by left|].
    cbn [push_all]. rewrite (PushFiber_live fuel f fw k Hn Hk). simpl.
    set (fw1 := set_run_queue f _).
    destruct (IH fw1 (f :: l)) as (fw' & Hp & Hq' & Hout).
    + done.
    + intros g Hg. destruct (Hfs g) as (Hgn & [kg Hkg] & Hgl); [by right|].
      assert (g ≠ f) by (intros ->; done).
      split_and!; [done| |].
      * unfold fw1. simpl. rewrite lookup_insert_ne by done. eauto.
      * apply not_elem_of_cons. done.
    + destruct (PushFiber_queue fuel f fw k l Hn Hk Hq Hfl) as (fw1' & Hp1 & Hq1).
      rewrite (PushFiber_live fuel f fw k Hn Hk) in Hp1. by injection Hp1 as <-.
    + exists fw'. split; [done|]. split.
      * simpl. by rewrite <- app_assoc.
      * intros x Hx. apply not_elem_of_cons in Hx as [Hne Hx].
        rewrite Hout by done. unfold fw1. simpl. by rewrite lookup_insert_ne.
Qed.

(** X10.  The run queue is a stack.  Pushing distinct live fibers that are
    not queued, one after the other, puts them in front of the queue in
    reverse order of submission; popping as many times returns them last
    submitted first, and leaves the queue as it was before the pushes. *)
Theorem pushes_then_pops_are_lifo (fuel : nat) (fs : list ptr) (fw : FWorld) (l : list ptr) :
  NoDup fs →
  (∀ f, f ∈ fs → f ≠ NULL ∧ is_Some (fheap fw !! f) ∧ f ∉ l) →
  queue_of fw l →
  ∃ fw1 fw2,
    push_all (S fuel) fs fw = Ok fw1
    ∧ queue_of fw1 (rev fs ++ l)
    ∧ pop_n (S fuel) (length fs) fw1 = Ok (rev fs, fw2)
    ∧ queue_of fw2 l
    ∧ run_queue (g_fiber_system fw2) = run_queue (g_fiber_system fw).
Proof.
  intros Hnd Hfs Hq.
  destruct (push_all_queue fuel fs fw l Hnd Hfs Hq) as (fw1 & Hp & Hq1 & _).
  destruct (pop_n_prefix fuel (rev fs) fw1 l Hq1) as (fw2 & Hpop & Hq2 & _).
  rewrite length_rev in Hpop. exists fw1, fw2. split_and!; try done.
  clear -Hq Hq2. unfold queue_of in *.
  inversion Hq as [Hh|f k l' Hn Hk Hq' Hh]; inversion Hq2 as [Hh2|f2 k2 l2 Hn2 Hk2 Hq2' Hh2];
    subst; congruence.
Qed.

Lemma pushes_then_pops_are_lifo_witness :
  ∃ fw1 fw2,
    push_all 1 [300; 400]%Z queue_100 = Ok fw1
    ∧ queue_of fw1 [400; 300; 100]%Z
    ∧ pop_n 1 2 fw1 = Ok ([400; 300]%Z, fw2)
    ∧ queue_of fw2 [100%Z].
Proof.
  destruct (pushes_then_pops_are_lifo 0 [300; 400]%Z queue_100 [100%Z])
    as (fw1 & fw2 & Hp & Hq1 & Hpop & Hq2 & _).
  - repeat constructor; intros H;
      repeat (apply elem_of_cons in H as [H|H]; [discriminate|]); by apply elem_of_nil in H.
  - intros f Hf.
    repeat (apply elem_of_cons in Hf as [->|Hf];
            [split_and!; [discriminate|vm_compute; eauto|
               intros H; repeat (apply elem_of_cons in H as [H|H]; [discriminate|]);
               by apply elem_of_nil in H]|]).
    by apply elem_of_nil in Hf.
  - unfold queue_of. econstructor; [discriminate|reflexivity|]. constructor.
  - exists fw1, fw2. split_and!; assumption.
Defined.

(** ** Destroying a fiber that is still queued *)

Lemma is_queue_through_freed h p l f :
  is_queue h p l → f ∈ l → ∀ l', ¬ is_queue (delete f h) p l'.
Proof.
  induction 1 as [|x k l Hn Hk Hq IH]; intros Hf l' Hq'.
  - by apply elem_of_nil in Hf.
  - inversion Hq' as [Hnull|x' k' l'' Hn' Hk' Hq'' Hx]; subst; [done|].
    destruct (decide (x = f)) as [->|Hne].
    + by rewrite lookup_delete_eq in Hk'.
    + rewrite lookup_delete_ne in Hk' by done.
      rewrite Hk in Hk'. injection Hk' as <-.
      apply elem_of_cons in Hf as [->|Hf]; [done|]. by eapply IH.
Qed.

(** X11.  [DestroyFiber] does not look at the queue: destroying a fiber that
    is still linked in it succeeds and leaves the queue leading into freed
    memory (the head pointer and the links are as before, the fiber is gone),
    so no list of fibers describes the queue any more; when the fiber was the
    head, the next pop is a use after free. *)
Theorem DestroyFiber_of_queued_fiber_breaks_queue (fw : FWorld) (l : list ptr) (f : ptr) :
  queue_of fw l →
  f ∈ l →
  ∃ fw',
    Fiber.DestroyFiber f fw = Some fw'
    ∧ run_queue (g_fiber_system fw') = run_queue (g_fiber_system fw)
    ∧ fheap fw' = delete f (fheap fw)
    ∧ (∀ l', ¬ queue_of fw' l')
    ∧ (run_queue (g_fiber_system fw) = f → ∀ n, Fiber.PopFiber (S n) fw' = Undefined).
Proof.
  intros Hq Hf. destruct (is_queue_members _ _ _ Hq f Hf) as [Hn [k Hk]].
  unfold Fiber.DestroyFiber. pose proof Hn as Hn'. apply is_null_false in Hn'.
  rewrite Hn', Hk. simpl. eexists. split; [done|]. simpl. split_and!; try done.
  - intros l'. unfold queue_of. simpl. by eapply is_queue_through_freed.
  - intros Hhead n. cbn [Fiber.PopFiber].
    unfold Fiber.FiberDatLoad_run_queue, deref_fiber. simpl.
    rewrite Hhead, Hn', lookup_delete_eq. done.
Qed.

Lemma DestroyFiber_of_queued_fiber_breaks_queue_witness :
  ∃ fw', Fiber.DestroyFiber 100 queue_100 = Some fw'
         ∧ Fiber.PopFiber 1 fw' = Undefined.
Proof.
  destruct (DestroyFiber_of_queued_fiber_breaks_queue queue_100 [100%Z] 100%Z)
    as (fw' & Hd & _ & _ & _ & Hpop).
  - unfold queue_of. econstructor; [discriminate|reflexivity|]. constructor.
  - by left.
  - exists fw'. split; [exact Hd|]. by apply Hpop.
Defined.

(** ** A fiber body runs at most once *)

Lemma fkeep_refl h : fkeep h h.
Proof. intros g k Hk. eauto. Qed.

Lemma fkeep_trans h1 h2 h3 : fkeep h1 h2 → fkeep h2 h3 → fkeep h1 h3.
Proof.
  intros H12 H23 g k Hk. destruct (H12 g k Hk) as (k2 & Hk2 & Hf2).
  destruct (H23 g k2 Hk2) as (k3 & Hk3 & Hf3). exists k3. split; [done|auto].
Qed.

Lemma update_fiber_fkeep f g fw fw' :
  (∀ k, finished k = true → finished (g k) = true) →
  update_fiber f g fw = Some fw' →
  fkeep (fheap fw) (fheap fw') ∧ flog fw' = flog fw
  ∧ g_fiber_system fw' = g_fiber_system fw.
Proof.
  intros Hg (_ & k & Hk & ->)%update_fiber_Some. simpl. split; [|done].
  intros x kx Hx. destruct (decide (x = f)) as [->|Hne].
  - rewrite lookup_insert_eq. exists (g k). split; [done|].
    rewrite Hk in Hx. injection Hx as <-. apply Hg.
  - rewrite lookup_insert_ne by done. eauto.
Qed.

Lemma PushFiber_fkeep fuel f :
  ∀ fw fw', Fiber.PushFiber fuel f fw = Ok fw' →
            fkeep (fheap fw) (fheap fw') ∧ flog fw' = flog fw.
Proof.
  induction fuel as [|fuel IH]; intros fw fw' H; [done|].
  cbn [Fiber.PushFiber] in H.
  apply bind_Ok in H as (fw1 & Hup & H). apply defined_Ok in Hup.
  apply update_fiber_fkeep in Hup as (Hk1 & Hl1 & _); [|done].
  unfold Fiber.cas_run_queue in H.
  destruct (_ =? _)%Z.
  - injection H as <-. simpl. done.
  - apply IH in H as [Hk2 Hl2]. split; [by eapply fkeep_trans|congruence].
Qed.

Lemma PopFiber_frame fuel :
  ∀ fw f fw', Fiber.PopFiber fuel fw = Ok (f, fw') →
              fheap fw' = fheap fw ∧ flog fw' = flog fw.
Proof.
  induction fuel as [|fuel IH]; intros fw f fw' H; [done|].
  cbn [Fiber.PopFiber] in H.
  destruct (is_null _); [by injection H as _ <-|].
  apply bind_Ok in H as (k & _ & H). unfold Fiber.cas_run_queue in H.
  destruct (_ =? _)%Z.
  - by injection H as _ <-.
  - by apply IH in H.
Qed.

Lemma run_fop_fkeep fuel op w w' :
  Fiber.run_fop fuel op w = Ok w' →
  fkeep (fheap (fw w)) (fheap (fw w')) ∧ flog (fw w') = flog (fw w).
Proof.
  destruct op; simpl; intros H.
  - apply defined_Ok, YieldFiber_Some in H as [-> _]. split; [apply fkeep_refl|done].
  - apply defined_Ok, SleepFiber_Some in H as [-> _]. split; [apply fkeep_refl|done].
  - apply bind_Ok in H as (f' & Hrun & H). injection H as <-. simpl.
    unfold Fiber.RunFiber in Hrun.
    destruct (is_null f); [injection Hrun as <-; split; [apply fkeep_refl|done]|].
    apply bind_Ok in Hrun as (k & _ & Hrun).
    destruct (finished k); [injection Hrun as <-; split; [apply fkeep_refl|done]|].
    by apply PushFiber_fkeep in Hrun.
  - apply bind_Ok in H as (f' & Hset & H). injection H as <-. simpl.
    apply defined_Ok in Hset. unfold Fiber.SetFiberPriority in Hset.
    destruct (is_null f); [injection Hset as <-; split; [apply fkeep_refl|done]|].
    apply update_fiber_fkeep in Hset as (? & ? & _); done.
Qed.

Lemma run_fops_fkeep fuel body :
  ∀ w w', Fiber.run_fops fuel body w = Ok w' →
          fkeep (fheap (fw w)) (fheap (fw w')) ∧ flog (fw w') = flog (fw w).
Proof.
  induction body as [|op body IH]; simpl; intros w w' H.
  - injection H as <-. split; [apply fkeep_refl|done].
  - apply bind_Ok in H as (w1 & H1 & H).
    apply run_fop_fkeep in H1 as [Hk1 Hl1]. apply IH in H as [Hk2 Hl2].
    split; [by eapply fkeep_trans|congruence].
Qed.

(** The loop of [FiberSchedulerLoop] is [scheduler_pass] repeated while the
    running flag is up. *)
Lemma FiberSchedulerLoop_unfold fuel w :
  Fiber.FiberSchedulerLoop (S fuel) w
  = if running (g_fiber_system (fw w))
    then scheduler_pass (S fuel) w ≫= Fiber.FiberSchedulerLoop fuel
    else Ok w.
Proof.
  cbn [Fiber.FiberSchedulerLoop]. unfold scheduler_pass.
  destruct (running (g_fiber_system (fw w))); [|done].
  destruct (Fiber.PopFiber (S fuel) (fw w)) as [[f fw1]| |]; simpl; try done.
  destruct (is_null f).
  - destruct (defined (Emulated.SleepKThread 1 _)); done.
  - destruct (defined (deref_fiber f _)) as [fb| |]; simpl; try done.
    destruct (finished fb); [done|].
    destruct (Fiber.run_fops _ _ _) as [w2| |]; simpl; try done.
    destruct (defined (update_fiber f _ _)); done.
Qed.

(** X12.  One pass of the scheduler loop that completes invokes at most one
    fiber body, and only the body of a fiber whose finished flag was down;
    that fiber's flag is up when the pass ends.  A flag that is up stays up
    across the pass, whatever the body did with [YieldFiber], [SleepFiber],
    [RunFiber] and [SetFiberPriority] (resubmitting itself included), and
    every fiber object stays allocated. *)
Theorem scheduler_pass_runs_unfinished_fiber_once (fuel : nat) (w w' : World) :
  scheduler_pass fuel w = Ok w' →
  fkeep (fheap (fw w)) (fheap (fw w'))
  ∧ (flog (fw w') = flog (fw w)
     ∨ ∃ f fb,
         flog (fw w') = flog (fw w) ++ [f]
         ∧ run_queue (g_fiber_system (fw w)) = f
         ∧ fheap (fw w) !! f = Some fb
         ∧ finished fb = false
         ∧ finished <$> fheap (fw w') !! f = Some true).
Proof.
  unfold scheduler_pass. intros H.
  apply bind_Ok in H as ([f fw1] & Hpop & H).
  pose proof (PopFiber_frame _ _ _ _ Hpop) as [Hh1 Hl1].
  destruct (is_null f) eqn:Hn.
  - apply bind_Ok in H as (k & _ & H). injection H as <-. simpl.
    rewrite Hh1, Hl1. split; [apply fkeep_refl|by left].
  - apply bind_Ok in H as (fb & Hfb & H). apply defined_Ok in Hfb. simpl in Hfb.
    destruct (finished fb) eqn:Hfin.
    + injection H as <-. simpl. rewrite Hh1, Hl1. split; [apply fkeep_refl|by left].
    + apply bind_Ok in H as (w2 & Hbody & H).
      apply bind_Ok in H as (fw3 & Hset & H). apply defined_Ok in Hset.
      injection H as <-. simpl.
      apply run_fops_fkeep in Hbody as [Hk2 Hl2]. simpl in Hk2, Hl2.
      pose proof (update_fiber_Some _ _ _ _ Hset) as (_ & k3 & Hk3 & Hfw3).
      apply update_fiber_fkeep in Hset as (Hk3' & Hl3 & _); [|done].
      rewrite Hh1 in Hk2. split; [by eapply fkeep_trans|].
      right. exists f, fb. unfold deref_fiber in Hfb. rewrite Hn, Hh1 in Hfb.
      split_and!; try done.
      * rewrite Hl3, Hl2, Hl1. done.
      * destruct fuel as [|fuel]; [done|]. cbn [Fiber.PopFiber] in Hpop.
        unfold Fiber.FiberDatLoad_run_queue in Hpop.
        destruct (is_null (run_queue (g_fiber_system (fw w)))) eqn:Hq.
        { injection Hpop as <- _. done. }
        apply bind_Ok in Hpop as (kq & _ & Hpop). unfold Fiber.cas_run_queue in Hpop.
        rewrite Z.eqb_refl in Hpop. by injection Hpop as <- _.
      * rewrite Hfw3. simpl. by rewrite lookup_insert_eq.
Qed.

Lemma scheduler_pass_runs_unfinished_fiber_once_witness :
  ∃ w1 w2,
    scheduler_pass 1 resubmitting_fiber_world = Ok w1
    ∧ flog (fw w1) = [100%Z]
    ∧ run_queue (g_fiber_system (fw w1)) = 100%Z
    ∧ scheduler_pass 1 w1 = Ok w2
    ∧ flog (fw w2) = [100%Z].
Proof.
  destruct (scheduler_pass 1 resubmitting_fiber_world) as [w1| |] eqn:E1;
    [|by vm_compute in E1..].
  destruct (scheduler_pass 1 w1) as [w2| |] eqn:E2;
    [|vm_compute in E1; injection E1 as <-; by vm_compute in E2..].
  destruct (scheduler_pass_runs_unfinished_fiber_once 1 resubmitting_fiber_world w1 E1)
    as [Hkeep _].
  exists w1, w2. vm_compute in E1. injection E1 as <-.
  vm_compute in E2. injection E2 as <-.
  split_and!; reflexivity.
Defined.

(** ** A started pool cannot be shut down *)

Lemma JoinKThread_idle_Timeout r w t k :
  idle_table (kheap (kw w)) (threads (g_scheduler (kw w))) = true →
  t ≠ NULL → kheap (kw w) !! t = Some k → state k = KTHREAD_RUNNING →
  ∀ fuel, Scheduler.JoinKThread r fuel t w = Timeout.
Proof.
  intros Hidle Hn Hk Hs fuel. unfold Scheduler.JoinKThread.
  rewrite (update_thread_live t _ (kw w) k Hn Hk).
  apply is_null_false in Hn. rewrite Hn. simpl.
  set (w1 := set_kw _ w).
  assert (Hidle1 : idle_table (kheap (kw w1)) (threads (g_scheduler (kw w1))) = true)
    by (by apply idle_table_join).
  assert (Hk1 : kheap (kw w1) !! t = Some (set_joined true k))
    by apply lookup_insert_eq.
  clearbody w1. induction fuel as [|fuel IH]; [done|].
  cbn [Scheduler.join_loop]. rewrite Hk1. simpl.
  rewrite bool_decide_eq_false_2 by (by rewrite Hs).
  rewrite (KThreadTick_idle r fuel w1 Hidle1). simpl. exact IH.
Qed.

Lemma idle_table_app h ts1 ts2 :
  idle_table h (ts1 ++ ts2) = idle_table h ts1 && idle_table h ts2.
Proof. unfold idle_table. apply forallb_app. Qed.

(** X13.  [InitFiberSys] followed by [ShutdownFiberSys] never returns on the
    emulated backend.  When the allocator serves every request and the table
    has no entry that is Ready, asleep or waiting to be reclaimed (an empty
    table, for one), [InitFiberSys] returns with its workers Running; a tick
    runs Ready entries only, so no worker is ever invoked, none reaches Done,
    and [ShutdownFiberSys] is still inside the [JoinKThread] of the first
    worker at every bound on the iterations. *)
Theorem ShutdownFiberSys_after_InitFiberSys_never_returns
    (r : EnumRepr) (worker_threads : Z) (p : ThreadPriority) (a : Alloc) (w : World) :
  supply_okb (kheap (kw w)) a = true →
  2 * Z.to_nat (if (worker_threads >? 0)%Z then worker_threads else 4%Z) + 1 ≤ length a →
  idle_table (kheap (kw w)) (threads (g_scheduler (kw w))) = true →
  ∃ a' w',
    Scheduler.InitFiberSys worker_threads p a w = Ok (a', w')
    ∧ idle_table (kheap (kw w')) (threads (g_scheduler (kw w'))) = true
    ∧ (∀ fuel, Scheduler.KThreadTick r fuel w' = Ok w')
    ∧ (∀ fuel, Scheduler.ShutdownFiberSys r fuel w' = Timeout).
Proof.
  intros Hs Hlen Hidle. apply supply_okb_ok in Hs.
  unfold Scheduler.InitFiberSys.
  set (n := if (worker_threads >? 0)%Z then worker_threads else 4%Z) in *.
  assert (Hpos : (0 < n)%Z).
  { subst n. destruct (worker_threads >? 0)%Z eqn:E; lia. }
  destruct a as [|p0 a1]; simpl in Hlen; [lia|].
  destruct (supply_ok_tail _ _ _ Hs) as [Hs1 _].
  destruct Hs as [_ Hall]. destruct (Hall p0) as [Hn0 _]; [by left|].
  apply is_null_false in Hn0. simpl. rewrite Hn0.
  set (w0 := set_fw _ w).
  destruct (init_workers_ok p (Z.to_nat n) 0 a1 w0 (replicate (Z.to_nat n) NULL))
    as (a' & w' & l & Hrun & Hl & Hnd & Hsub & Hfw & Hpool & Hframe & Hts).
  { reflexivity. }
  { rewrite length_replicate. lia. }
  { lia. }
  { exact Hs1. }
  exists a', w'. split; [exact Hrun|].
  assert (Hidle' : idle_table (kheap (kw w')) (threads (g_scheduler (kw w'))) = true).
  { rewrite Hts, idle_table_app. apply andb_true_iff. split.
    - unfold idle_table in *. rewrite forallb_forall in *. intros x Hx.
      specialize (Hidle x Hx). unfold idle_entry in *.
      destruct (is_null x) eqn:Hnx; [done|]. simpl in *.
      rewrite Hframe; [exact Hidle|].
      intros Hxl. apply Hsub in Hxl.
      destruct (Hall x) as [_ Hfree]; [by right|].
      simpl in Hfree. by rewrite Hfree in Hidle.
    - unfold idle_table. rewrite forallb_forall. intros x Hx.
      apply list_elem_of_In in Hx. destruct (Hpool x Hx) as (Hnx & k & Hk & _ & _ & Hst).
      unfold idle_entry. apply is_null_false in Hnx. rewrite Hnx, Hk. simpl.
      by rewrite bool_decide_eq_true_2. }
  split; [exact Hidle'|]. split; [intros fuel; by apply KThreadTick_idle|].
  intros fuel. unfold Scheduler.ShutdownFiberSys.
  set (w1 := set_fw _ w').
  assert (Hwc : worker_count (g_fiber_system (fw w1)) = n) by (subst w1; by rewrite Hfw).
  assert (Hws : workers (g_fiber_system (fw w1)) = Some l).
  { subst w1. rewrite Hfw. simpl.
    rewrite drop_ge by (rewrite length_replicate; lia). by rewrite app_nil_r. }
  rewrite Hwc. destruct (Z.to_nat n) as [|m] eqn:Hm; [lia|].
  cbn [Scheduler.shutdown_workers]. rewrite Hws. simpl.
  destruct l as [|t l]; [done|]. simpl.
  destruct (Hpool t) as (Hnt & k & Hk & _ & _ & Hst); [by left|].
  rewrite (JoinKThread_idle_Timeout r w1 t k); done.
Qed.

Lemma ShutdownFiberSys_after_InitFiberSys_never_returns_witness :
  ∃ a' w',
    Scheduler.InitFiberSys 2 THREAD_PRIORITY_HIGH [50; 51; 52; 53; 54]%Z empty_world
    = Ok (a', w')
    ∧ Scheduler.KThreadTick EnumInt 10 w' = Ok w'
    ∧ Scheduler.ShutdownFiberSys EnumInt 1000 w' = Timeout.
Proof.
  destruct (ShutdownFiberSys_after_InitFiberSys_never_returns EnumInt 2
              THREAD_PRIORITY_HIGH [50; 51; 52; 53; 54]%Z empty_world)
    as (a' & w' & Hinit & _ & Htick & Hshut).
  - vm_compute. reflexivity.
  - simpl. lia.
  - reflexivity.
  - exists a', w'. split; [exact Hinit|]. split; [apply Htick|apply Hshut].
Defined.

(** ** The POSIX backend: memory and arguments *)

Section UnixFacts.

Variable OS : Type.
Variable pthread_join : Z → OS → Z * OS.
Variable pthread_cond_destroy pthread_mutex_destroy : ptr → OS → OS.
Variable pthread_mutex_lock pthread_mutex_unlock pthread_cond_signal : ptr → OS → OS.
Variable pthread_getschedparam : Z → OS → Z * Z * Z.
Variable sched_get_priority_min sched_get_priority_max : Z → Z.
Variable pthread_setschedparam : Z → Z → Z → OS → Z * OS.
Variable pthread_mutex_init pthread_cond_init : ptr → OS → OS.
Variable pthread_create : ptr → OS → Z * Z * OS.
Variable nanosleep : Z → Z → OS → OS.

Local Abbreviation CreateKThread :=
  (Unix.CreateKThread OS pthread_cond_destroy pthread_mutex_destroy
     pthread_mutex_init pthread_cond_init pthread_create).
Local Abbreviation StartKThread :=
  (Unix.StartKThread OS pthread_mutex_lock pthread_mutex_unlock pthread_cond_signal).
Local Abbreviation DestroyKThread :=
  (Unix.DestroyKThread OS pthread_join pthread_cond_destroy pthread_mutex_destroy).
Local Abbreviation SetKThreadPriority :=
  (Unix.SetKThreadPriority OS pthread_getschedparam sched_get_priority_min
     sched_get_priority_max pthread_setschedparam).
Local Abbreviation SleepKThread := (Unix.SleepKThread OS nanosleep).

(** X14.  [CreateKThread] of the POSIX backend, with an allocator that hands
    out blocks not in use.  The call is defined.  When it returns null (no
    thread block, no context block, or [pthread_create] failed), the thread
    objects and the contexts are as before the call: every block it took has
    been given back; and the operating system is untouched, or the mutex and
    the condition variable it initialised have been destroyed after the failed
    [pthread_create].  When it returns a thread, the allocator gave two
    blocks, [pthread_create] succeeded, the thread object is new, not started
    and not finished, with the worker and a new context that carries the user
    pointer; the [ID] of that context is what the block held before. *)
Theorem Unix_CreateKThread_allocates_or_releases
    (worker : KThreadWorker) (user_ptr : ptr) (junk : Unix.KThread) (junk_id : Z)
    (a : Alloc) (w : Unix.UWorld OS) :
  (∀ p, p ∈ a → Unix.uthreads OS w !! p = None ∧ Unix.uctxs OS w !! p = None) →
  ∃ r a' w',
    CreateKThread worker user_ptr junk junk_id a w = Some (r, a', w')
    ∧ (r = NULL →
       Unix.uthreads OS w' = Unix.uthreads OS w
       ∧ Unix.uctxs OS w' = Unix.uctxs OS w
       ∧ (Unix.os OS w' = Unix.os OS w
          ∨ ∃ t res tid o3,
              pthread_create t (pthread_cond_init t (pthread_mutex_init t (Unix.os OS w)))
              = (res, tid, o3)
              ∧ res ≠ 0%Z
              ∧ Unix.os OS w' = pthread_mutex_destroy t (pthread_cond_destroy t o3)))
    ∧ (r ≠ NULL →
       ∃ c tid,
         a = r :: c :: a' ∧ c ≠ NULL
         ∧ pthread_create r (pthread_cond_init r (pthread_mutex_init r (Unix.os OS w)))
           = (0%Z, tid, Unix.os OS w')
         ∧ Unix.uthreads OS w'
           = <[r := Unix.mkKThread tid false false worker c]> (Unix.uthreads OS w)
         ∧ Unix.uctxs OS w' = <[c := mkContext junk_id user_ptr]> (Unix.uctxs OS w)).
Proof.
  intros Hfresh. unfold Unix.CreateKThread.
  destruct a as [|t a1]; simpl.
  { exists NULL, [], w. split; [done|]. split; [by auto|done]. }
  destruct (is_null t) eqn:Hnt.
  { exists NULL, a1, w. split; [done|]. split; [by auto|done]. }
  destruct (Hfresh t) as [Hft _]; [by left|].
  destruct a1 as [|c a2]; simpl.
  { unfold Unix.free. rewrite lookup_insert_eq. simpl.
    eexists NULL, [], _. split; [done|]. simpl.
    split; [|done]. intros _. rewrite delete_insert_id by done. by auto. }
  destruct (is_null c) eqn:Hnc.
  { unfold Unix.free. rewrite lookup_insert_eq. simpl.
    eexists NULL, a2, _. split; [done|]. simpl.
    split; [|done]. intros _. rewrite delete_insert_id by done. by auto. }
  destruct (Hfresh c) as [_ Hfc]; [right; by left|].
  destruct (pthread_create t _) as [[res tid] o3] eqn:Hcreate.
  destruct (res =? 0)%Z eqn:Hres; simpl.
  - apply Z.eqb_eq in Hres. subst res.
    eexists t, a2, _. split; [done|]. simpl.
    split; [intros ->; done|]. intros _. exists c, tid.
    apply is_null_false in Hnc. split_and!; try done.
    by rewrite !insert_insert_eq.
  - apply Z.eqb_neq in Hres. unfold Unix.free.
    rewrite !lookup_insert_eq. simpl.
    eexists NULL, a2, _. split; [done|]. simpl.
    split; [|done]. intros _.
    rewrite insert_insert_eq, !delete_insert_id by done.
    split_and!; try done. right. by exists t, res, tid, o3.
Qed.

(** X15.  Memory of a thread's life on the POSIX backend: [CreateKThread],
    [StartKThread] and [DestroyKThread] in a row, the calls into the operating
    system returning, leave the thread objects and the contexts as they were
    before the creation. *)
Theorem Unix_create_start_destroy_restores_memory
    (worker : KThreadWorker) (user_ptr : ptr) (junk : Unix.KThread) (junk_id : Z)
    (a a' : Alloc) (w w1 : Unix.UWorld OS) (t : ptr) :
  (∀ p, p ∈ a → Unix.uthreads OS w !! p = None ∧ Unix.uctxs OS w !! p = None) →
  CreateKThread worker user_ptr junk junk_id a w = Some (t, a', w1) →
  t ≠ NULL →
  ∃ w2 w3,
    StartKThread t w1 = Some (true, w2)
    ∧ (Unix.started <$> Unix.uthreads OS w2 !! t) = Some true
    ∧ DestroyKThread t w2 = Some (true, w3)
    ∧ Unix.uthreads OS w3 = Unix.uthreads OS w
    ∧ Unix.uctxs OS w3 = Unix.uctxs OS w.
Proof.
  intros Hfresh Hcreate Hn. unfold Unix.CreateKThread in Hcreate.
  destruct a as [|t0 a1]; simpl in Hcreate; [by injection Hcreate as <- _ _|].
  destruct (is_null t0) eqn:Hn0; [by injection Hcreate as <- _ _|].
  destruct (Hfresh t0) as [Hft _]; [by left|].
  destruct a1 as [|c a2]; simpl in Hcreate.
  { unfold Unix.free in Hcreate. rewrite lookup_insert_eq in Hcreate.
    by injection Hcreate as <- _ _. }
  destruct (is_null c) eqn:Hnc.
  { unfold Unix.free in Hcreate. rewrite lookup_insert_eq in Hcreate.
    by injection Hcreate as <- _ _. }
  destruct (Hfresh c) as [_ Hfc]; [right; by left|].
  destruct (pthread_create t0 _) as [[res tid] o3].
  destruct (res =? 0)%Z; simpl in Hcreate.
  2:{ unfold Unix.free in Hcreate. rewrite !lookup_insert_eq in Hcreate.
      by injection Hcreate as <- _ _. }
  injection Hcreate as <- <- <-.
  unfold Unix.StartKThread, Unix.DestroyKThread. rewrite Hn0. simpl.
  rewrite !lookup_insert_eq. simpl.
  destruct (pthread_join tid
              (pthread_mutex_unlock t0
                 (pthread_cond_signal t0 (pthread_mutex_lock t0 o3))))
    as [res1 o1] eqn:Hjoin.
  eexists _, _. split; [done|]. simpl. rewrite !lookup_insert_eq. simpl.
  split; [done|]. rewrite Hjoin, Hnc.
  unfold Unix.free. rewrite !lookup_insert_eq. simpl.
  split; [done|]. simpl.
  by rewrite !insert_insert_eq, !delete_insert_id.
Qed.

(** X16.  [SetKThreadPriority] of the POSIX backend changes no thread object
    and no context.  When [pthread_getschedparam] fails it returns false and
    the operating system is not called again.  Otherwise it makes one call of
    [pthread_setschedparam], with the policy the thread has and a priority
    that is the minimum of that policy for Low, its maximum for High and the
    midpoint for Default; the priority is within the range of the policy
    (when the range is not empty), so a policy whose range is one value gets
    that value whatever is asked; and the result is true exactly when that
    call returned 0. *)
Theorem Unix_SetKThreadPriority_stays_in_policy_range
    (t : ptr) (priority : ThreadPriority) (w w' : Unix.UWorld OS) (b : bool)
    (k : Unix.KThread) (res policy param : Z) :
  t ≠ NULL →
  Unix.uthreads OS w !! t = Some k →
  pthread_getschedparam (Unix.thread k) (Unix.os OS w) = (res, policy, param) →
  SetKThreadPriority t priority w = Some (b, w') →
  Unix.uthreads OS w' = Unix.uthreads OS w
  ∧ Unix.uctxs OS w' = Unix.uctxs OS w
  ∧ (res ≠ 0%Z → b = false ∧ w' = w)
  ∧ (res = 0%Z →
     ∃ prio res',
       pthread_setschedparam (Unix.thread k) policy prio (Unix.os OS w)
       = (res', Unix.os OS w')
       ∧ b = (res' =? 0)%Z
       ∧ (priority = THREAD_PRIORITY_LOW → prio = sched_get_priority_min policy)
       ∧ (priority = THREAD_PRIORITY_HIGH → prio = sched_get_priority_max policy)
       ∧ (priority = THREAD_PRIORITY_DEFAULT →
          prio = ((sched_get_priority_min policy + sched_get_priority_max policy) ÷ 2)%Z)
       ∧ ((sched_get_priority_min policy ≤ sched_get_priority_max policy)%Z →
          (sched_get_priority_min policy ≤ prio ≤ sched_get_priority_max policy)%Z)).
Proof.
  intros Hn Hk Hget H. unfold Unix.SetKThreadPriority in H.
  apply is_null_false in Hn. rewrite Hn, Hk in H. simpl in H. rewrite Hget in H.
  destruct (res =? 0)%Z eqn:Hres; simpl in H.
  - apply Z.eqb_eq in Hres.
    destruct (pthread_setschedparam _ _ _ _) as [res' o'] eqn:Hset.
    injection H as <- <-. simpl. split_and!; try done.
    intros _. eexists _, res'. split; [exact Hset|]. split; [done|].
    destruct priority; split_and!; try done; intros Hrange;
      try lia.
    pose proof (Z.quot_rem' (sched_get_priority_min policy + sched_get_priority_max policy) 2).
    pose proof (Z.rem_bound_abs
                  (sched_get_priority_min policy + sched_get_priority_max policy) 2).
    lia.
  - apply Z.eqb_neq in Hres. injection H as <- <-. split_and!; try done.
Qed.

(** X17.  [SleepKThread] of the POSIX backend makes one call of [nanosleep].
    For a delay that is not negative the time it passes is that delay: whole
    seconds, and nanoseconds within a second.  For a negative delay neither
    field is positive and one is negative: the time passed is no valid
    interval. *)
Theorem Unix_SleepKThread_timespec (delay_ms : Z) (w : Unix.UWorld OS) :
  ∃ tv_sec tv_nsec,
    SleepKThread delay_ms w = Unix.set_os OS (nanosleep tv_sec tv_nsec (Unix.os OS w)) w
    ∧ (tv_sec * 1000000000 + tv_nsec = delay_ms * 1000000)%Z
    ∧ ((0 ≤ delay_ms)%Z → (0 ≤ tv_sec ∧ 0 ≤ tv_nsec < 1000000000)%Z)
    ∧ ((delay_ms < 0)%Z → (tv_sec ≤ 0 ∧ tv_nsec ≤ 0 ∧ tv_sec + tv_nsec < 0)%Z).
Proof.
  exists (delay_ms ÷ 1000)%Z, ((delay_ms `rem` 1000) * 1000000)%Z.
  split; [reflexivity|].
  pose proof (Z.quot_rem' delay_ms 1000) as Hqr.
  split; [lia|]. split; intros Hd.
  - assert (0 ≤ delay_ms `rem` 1000 < 1000)%Z by (apply Z.rem_bound_pos; lia). lia.
  - assert (-1000 < delay_ms `rem` 1000 ≤ 0)%Z by (pose proof (Z.rem_bound_pos_neg delay_ms 1000); lia). lia.
Qed.

End UnixFacts.

Lemma Unix_CreateKThread_allocates_or_releases_witness :
  ∃ w',
    Unix.CreateKThread (list OsCall)
      (λ t, log_call (Call_cond_destroy t)) (λ t, log_call (Call_mutex_destroy t))
      (λ t, log_call (Call_mutex_init t)) (λ t, log_call (Call_cond_init t))
      (λ t o, (11%Z, 0%Z, log_call (Call_create t) o))
      (Worker_User []) 9 (Unix.mkKThread 0 true true (Worker_User []) 0) 5
      [300; 400]%Z unix_logged_thread
    = Some (NULL, [], w')
    ∧ Unix.uthreads _ w' = Unix.uthreads _ unix_logged_thread
    ∧ Unix.uctxs _ w' = Unix.uctxs _ unix_logged_thread.
Proof.
  destruct (Unix_CreateKThread_allocates_or_releases (list OsCall)
              (λ t, log_call (Call_cond_destroy t)) (λ t, log_call (Call_mutex_destroy t))
              (λ t, log_call (Call_mutex_init t)) (λ t, log_call (Call_cond_init t))
              (λ t o, (11%Z, 0%Z, log_call (Call_create t) o))
              (Worker_User []) 9%Z (Unix.mkKThread 0 true true (Worker_User []) 0) 5%Z
              [300; 400]%Z unix_logged_thread)
    as (r & a' & w' & Hc & Hnull & _).
  - intros p Hp.
    repeat (apply elem_of_cons in Hp as [->|Hp]; [by vm_compute|]).
    by apply elem_of_nil in Hp.
  - assert (r = NULL ∧ a' = []) as [-> ->].
    { pose proof Hc as Hc'. vm_compute in Hc'. by injection Hc' as <- <- _. }
    destruct (Hnull eq_refl) as (Hts & Hcs & _).
    exists w'. split; [exact Hc|]. split; [exact Hts|exact Hcs].
Defined.

Lemma Unix_create_start_destroy_restores_memory_witness :
  ∃ w1 w2 w3,
    Unix.CreateKThread (list OsCall)
      (λ t, log_call (Call_cond_destroy t)) (λ t, log_call (Call_mutex_destroy t))
      (λ t, log_call (Call_mutex_init t)) (λ t, log_call (Call_cond_init t))
      (λ t o, (0%Z, 7%Z, log_call (Call_create t) o))
      (Worker_User []) 9 (Unix.mkKThread 0 true true (Worker_User []) 0) 5
      [300; 400]%Z unix_empty
    = Some (300%Z, [], w1)
    ∧ Unix.StartKThread (list OsCall)
        (λ t, log_call (Call_mutex_lock t)) (λ t, log_call (Call_mutex_unlock t))
        (λ t, log_call (Call_cond_signal t)) 300 w1
      = Some (true, w2)
    ∧ Unix.DestroyKThread (list OsCall)
        (λ th o, (0%Z, log_call (Call_join th) o))
        (λ t, log_call (Call_cond_destroy t)) (λ t, log_call (Call_mutex_destroy t))
        300 w2
      = Some (true, w3)
    ∧ Unix.uthreads _ w3 = ∅
    ∧ Unix.uctxs _ w3 = ∅.
Proof.
  destruct (Unix.CreateKThread (list OsCall)
              (λ t, log_call (Call_cond_destroy t)) (λ t, log_call (Call_mutex_destroy t))
              (λ t, log_call (Call_mutex_init t)) (λ t, log_call (Call_cond_init t))
              (λ t o, (0%Z, 7%Z, log_call (Call_create t) o))
              (Worker_User []) 9%Z (Unix.mkKThread 0 true true (Worker_User []) 0) 5%Z
              [300; 400]%Z unix_empty)
    as [[[t a'] w1]|] eqn:Hc; [|by vm_compute in Hc].
  assert (t = 300%Z ∧ a' = []) as [-> ->].
  { pose proof Hc as Hc'. vm_compute in Hc'. by injection Hc' as <- <- _. }
  destruct (Unix_create_start_destroy_restores_memory (list OsCall)
              (λ th o, (0%Z, log_call (Call_join th) o))
              (λ t, log_call (Call_cond_destroy t)) (λ t, log_call (Call_mutex_destroy t))
              (λ t, log_call (Call_mutex_lock t)) (λ t, log_call (Call_mutex_unlock t))
              (λ t, log_call (Call_cond_signal t))
              (λ t, log_call (Call_mutex_init t)) (λ t, log_call (Call_cond_init t))
              (λ t o, (0%Z, 7%Z, log_call (Call_create t) o))
              (Worker_User []) 9%Z (Unix.mkKThread 0 true true (Worker_User []) 0) 5%Z
              [300; 400]%Z [] unix_empty w1 300%Z)
    as (w2 & w3 & Hstart & _ & Hdestroy & Hts & Hcs).
  - intros p Hp.
    repeat (apply elem_of_cons in Hp as [->|Hp]; [by vm_compute|]).
    by apply elem_of_nil in Hp.
  - exact Hc.
  - discriminate.
  - exists w1, w2, w3. split; [reflexivity|]. split; [exact Hstart|].
    split; [exact Hdestroy|]. split; [exact Hts|exact Hcs].
Defined.

Lemma Unix_SetKThreadPriority_stays_in_policy_range_witness :
  ∃ w' prio,
    Unix.SetKThreadPriority (list OsCall)
      (λ _ _, (0%Z, 1%Z, 0%Z)) (λ _, 1%Z) (λ _, 99%Z)
      (λ th policy prio o, (0%Z, log_call (Call_setschedparam th policy prio) o))
      100 THREAD_PRIORITY_DEFAULT unix_logged_thread
    = Some (true, w')
    ∧ Unix.os _ w' = [Call_setschedparam 7 1 prio]
    ∧ (1 ≤ prio ≤ 99)%Z.
Proof.
  destruct (Unix.SetKThreadPriority (list OsCall)
              (λ _ _, (0%Z, 1%Z, 0%Z)) (λ _, 1%Z) (λ _, 99%Z)
              (λ th policy prio o, (0%Z, log_call (Call_setschedparam th policy prio) o))
              100%Z THREAD_PRIORITY_DEFAULT unix_logged_thread)
    as [[b w']|] eqn:Hset; [|by vm_compute in Hset].
  destruct (Unix_SetKThreadPriority_stays_in_policy_range (list OsCall)
              (λ _ _, (0%Z, 1%Z, 0%Z)) (λ _, 1%Z) (λ _, 99%Z)
              (λ th policy prio o, (0%Z, log_call (Call_setschedparam th policy prio) o))
              100%Z THREAD_PRIORITY_DEFAULT unix_logged_thread w' b
              (Unix.mkKThread 7 true true (Worker_User []) 200) 0%Z 1%Z 0%Z)
    as (_ & _ & _ & Hok).
  - discriminate.
  - reflexivity.
  - reflexivity.
  - exact Hset.
  - destruct (Hok eq_refl) as (prio & res' & Hcall & -> & _ & _ & _ & Hrange).
    injection Hcall as <- Hos. exists w', prio.
    split; [reflexivity|]. split; [by rewrite <- Hos|]. apply Hrange. lia.
Defined.

(** ** The futex lock loses no wake-up *)

Module KSyncProgress.
Import KSync.

Lemma existsb_lookup {A} (f : A → bool) (l : list A) :
  existsb f l = true ↔ ∃ j q, l !! j = Some q ∧ f q = true.
Proof.
  rewrite existsb_exists. split.
  - intros (q & Hin & Hq). apply list_elem_of_In, list_elem_of_lookup in Hin as [j Hj].
    by exists j, q.
  - intros (j & q & Hj & Hq). exists q. split; [|done].
    apply list_elem_of_In. by eapply list_elem_of_lookup_2.
Qed.

Lemma existsb_insert_hit {A} (f : A → bool) (l : list A) i x y :
  l !! i = Some x → f y = true → existsb f (<[i := y]> l) = true.
Proof.
  intros Hi Hy. apply existsb_lookup. exists i, y. split; [|done].
  apply list_lookup_insert_eq. by eapply lookup_lt_Some.
Qed.

Lemma existsb_insert_keep {A} (f : A → bool) (l : list A) i j y q :
  l !! j = Some q → j ≠ i → f q = true → existsb f (<[i := y]> l) = true.
Proof.
  intros Hj Hne Hq. apply existsb_lookup. exists j, q. split; [|done].
  by rewrite list_lookup_insert_ne.
Qed.

Lemma existsb_insert_same {A} (f : A → bool) (l : list A) i x y :
  l !! i = Some x → f y = f x → existsb f (<[i := y]> l) = existsb f l.
Proof.
  revert i. induction l as [|z l IH]; intros [|i] Hi Hf; simpl in *; try done.
  - injection Hi as ->. by rewrite Hf.
  - by rewrite (IH i Hi Hf).
Qed.

Lemma holder_exists ps :
  (0 < total holds ps)%Z → ∃ j q, ps !! j = Some q ∧ holds q = 1%Z.
Proof.
  induction ps as [|p ps IH]; simpl; [lia|]. intros Hpos.
  pose proof (KSyncFacts.holds_range p) as Hr.
  destruct (decide (holds p = 1%Z)) as [Hp|Hp].
  - by exists 0, p.
  - destruct IH as (j & q & Hj & Hq); [lia|]. by exists (S j), q.
Qed.

Lemma holds_active p : holds p = 1%Z → active p = true.
Proof.
  unfold holds, active. by destruct (pc p) as [|l| | |u|].
Qed.

(** What one step of a thread does to the sleepers and to the threads on
    their way to wake them. *)
Lemma futex_step_cases C p word cnt p' word' cnt' wake :
  thread_step FutexMutex C p word cnt = Some (p', word', cnt', wake) →
  is_parked p = false
  ∧ ((active p' = true ∧ wake = false)
     ∨ (active p' = active p ∧ is_parked p' = false ∧ wake = false)
     ∨ (is_parked p' = true ∧ word = 1%Z ∧ holds p = 0%Z ∧ wake = false)
     ∨ (wake = true ∧ is_parked p' = false)).
Proof.
  destruct p as [c it tm]. unfold thread_step, is_parked, active, holds. simpl.
  destruct c as [|l| | |u|]; simpl; intros H; try done.
  - injection H as <- <- <- <-. split; [done|]. right. left.
    by destruct (it <? C).
  - destruct l; simpl in H; try done.
    + destruct (word =? 0)%Z; simpl in H; injection H as <- <- <- <-;
        (split; [done|]); simpl; by left.
    + destruct (word =? 0)%Z; simpl in H; injection H as <- <- <- <-;
        (split; [done|]); simpl; by left.
    + destruct (word =? 1)%Z eqn:Hw; simpl in H; injection H as <- <- <- <-;
        (split; [done|]); simpl; [|by left].
      apply Z.eqb_eq in Hw. right. right. by left.
    + destruct (word =? 0)%Z; simpl in H; injection H as <- <- <- <-;
        (split; [done|]); simpl; by left.
  - injection H as <- <- <- <-. split; [done|]. by left.
  - injection H as <- <- <- <-. split; [done|]. by left.
  - destruct u; simpl in H; injection H as <- <- <- <-; (split; [done|]).
    + by left.
    + right. right. by right.
Qed.

Lemma futex_step_enabled C p word cnt :
  pc p ≠ Finished → is_parked p = false →
  is_Some (thread_step FutexMutex C p word cnt).
Proof.
  destruct p as [c it tm]. unfold thread_step, is_parked. simpl.
  destruct c as [|l| | |u|]; simpl; intros Hf Hp; try done.
  - destruct l; try done; simpl;
      destruct (word =? 0)%Z, (word =? 1)%Z; simpl; by eexists.
  - destruct u; simpl; by eexists.
Qed.

Lemma step_waker C lbl s s' :
  kernel_wake_ok FutexMutex C lbl s = true →
  step FutexMutex C lbl s = Some s' →
  inv C s → waker_on_its_way s → waker_on_its_way s'.
Proof.
  intros Hok Hstep Hinv HJ. destruct lbl as [i woken|j]; [|done].
  simpl in Hok, Hstep.
  destruct (procs s !! i) as [p|] eqn:Hp; simpl in Hok, Hstep; [|done].
  destruct (thread_step FutexMutex C p (mutex_state s) (counter s))
    as [[[[p' word'] cnt'] wake]|] eqn:Hts; simpl in Hok, Hstep; [|done].
  injection Hstep as <-. unfold waker_on_its_way in *. simpl.
  destruct (futex_step_cases _ _ _ _ _ _ _ _ Hts)
    as (Hpp & [[Hact ->]|[(Hact & Hpark & ->)|[(Hpark & Hw & Hh & ->)|[-> Hpark]]]]).
  - intros _. by eapply existsb_insert_hit.
  - rewrite (existsb_insert_same is_parked _ _ p p') by (done || congruence).
    rewrite (existsb_insert_same active _ _ p p') by done. exact HJ.
  - intros _. destruct Hinv as (Hword & Hrange & _).
    destruct (holder_exists (procs s)) as (j & q & Hj & Hq).
    { unfold holders in *. lia. }
    apply (existsb_insert_keep active _ i j p' q); [done| |by apply holds_active].
    intros ->. rewrite Hp in Hj. injection Hj as ->. lia.
  - destruct woken as [j|].
    + apply bool_decide_eq_true in Hok.
      destruct (<[i:=p']> (procs s) !! j) as [q|] eqn:Hq; [|done].
      simpl in Hok. injection Hok as Hqp.
      unfold wake_up. rewrite Hq. simpl. rewrite Hqp. simpl.
      intros _. by eapply existsb_insert_hit.
    + apply negb_true_iff in Hok. rewrite Hok. done.
Qed.

Lemma exec_kernel_exec impl C lbls :
  ∀ s s', exec_kernel impl C lbls s = Some s' → exec impl C lbls s = Some s'.
Proof.
  induction lbls as [|lbl lbls IH]; intros s s' H; simpl in *; [done|].
  destruct (kernel_wake_ok impl C lbl s); [|done].
  destruct (step impl C lbl s) as [s1|]; simpl in *; [|done]. by apply IH.
Qed.

Lemma exec_kernel_waker C lbls :
  ∀ s s', exec_kernel FutexMutex C lbls s = Some s' →
          inv C s → waker_on_its_way s → inv C s' ∧ waker_on_its_way s'.
Proof.
  induction lbls as [|lbl lbls IH]; intros s s' H Hinv HJ; simpl in H.
  - by injection H as <-.
  - destruct (kernel_wake_ok FutexMutex C lbl s) eqn:Hok; [|done].
    destruct (step FutexMutex C lbl s) as [s1|] eqn:Hstep; simpl in H; [|done].
    apply (IH s1 s' H).
    + eapply KSyncFacts.step_inv; [|exact Hstep|exact Hinv]. done.
    + by eapply step_waker.
Qed.

Lemma init_waker N : waker_on_its_way (init N).
Proof.
  unfold waker_on_its_way, init. simpl. intros H.
  apply existsb_lookup in H as (j & q & Hq & Hpark).
  apply lookup_replicate in Hq as [-> _]. done.
Qed.

Lemma active_runnable p : active p = true → pc p ≠ Finished ∧ is_parked p = false.
Proof.
  unfold active, is_parked. destruct (pc p) as [|l| | |u|]; try done.
  by destruct l.
Qed.

End KSyncProgress.

(** X18.  The futex lock cannot get stuck.  Take any run of [N] threads in
    which a wake-up reaches a sleeper whenever there is one and no sleeper
    wakes on its own.  In the state it arrives at, while a thread has not
    finished its loop some thread can take a step: the threads asleep in
    [_futex_wait] are never the only ones left, since a thread goes to sleep
    only while the lock is held, and the holder wakes a sleeper after it has
    released the lock. *)
Theorem futex_lock_loses_no_wakeup
    (N C : nat) (lbls : list KSync.Label) (s : KSync.MState) :
  exec_kernel KSync.FutexMutex C lbls (KSync.init N) = Some s →
  (∃ j q, KSync.procs s !! j = Some q ∧ KSync.pc q ≠ KSync.Finished) →
  waker_on_its_way s
  ∧ ∃ i woken s',
      kernel_wake_ok KSync.FutexMutex C (KSync.Run i woken) s = true
      ∧ KSync.step KSync.FutexMutex C (KSync.Run i woken) s = Some s'.
Proof.
  intros Hrun (j & q & Hq & Hfin).
  destruct (KSyncProgress.exec_kernel_waker C lbls _ _ Hrun
              (KSyncFacts.init_inv C N) (KSyncProgress.init_waker N)) as [Hinv HJ].
  split; [exact HJ|].
  assert (∃ i p, KSync.procs s !! i = Some p
                 ∧ KSync.pc p ≠ KSync.Finished ∧ KSync.is_parked p = false)
    as (i & p & Hp & Hpf & Hpp).
  { destruct (KSync.is_parked q) eqn:Hpark; [|by exists j, q].
    destruct (proj1 (KSyncProgress.existsb_lookup active (KSync.procs s)))
      as (i & p & Hp & Hact).
    { apply HJ. apply KSyncProgress.existsb_lookup. by exists j, q. }
    apply KSyncProgress.active_runnable in Hact as [? ?]. by exists i, p. }
  destruct (KSyncProgress.futex_step_enabled C p (KSync.mutex_state s) (KSync.counter s)
              Hpf Hpp) as [[[[p' word'] cnt'] wake] Hts].
  exists i.
  destruct wake; [|exists None; eexists; simpl; rewrite Hp; simpl; rewrite Hts; done].
  destruct (existsb KSync.is_parked (<[i := p']> (KSync.procs s))) eqn:Hex.
  - apply KSyncProgress.existsb_lookup in Hex as (k & r & Hr & Hrp).
    exists (Some k). eexists. simpl. rewrite Hp. simpl. rewrite Hts. simpl.
    split; [|done]. apply bool_decide_eq_true. by rewrite Hr, <- Hrp.
  - exists None. eexists. simpl. rewrite Hp. simpl. rewrite Hts. simpl.
    split; [|done]. by rewrite Hex.
Qed.

Lemma futex_lock_loses_no_wakeup_witness :
  ∃ s,
    exec_kernel KSync.FutexMutex 1 (take 9 KSync.contended_schedule) (KSync.init 2) = Some s
    ∧ (KSync.pc <$> KSync.procs s)
      = [KSync.Unlocking KSync.UnlockWake; KSync.Locking KSync.Parked]
    ∧ ∃ i woken s',
        kernel_wake_ok KSync.FutexMutex 1 (KSync.Run i woken) s = true
        ∧ KSync.step KSync.FutexMutex 1 (KSync.Run i woken) s = Some s'.
Proof.
  destruct (exec_kernel KSync.FutexMutex 1 (take 9 KSync.contended_schedule) (KSync.init 2))
    as [s|] eqn:Hrun; [|by vm_compute in Hrun].
  exists s. split; [reflexivity|].
  destruct (futex_lock_loses_no_wakeup 2 1 (take 9 KSync.contended_schedule) s Hrun)
    as [_ Hstep].
  - vm_compute in Hrun. injection Hrun as <-. exists 0, (KSync.mkProc (KSync.Unlocking KSync.UnlockWake) 0 0).
    split; [reflexivity|discriminate].
  - split; [|exact Hstep]. vm_compute in Hrun. by injection Hrun as <-.
Defined.
